(** * Myanmar food image scraper: a shallow embedding and its properties

    The development follows [myanmar_food_scraper.py].  Python [str] values
    are lists of characters, file contents are lists of bytes, the
    filesystem is a finite map from paths to contents, and every call that
    leaves the program (browser, network, filesystem, clock) is answered by
    an oracle and recorded in a trace. *)

From Stdlib Require Import ZArith Ascii String DecimalString DecimalNat
  DecimalFacts.
From stdpp Require Import base decidable option list gmap strings.

Local Open Scope Z_scope.

(** ** Python strings *)

Abbreviation str := (list ascii).

Definition lit (s : string) : str := list_ascii_of_string s.

Module Py.

(** Truthiness of a [str]: the empty string is falsy. *)
Definition truthy (s : str) : bool :=
  match s with [] => false | _ :: _ => true end.

(** Truthiness of an optional string ([None] and [""] are falsy). *)
Definition truthy_opt (o : option str) : bool :=
  match o with Some s => truthy s | None => false end.

(** [a or b] on optional strings. *)
Definition or_ (a b : option str) : option str :=
  if truthy_opt a then a else b.

Fixpoint index_of (c : ascii) (s : str) : option nat :=
  match s with
  | [] => None
  | x :: r => if Ascii.eqb x c then Some O else S <$> index_of c r
  end.

Fixpoint last_index_of (c : ascii) (s : str) : option nat :=
  match s with
  | [] => None
  | x :: r =>
      match last_index_of c r with
      | Some i => Some (S i)
      | None => if Ascii.eqb x c then Some O else None
      end
  end.

(** [s.find(c)], [s.find(c, start)] and [s.rfind(c)]: an index, or -1. *)
Definition find (c : ascii) (s : str) : Z :=
  match index_of c s with Some i => Z.of_nat i | None => -1 end.

Definition find_from (c : ascii) (s : str) (start : Z) : Z :=
  match index_of c (drop (Z.to_nat start) s) with
  | Some i => start + Z.of_nat i
  | None => -1
  end.

Definition rfind (c : ascii) (s : str) : Z :=
  match last_index_of c s with Some i => Z.of_nat i | None => -1 end.

(** [c in s] for a single character. *)
Definition has (c : ascii) (s : str) : bool :=
  existsb (Ascii.eqb c) s.

(** Slices [s[:i]], [s[i:]] and [s[i:j]] for non-negative bounds. *)
Definition upto (s : str) (i : Z) : str := take (Z.to_nat i) s.
Definition from (s : str) (i : Z) : str := drop (Z.to_nat i) s.
Definition slice (s : str) (i j : Z) : str := from (upto s j) i.

Fixpoint startswith (s p : str) : bool :=
  match p, s with
  | [], _ => true
  | _ :: _, [] => false
  | y :: p', x :: s' => Ascii.eqb x y && startswith s' p'
  end.

(** [sub in s] for a substring. *)
Fixpoint contains (sub s : str) : bool :=
  startswith s sub ||
  match s with [] => false | _ :: r => contains sub r end.

(** [str.lower] on code points below 256: the ASCII capitals and the
    Latin-1 capitals (192..222 without the multiplication sign). *)
Definition lower_char (c : ascii) : ascii :=
  let n := nat_of_ascii c in
  if ((65 <=? n)%nat && (n <=? 90)%nat)
     || ((192 <=? n)%nat && (n <=? 222)%nat && negb (n =? 215)%nat)
  then ascii_of_nat (n + 32) else c.

Definition lower (s : str) : str := map lower_char s.

(** [s.lstrip(chars)] and [s.replace(c, "")]. *)
Fixpoint lstrip (strip : ascii -> bool) (s : str) : str :=
  match s with
  | x :: r => if strip x then lstrip strip r else s
  | [] => []
  end.

Definition remove (c : ascii) (s : str) : str :=
  List.filter (fun x => negb (Ascii.eqb x c)) s.

(** [s.split(c, 1)] when [c in s]. *)
Definition split1 (c : ascii) (s : str) : str * str :=
  (upto s (find c s), from s (find c s + 1)).

(** [str(n)] for a non-negative integer. *)
Definition str_of_nat (n : nat) : str :=
  lit (NilZero.string_of_uint (Nat.to_uint n)).

End Py.

(** ** [urllib.parse.urlparse]

    Only the netloc can make [urlsplit] raise [ValueError] (unbalanced
    brackets, an invalid bracketed host, the NFKC check); that validation
    is a parameter [netloc_ok] of the model.  A parse that raises is
    [None]. *)

Module Url.

Record ParseResult := {
  scheme : str; netloc : str; path : str;
  params : str; query : str; fragment : str
}.

Definition is_c0_control_or_space (c : ascii) : bool :=
  (nat_of_ascii c <=? 32)%nat.

Definition is_ascii_alpha (c : ascii) : bool :=
  let n := nat_of_ascii c in
  ((65 <=? n)%nat && (n <=? 90)%nat) || ((97 <=? n)%nat && (n <=? 122)%nat).

Definition is_digit (c : ascii) : bool :=
  let n := nat_of_ascii c in (48 <=? n)%nat && (n <=? 57)%nat.

Definition scheme_char (c : ascii) : bool :=
  is_ascii_alpha c || is_digit c || Py.has c (lit "+-.").

Definition uses_params : list str :=
  map lit [""; "ftp"; "hdl"; "prospero"; "http"; "imap"; "https"; "shttp";
           "rtsp"; "rtspu"; "sip"; "sips"; "mms"; "sftp"; "tel"]%string.

(** [_splitnetloc(url, start)]. *)
Definition splitnetloc (url : str) (start : Z) : str * str :=
  let delim :=
    fold_left (fun delim c =>
                 let wdelim := Py.find_from c url start in
                 if 0 <=? wdelim then Z.min delim wdelim else delim)
              (lit "/?#") (Z.of_nat (length url)) in
  (Py.slice url start delim, Py.from url delim).

(** The scheme test of [urlsplit]: the text before the first colon is a
    scheme when it is non-empty, starts with an ASCII letter and consists
    of scheme characters. *)
Definition split_scheme (url : str) : str * str :=
  let i := Py.find ":" url in
  if (0 <? i) && from_option is_ascii_alpha false (head url)
     && forallb scheme_char (Py.upto url i)
  then (Py.lower (Py.upto url i), Py.from url (i + 1))
  else ([], url).

(** [_splitparams(url)], called when [';' in url]. *)
Definition splitparams (url : str) : str * str :=
  let i :=
    if Py.has "/" url then Py.find_from ";" url (Py.rfind "/" url)
    else Py.find ";" url in
  if i <? 0 then (url, []) else (Py.upto url i, Py.from url (i + 1)).

(** The first steps of [urlsplit]: leading C0 control characters and
    spaces are stripped, then tabs and line breaks are removed. *)
Definition sanitize (url : str) : str :=
  fold_left (fun u b => Py.remove b u) ["009"; "013"; "010"]%char
            (Py.lstrip is_c0_control_or_space url).

(** [if url[:2] == '//': netloc, url = _splitnetloc(url, 2)]. *)
Definition split_authority (url : str) : str * str :=
  if bool_decide (Py.upto url 2 = lit "//")
  then splitnetloc url 2 else ([], url).

(** [if c in url: url, rest = url.split(c, 1)]. *)
Definition split_at (c : ascii) (url : str) : str * str :=
  if Py.has c url then Py.split1 c url else (url, []).

Section Parse.
Variable netloc_ok : str -> bool.

Definition urlsplit (url : str) : option ParseResult :=
  let url := sanitize url in
  let '(scheme, url) := split_scheme url in
  let '(netloc, url) := split_authority url in
  if negb (netloc_ok netloc) then None else
  let '(url, fragment) := split_at "#" url in
  let '(url, query) := split_at "?" url in
  Some {| scheme := scheme; netloc := netloc; path := url;
          params := []; query := query; fragment := fragment |}.

Definition urlparse (url : str) : option ParseResult :=
  r ← urlsplit url;
  let '(url, params) :=
    if bool_decide (scheme r ∈ uses_params) && Py.has ";" (path r)
    then splitparams (path r) else (path r, []) in
  Some {| scheme := scheme r; netloc := netloc r; path := url;
          params := params; query := query r; fragment := fragment r |}.
End Parse.

End Url.

(** ** [os.path] (POSIX flavour) *)

Module OsPath.

(** [os.path.splitext]: the extension starts at the last dot of the last
    path component, unless that component consists of leading dots only.
    The source's [while] loop scans [p[sepIndex+1:dotIndex]] for a
    character other than a dot. *)
Definition splitext (p : str) : str * str :=
  let sepIndex := Py.rfind "/" p in
  let dotIndex := Py.rfind "." p in
  if (sepIndex <? dotIndex)
     && existsb (fun c => negb (Ascii.eqb c "."))
          (Py.slice p (sepIndex + 1) dotIndex)
  then (Py.upto p dotIndex, Py.from p dotIndex)
  else (p, []).

(** [os.path.join(a, b)]. *)
Definition join (a b : str) : str :=
  if Py.startswith b (lit "/") then b
  else if negb (Py.truthy a) || Py.startswith (reverse a) (lit "/")
       then a ++ b
       else a ++ lit "/" ++ b.

End OsPath.

(** ** File naming (lines 217-226 of the source) *)

Definition allowed_extensions : list str :=
  map lit [".jpg"; ".jpeg"; ".png"; ".webp"]%string.

Definition default_extension : str := lit ".jpg".

(** The extension chosen for a path already taken from the URL. *)
Definition extension_of_path (p : str) : str :=
  let file_extension := (OsPath.splitext p).2 in
  if negb (Py.truthy file_extension)
     || negb (bool_decide (file_extension ∈ allowed_extensions))
  then default_extension else file_extension.

(** The extension chosen for a URL; [None] when [urlparse] raises. *)
Definition file_extension (netloc_ok : str -> bool) (img_url : str)
  : option str :=
  parsed_url ← Url.urlparse netloc_ok img_url;
  Some (extension_of_path (Url.path parsed_url)).

(** [f"{food_name}_{i+1}{file_extension}"] for the 0-based index [i]. *)
Definition file_name (food_name : str) (i : nat) (file_extension : str) : str :=
  food_name ++ lit "_" ++ Py.str_of_nat (i + 1) ++ file_extension.


(** ** [requests] responses *)

(** [requests.structures.CaseInsensitiveDict]: the store is keyed by the
    lower-cased header name and keeps the original name with the value. *)
Record CaseInsensitiveDict := { store : gmap str (str * str) }.

Definition headers_get (h : CaseInsensitiveDict) (key default : str) : str :=
  match store h !! Py.lower key with
  | Some (_, v) => v
  | None => default
  end.

Definition headers_set (key value : str) (h : CaseInsensitiveDict)
  : CaseInsensitiveDict :=
  {| store := <[Py.lower key := (key, value)]> (store h) |}.

Definition no_headers : CaseInsensitiveDict := {| store := ∅ |}.

Record Response := {
  status_code : Z;
  headers : CaseInsensitiveDict;
  content : list Byte.byte
}.

(** ** Exceptions and the outcome of a call *)

Inductive exn :=
| AttributeError        (* a method called on [None] *)
| WebDriverException    (* navigation, script, element lookup *)
| TimeoutException      (* [WebDriverWait.until] *)
| RequestException      (* connection errors and timeouts of [requests] *)
| HTTPError             (* [raise_for_status] *)
| OSError               (* filesystem *)
| ValueError            (* [urlparse] *)
| KeyboardInterrupt.

(** [isinstance(e, Exception)]: [KeyboardInterrupt] derives from
    [BaseException] only. *)
Definition is_Exception (e : exn) : bool :=
  match e with KeyboardInterrupt => false | _ => true end.

Inductive outcome (A : Type) :=
| Returns (a : A)
| Raises (e : exn).
Arguments Returns {A} a.
Arguments Raises {A} e.

(** [response.raise_for_status()]. *)
Definition raise_for_status (r : Response) : outcome unit :=
  if (400 <=? status_code r) && (status_code r <? 600)
  then Raises HTTPError else Returns tt.

(** An [<img>] element as the scraper sees it: the answers of
    [get_attribute("src")] and [get_attribute("data-src")]. *)
Record WebElement := {
  attr_src : outcome (option str);
  attr_data_src : outcome (option str)
}.

(** ** The world outside the program

    Each field answers one kind of external call; the first argument is
    the number of external calls made so far, so that a world can answer
    the same call differently over time. *)
Record World := {
  makedirs : nat -> str -> outcome unit;
  chrome_launch : nat -> bool -> outcome unit;
  driver_get : nat -> str -> outcome unit;
  execute_script : nat -> str -> outcome unit;
  find_show_more : nat -> outcome unit;
  is_displayed : nat -> outcome bool;
  click : nat -> outcome unit;
  wait_for_imgs : nat -> outcome unit;
  find_imgs : nat -> outcome (list WebElement);
  driver_quit : nat -> outcome unit;
  requests_get : nat -> str -> outcome Response;
  open_wb : nat -> str -> outcome unit;
  write_bytes : nat -> str -> outcome unit;
  sleep : nat -> Z -> outcome unit;
  netloc_ok : str -> bool
}.

Inductive event :=
| EMakedirs (p : str)
| ELaunch (headless : bool)
| ENavigate (url : str)
| EScript (js : str)
| EFindShowMore
| EIsDisplayed
| EClick
| EWaitImgs
| EFindImgs
| EGetAttribute
| EQuit
| EFetch (url : str)
| EOpen (p : str)
| EWrite (p : str)
| ESleep (seconds : Z).

Global Instance event_eq_dec : EqDecision event.
Proof. solve_decision. Defined.

(** The program state: [self.driver] (set or [None]), the directories and
    files on disk, and the calls made so far. *)
Record State := {
  driver : bool;
  dirs : gset str;
  files : gmap str (list Byte.byte);
  trace : list event
}.

Definition set_driver (d : bool) (s : State) : State :=
  {| driver := d; dirs := dirs s; files := files s; trace := trace s |}.
Definition add_dir (p : str) (s : State) : State :=
  {| driver := driver s; dirs := {[p]} ∪ dirs s; files := files s;
     trace := trace s |}.
Definition put_file (p : str) (c : list Byte.byte) (s : State) : State :=
  {| driver := driver s; dirs := dirs s; files := <[p := c]> (files s);
     trace := trace s |}.
Definition record (e : event) (s : State) : State :=
  {| driver := driver s; dirs := dirs s; files := files s;
     trace := trace s ++ [e] |}.

(** ** A state and exception monad *)

Inductive result (A : Type) :=
| Val (a : A)
| Exc (e : exn).
Arguments Val {A} a.
Arguments Exc {A} e.

Definition M (A : Type) : Type := State -> result A * State.

Definition ret {A} (a : A) : M A := fun s => (Val a, s).
Definition raise {A} (e : exn) : M A := fun s => (Exc e, s).
Definition bind {A B} (m : M A) (k : A -> M B) : M B :=
  fun s => match m s with
           | (Val a, s') => k a s'
           | (Exc e, s') => (Exc e, s')
           end.

(** [try: m  except <classes>: h]: the handler runs for the exceptions the
    clause catches, the others propagate. *)
Definition try_ {A} (m : M A) (catches : exn -> bool) (h : exn -> M A) : M A :=
  fun s => match m s with
           | (Exc e, s') => if catches e then h e s' else (Exc e, s')
           | r => r
           end.

(** [try: m  finally: f]: an exception of [f] replaces the pending one. *)
Definition try_finally {A} (m : M A) (f : M unit) : M A :=
  fun s => match m s with
           | (r, s') => match f s' with
                        | (Val _, s'') => (r, s'')
                        | (Exc e, s'') => (Exc e, s'')
                        end
           end.

Declare Scope py_scope.
Delimit Scope py_scope with py.
Notation "x <- m ;; k" := (bind m (fun x => k))
  (at level 20, m at level 99, k at level 200, only parsing) : py_scope.
Notation "m ;; k" := (bind m (fun _ => k))
  (at level 100, k at level 200, right associativity, only parsing) : py_scope.
Local Open Scope py_scope.

(** [for x in l: body x], threading a loop-carried value. *)
Fixpoint for_each {A B} (l : list A) (body : A -> B -> M B) (acc : B) : M B :=
  match l with
  | [] => ret acc
  | x :: r => acc' <- body x acc ;; for_each r body acc'
  end.

Definition get_state : M State := fun s => (Val s, s).
Definition modify (f : State -> State) : M unit := fun s => (Val tt, f s).

(** An external call: recorded in the trace, answered by the world. *)
Definition call {A} (e : event) (answer : nat -> outcome A) : M A :=
  fun s => match answer (length (trace s)) with
           | Returns a => (Val a, record e s)
           | Raises x => (Exc x, record e s)
           end.

Definition lift {A} (o : outcome A) : M A :=
  match o with Returns a => ret a | Raises e => raise e end.

(** [enumerate(l, start)]. *)
Fixpoint enumerate {A} (start : nat) (l : list A) : list (nat * A) :=
  match l with
  | [] => []
  | x :: r => (start, x) :: enumerate (S start) r
  end.

(** [l[:n]] for a Python integer [n]; a negative bound counts from the
    end. *)
Definition slice_to {A} (l : list A) (n : Z) : list A :=
  if 0 <=? n then take (Z.to_nat n) l
  else take (length l - Z.to_nat (- n)) l.

(** [list(dict.fromkeys(l))].  A dictionary keeps its keys in insertion
    order, so it is modelled by the list of its keys; setting a key that
    is already there leaves its position alone. *)
Definition dict_setkey (d : list str) (k : str) : list str :=
  if bool_decide (k ∈ d) then d else d ++ [k].

Definition dict_fromkeys (l : list str) : list str :=
  fold_left dict_setkey l [].

(** ** The scraper *)

Record MyanmarFoodScraper := {
  headless : bool;
  images_per_food : Z;
  base_folder : str;
  myanmar_foods : list str
}.

(** [MyanmarFoodScraper.__init__]. *)
Definition init (headless : bool) (images_per_food : Z) : MyanmarFoodScraper :=
  {| headless := headless;
     images_per_food := images_per_food;
     base_folder := lit "Myanmar_Food_Images";
     myanmar_foods :=
       map lit ["mohinga"; "laphet thoke"; "shan noodles"; "mont hin gar";
                "khow suey"; "nga htamin"; "mandalay mee shay";
                "ohn no khao swe"; "kyet thar hin"; "wet tha hin";
                "nga baung doke"; "mont lone yay paw"; "shwe yin aye";
                "faluda"; "htamin thoke"; "thoke sone"; "dan bauk";
                "meeshay"; "nan gyi thoke"; "mont ti"]%string |}.

Section Scraper.
Variable W : World.
Variable self : MyanmarFoodScraper.

(** A method call on [self.driver], which may still be [None]. *)
Definition on_driver {A} (m : M A) : M A :=
  fun s => if driver s then m s else (Exc AttributeError, s).

Definition time_sleep (seconds : Z) : M unit :=
  call (ESleep seconds) (fun t => sleep W t seconds).

Definition setup_driver : M unit :=
  try_ (call (ELaunch (headless self))
             (fun t => chrome_launch W t (headless self)) ;;
        modify (set_driver true))
       is_Exception
       (fun e => raise e).

Definition create_folder (folder_name : str) : M str :=
  let folder_path := OsPath.join (base_folder self) folder_name in
  call (EMakedirs folder_path) (fun t => makedirs W t folder_path) ;;
  modify (add_dir folder_path) ;;
  ret folder_path.

(** Lines 140-149: what one [<img>] element adds to [image_urls]. *)
Definition url_to_use (src data_src : option str) : option str :=
  Py.or_ src data_src.

Definition keep_url (u : option str) : list str :=
  match u with
  | Some u =>
      if Py.truthy u && Py.startswith u (lit "http")
      then if negb (Py.startswith u (lit "data:")) then [u] else []
      else []
  | None => []
  end.

Definition collect_img (img : WebElement) (image_urls : list str)
  : M (list str) :=
  src <- call EGetAttribute (fun _ => attr_src img) ;;
  data_src <- call EGetAttribute (fun _ => attr_data_src img) ;;
  ret (image_urls ++ keep_url (url_to_use src data_src)).

(** Lines 114-127: one round of the scroll loop. *)
Definition scroll_once (_ : nat) (_ : unit) : M unit :=
  on_driver (call (EScript (lit "window.scrollBy(0,1000)"))
               (fun t => execute_script W t (lit "window.scrollBy(0,1000)"))) ;;
  time_sleep 2 ;;
  try_ (on_driver (call EFindShowMore (find_show_more W)) ;;
        shown <- call EIsDisplayed (is_displayed W) ;;
        if shown : bool
        then call EClick (click W) ;; time_sleep 3
        else ret tt)
       (fun _ => true)
       (fun _ => ret tt).

(** Lines 107-155: the body of the [try] of [get_image_urls]. *)
Definition get_image_urls_try (url : str) : M (list str) :=
  on_driver (call (ENavigate url) (fun t => driver_get W t url)) ;;
  time_sleep 3 ;;
  for_each (seq 0 15) scroll_once tt ;;
  call EWaitImgs (wait_for_imgs W) ;;
  image_elements <- on_driver (call EFindImgs (find_imgs W)) ;;
  image_urls <- for_each image_elements collect_img [] ;;
  ret (dict_fromkeys image_urls).

Definition search_url (query : str) : str :=
  let search_query := query ++ lit " Myanmar food" in
  lit "https://www.google.com/search?tbm=isch&q=" ++ search_query.

Definition get_image_urls (query : str) : M (list str) :=
  try_ (get_image_urls_try (search_url query))
       is_Exception
       (fun _ => ret []).

(** The test of lines 181-182 on a response. *)
Definition is_image (response : Response) : bool :=
  let content_type :=
    headers_get (headers response) (lit "content-type") [] in
  Py.contains (lit "image") (Py.lower content_type).

(** Lines 173-188: the body of the [try] of [download_image]. *)
Definition download_image_try (img_url file_path : str) : M bool :=
  response <- call (EFetch img_url) (fun t => requests_get W t img_url) ;;
  lift (raise_for_status response) ;;
  if negb (is_image response)
  then ret false
  else
    call (EOpen file_path) (fun t => open_wb W t file_path) ;;
    modify (put_file file_path []) ;;
    call (EWrite file_path) (fun t => write_bytes W t file_path) ;;
    modify (put_file file_path (content response)) ;;
    ret true.

Definition download_image (img_url file_path : str) : M bool :=
  try_ (download_image_try img_url file_path)
       is_Exception
       (fun _ => ret false).

(** The path a URL at 0-based position [i] is saved under; [None] when
    [urlparse] raises. *)
Definition file_path_for (food_name folder_path : str) (i : nat)
           (img_url : str) : option str :=
  ext ← file_extension (netloc_ok W) img_url;
  Some (OsPath.join folder_path (file_name food_name i ext)).

(** Lines 216-235: the body of the download loop. *)
Definition download_one (food_name folder_path : str)
           (entry : nat * str) (downloaded_count : nat) : M nat :=
  let '(i, img_url) := entry in
  try_ (match file_path_for food_name folder_path i img_url with
        | None => raise ValueError
        | Some file_path =>
            ok <- download_image img_url file_path ;;
            ret (if ok : bool then S downloaded_count else downloaded_count)
        end)
       is_Exception
       (fun _ => ret downloaded_count).

(** Lines 214-237: the download loop; its value is [downloaded_count]. *)
Definition download_all (food_name folder_path : str)
           (image_urls : list str) : M nat :=
  for_each (enumerate 0 (slice_to image_urls (images_per_food self)))
           (download_one food_name folder_path) O.

Definition scrape_food_images (food_name : str) : M unit :=
  folder_path <- create_folder food_name ;;
  image_urls <- get_image_urls food_name ;;
  if negb (bool_decide (image_urls = []))
  then download_all food_name folder_path image_urls ;; ret tt
  else ret tt.

Definition quit_driver : M unit :=
  s <- get_state ;;
  if driver s then call EQuit (driver_quit W) else ret tt.

Definition scrape_all_foods : M unit :=
  call (EMakedirs (base_folder self))
       (fun t => makedirs W t (base_folder self)) ;;
  modify (add_dir (base_folder self)) ;;
  setup_driver ;;
  try_finally
    (try_ (for_each (enumerate 1 (myanmar_foods self))
             (fun '(i, food) _ =>
                scrape_food_images food ;;
                if bool_decide (i < length (myanmar_foods self))%nat
                then time_sleep 5 else ret tt)
             tt)
          (fun e => match e with KeyboardInterrupt => true
                            | _ => is_Exception e end)
          (fun _ => ret tt))
    quit_driver.

Definition scrape_single_food (food_name : str) : M unit :=
  call (EMakedirs (base_folder self))
       (fun t => makedirs W t (base_folder self)) ;;
  modify (add_dir (base_folder self)) ;;
  setup_driver ;;
  try_finally
    (try_ (scrape_food_images food_name) is_Exception (fun _ => ret tt))
    quit_driver.

End Scraper.

(** ** Observations on traces *)

Definition fetched (evs : list event) : list str :=
  omap (fun e => match e with EFetch u => Some u | _ => None end) evs.

Definition opened (evs : list event) : list str :=
  omap (fun e => match e with EOpen p => Some p | _ => None end) evs.

(** The events of the browser session's life cycle. *)
Definition is_session_event (e : event) : bool :=
  match e with ELaunch _ | EQuit => true | _ => false end.

(** The events of a download. *)
Definition is_download_event (e : event) : bool :=
  match e with EFetch _ | EOpen _ | EWrite _ => true | _ => false end.

(** The paths the download loop may write for a list of URLs: position
    [i] of the list gives [file_path_for _ _ _ i]. *)
Definition candidate_paths (W : World) (food_name folder_path : str)
           (start : nat) (urls : list str) : list str :=
  omap (fun '(i, u) => file_path_for W food_name folder_path i u)
       (enumerate start urls).

(** A world in which no call is interrupted: whatever is raised is an
    [Exception]. *)
Definition raises_Exception {A} (o : outcome A) : Prop :=
  match o with Raises e => is_Exception e = true | Returns _ => True end.

Record exceptions_only (W : World) : Prop := {
  eo_get : forall t u, raises_Exception (requests_get W t u);
  eo_open : forall t p, raises_Exception (open_wb W t p);
  eo_write : forall t p, raises_Exception (write_bytes W t p);
  eo_navigate : forall t u, raises_Exception (driver_get W t u);
  eo_script : forall t js, raises_Exception (execute_script W t js);
  eo_wait : forall t, raises_Exception (wait_for_imgs W t);
  eo_sleep : forall t n, raises_Exception (sleep W t n);
  eo_find : forall t, match find_imgs W t with
                      | Returns imgs =>
                          Forall (fun img => raises_Exception (attr_src img)
                                             /\ raises_Exception (attr_data_src img))
                                 imgs
                      | Raises e => is_Exception e = true
                      end
}.

(** ** Sample worlds *)

Definition image_response : Response :=
  {| status_code := 200;
     headers := headers_set (lit "Content-Type") (lit "image/jpeg") no_headers;
     content := [Byte.x01] |}.

Definition html_response : Response :=
  {| status_code := 200;
     headers := headers_set (lit "Content-Type") (lit "text/html") no_headers;
     content := [Byte.x02] |}.

Definition bare_response : Response :=
  {| status_code := 200; headers := no_headers; content := [Byte.x03] |}.

Definition img (u : string) : WebElement :=
  {| attr_src := Returns (Some (lit u)); attr_data_src := Returns None |}.

(** A world in which every call but the look-up of the "show more" button
    succeeds; the page shows [imgs] and [fetch] answers the downloads. *)
Definition calm_world (imgs : list WebElement)
           (fetch : str -> outcome Response) : World :=
  {| makedirs := fun _ _ => Returns tt;
     chrome_launch := fun _ _ => Returns tt;
     driver_get := fun _ _ => Returns tt;
     execute_script := fun _ _ => Returns tt;
     find_show_more := fun _ => Raises WebDriverException;
     is_displayed := fun _ => Returns false;
     click := fun _ => Returns tt;
     wait_for_imgs := fun _ => Returns tt;
     find_imgs := fun _ => Returns imgs;
     driver_quit := fun _ => Returns tt;
     requests_get := fun _ u => fetch u;
     open_wb := fun _ _ => Returns tt;
     write_bytes := fun _ _ => Returns tt;
     sleep := fun _ _ => Returns tt;
     netloc_ok := fun _ => true |}.

Definition fresh : State :=
  {| driver := false; dirs := ∅; files := ∅; trace := [] |}.

Definition five_urls : list str :=
  map lit ["http://h.example/a.png"; "http://h.example/b.png";
           "http://h.example/c.jpeg"; "http://h.example/d.webp";
           "http://h.example/e.jpg"]%string.

(** Five downloads of which the second answers with HTML and the fourth
    fails on the network. *)
Definition three_of_five : World :=
  calm_world []
    (fun u => if bool_decide (u = lit "http://h.example/b.png")
              then Returns html_response
              else if bool_decide (u = lit "http://h.example/d.webp")
                   then Raises RequestException
                   else Returns image_response).

(** ** Relations between the state before and after a run *)

(** A program respects a relation when every run relates the state it
    starts in to the state it ends in, however it ends. *)
Definition respects {A} (R : relation State) (m : M A) : Prop :=
  forall s, R s (m s).2.

(** The trace only grows, by events on which [P] holds. *)
Definition extends_with (P : event -> bool) (s s' : State) : Prop :=
  exists evs, trace s' = trace s ++ evs /\ Forall (fun e => P e = true) evs.

(** The browser session is left alone: [self.driver] keeps its value and
    the browser is neither launched nor closed. *)
Record quiet_session (s s' : State) : Prop := {
  qs_driver : driver s' = driver s;
  qs_trace : extends_with (fun e => negb (is_session_event e)) s s'
}.

(** The disk is left alone and nothing is downloaded. *)
Record quiet_disk (s s' : State) : Prop := {
  qd_files : files s' = files s;
  qd_dirs : dirs s' = dirs s;
  qd_trace : extends_with (fun e => negb (is_download_event e)) s s'
}.

(** What a run owes the browser session, from the state [s] it starts
    in: when the base folder cannot be created nothing is launched; when
    the launch fails its exception leaves the run and nothing is closed;
    when the launch succeeds the run ends with the one and only [quit]. *)
Definition session_discipline (W : World) (self : MyanmarFoodScraper)
           (run : M unit) (s : State) : Prop :=
  let opening := [EMakedirs (base_folder self); ELaunch (headless self)] in
  match makedirs W (length (trace s)) (base_folder self) with
  | Raises e =>
      (run s).1 = Exc e
      /\ trace (run s).2 = trace s ++ [EMakedirs (base_folder self)]
  | Returns _ =>
      match chrome_launch W (S (length (trace s))) (headless self) with
      | Raises e =>
          (run s).1 = Exc e /\ trace (run s).2 = trace s ++ opening
      | Returns _ =>
          exists evs,
            trace (run s).2 = trace s ++ opening ++ evs ++ [EQuit]
            /\ Forall (fun e => is_session_event e = false) evs
      end
  end.

(** A program is guarded when whatever it raises is an [Exception], that
    is, when the only thing that can leave it is a value or an exception an
    [except Exception] clause would catch. *)
Definition guarded {A} (m : M A) : Prop :=
  forall s e, (m s).1 = Exc e -> is_Exception e = true.

(** The URLs of a list that [urlparse] accepts. *)
Definition parsable (W : World) (urls : list str) : list str :=
  List.filter (fun u => bool_decide (is_Some (file_extension (netloc_ok W) u)))
              urls.

(** ** Observations on whole runs *)

(** The folders a run asked [os.makedirs] for, in order. *)
Definition made_dirs (evs : list event) : list str :=
  omap (fun e => match e with EMakedirs p => Some p | _ => None end) evs.

Definition is_makedirs (e : event) : bool :=
  match e with EMakedirs _ => true | _ => false end.

(** The pause between two foods (line 258). *)
Definition is_pause (e : event) : bool :=
  match e with ESleep seconds => seconds =? 5 | _ => false end.

(** The state in which the [try] of [scrape_all_foods] and of
    [scrape_single_food] starts, when the base folder was made and the
    browser launched. *)
Definition started (self : MyanmarFoodScraper) (s : State) : State :=
  set_driver true
    (record (ELaunch (headless self))
       (add_dir (base_folder self)
          (record (EMakedirs (base_folder self)) s))).

(** Lines 252-258: one round of the loop of [scrape_all_foods]. *)
Definition food_round (W : World) (self : MyanmarFoodScraper)
  : nat * str -> unit -> M unit :=
  fun '(i, food) _ =>
    scrape_food_images W self food ;;
    if bool_decide (i < length (myanmar_foods self))%nat
    then time_sleep W 5 else ret tt.

(** The number of such pauses in a run. *)
Definition pauses (evs : list event) : nat :=
  length (List.filter is_pause evs).

(** The [except] clauses of [scrape_all_foods]. *)
Definition all_foods_catches (e : exn) : bool :=
  match e with KeyboardInterrupt => true | _ => is_Exception e end.

(** A world in which the browser is interrupted at the first page. *)
Definition interrupted_world : World :=
  {| makedirs := fun _ _ => Returns tt;
     chrome_launch := fun _ _ => Returns tt;
     driver_get := fun _ _ => Raises KeyboardInterrupt;
     execute_script := fun _ _ => Returns tt;
     find_show_more := fun _ => Raises WebDriverException;
     is_displayed := fun _ => Returns false;
     click := fun _ => Returns tt;
     wait_for_imgs := fun _ => Returns tt;
     find_imgs := fun _ => Returns [];
     driver_quit := fun _ => Returns tt;
     requests_get := fun _ _ => Raises RequestException;
     open_wb := fun _ _ => Returns tt;
     write_bytes := fun _ _ => Returns tt;
     sleep := fun _ _ => Returns tt;
     netloc_ok := fun _ => true |}.

(** ** The command line (lines 298-345)

    [input()] is answered by [stdin]: its n-th call returns [stdin n].
    [print], like the logger, leaves nothing behind in the model. *)

Module Builtins.

(** [str.isspace] on a code point below 256. *)
Definition isspace (c : ascii) : bool :=
  let n := nat_of_ascii c in
  ((9 <=? n)%nat && (n <=? 13)%nat) || ((28 <=? n)%nat && (n <=? 32)%nat)
  || (n =? 133)%nat || (n =? 160)%nat.

(** [s.strip()]. *)
Definition rstrip (s : str) : str :=
  reverse (Py.lstrip isspace (reverse s)).

Definition strip (s : str) : str := rstrip (Py.lstrip isspace s).

(** The white space [int()] skips around a literal: the ASCII white
    space of C, and the white space above 127, which [int()] first
    turns into blanks. *)
Definition int_isspace (c : ascii) : bool :=
  let n := nat_of_ascii c in
  ((9 <=? n)%nat && (n <=? 13)%nat) || (n =? 32)%nat
  || (n =? 133)%nat || (n =? 160)%nat.

Definition digit_value (c : ascii) : Z := Z.of_nat (nat_of_ascii c) - 48.

(** The scan of the digits of a literal: single underscores may stand
    between digits; the scan stops at the first character that is
    neither, and fails on a doubled or on a trailing underscore. *)
Fixpoint scan_digits (s : str) (prev_underscore : bool)
         (digits : list ascii) : option (list ascii * str) :=
  match s with
  | c :: r =>
      if Url.is_digit c then scan_digits r false (digits ++ [c])
      else if Ascii.eqb c "_"
           then if prev_underscore then None else scan_digits r true digits
           else if prev_underscore then None else Some (digits, s)
  | [] => if prev_underscore then None else Some (digits, s)
  end.

Definition value_of (digits : list ascii) : Z :=
  fold_left (fun v c => 10 * v + digit_value c) digits 0.

(** [sys.get_int_max_str_digits()], by default. *)
Definition int_max_str_digits : nat := 4300.

(** [int(s)] for a string; [None] stands for [ValueError]. *)
Definition int (s : str) : option Z :=
  let s := Py.lstrip int_isspace s in
  let '(sign, s) :=
    match s with
    | c :: r => if Ascii.eqb c "+" then (1, r)
                else if Ascii.eqb c "-" then (-1, r) else (1, s)
    | [] => (1, s)
    end in
  if Py.startswith s (lit "_") then None
  else match scan_digits s false [] with
       | None => None
       | Some (digits, rest) =>
           if bool_decide (digits = []) then None
           else if (int_max_str_digits <? length digits)%nat then None
           else if forallb int_isspace rest
                then Some (sign * value_of digits) else None
       end.

(** The characters a string that [int()] accepts is made of. *)
Definition int_char (c : ascii) : bool :=
  int_isspace c || Ascii.eqb c "+" || Ascii.eqb c "-"
  || Url.is_digit c || Ascii.eqb c "_".

(** [f"{i:2d}"] for a number that is not negative. *)
Definition format_2d (i : nat) : str :=
  let digits := Py.str_of_nat i in
  replicate (2 - length digits) " "%char ++ digits.

End Builtins.

(** Line 324: the menu line of the food at 0-based position [k]. *)
Definition menu_label (k : nat) : str := Builtins.format_2d (k + 1).

(** Lines 328-338: the food an answer selects; [None] when the answer is
    a number outside the menu. *)
Definition select_food (myanmar_foods : list str) (food_choice : str)
  : option str :=
  match Builtins.int food_choice with
  | Some n =>
      let food_index := n - 1 in
      if (0 <=? food_index) && (food_index <? Z.of_nat (length myanmar_foods))
      then myanmar_foods !! Z.to_nat food_index
      else None
  | None => Some (Py.lower food_choice)
  end.

Definition main (W : World) (stdin : nat -> str) : M unit :=
  let scraper := init false 30 in
  let choice := Builtins.strip (stdin O) in
  if bool_decide (choice = lit "1") then scrape_all_foods W scraper
  else if bool_decide (choice = lit "2") then
    let food_choice := Builtins.strip (stdin 1%nat) in
    match select_food (myanmar_foods scraper) food_choice with
    | Some selected_food => scrape_single_food W scraper selected_food
    | None => ret tt
    end
  else ret tt.

(** ** What a page yields *)

(** The URLs one [<img>] element adds to the list when both of its
    attributes can be read (lines 140-149). *)
Definition img_urls (img : WebElement) : list str :=
  match attr_src img, attr_data_src img with
  | Returns src, Returns data_src => keep_url (url_to_use src data_src)
  | _, _ => []
  end.

Definition readable (img : WebElement) : Prop :=
  exists src data_src,
    attr_src img = Returns src /\ attr_data_src img = Returns data_src.

(** A browser that answers every call of the search, showing the
    elements [imgs]; the "Show more results" button may behave in any
    way. *)
Record page_shows (W : World) (imgs : list WebElement) : Prop := {
  ps_get : forall t u, driver_get W t u = Returns tt;
  ps_sleep : forall t n, sleep W t n = Returns tt;
  ps_script : forall t js, execute_script W t js = Returns tt;
  ps_wait : forall t, wait_for_imgs W t = Returns tt;
  ps_find : forall t, find_imgs W t = Returns imgs;
  ps_readable : Forall readable imgs
}.

(** ** Observations on a search *)

(** The pages a run navigated to. *)
Definition navigated (evs : list event) : list str :=
  omap (fun e => match e with ENavigate u => Some u | _ => None end) evs.

(** The number of scripts a run executed. *)
Definition scrolls (evs : list event) : nat :=
  length (omap (fun e => match e with EScript js => Some js | _ => None end)
               evs).

(** The seconds a run asked [time.sleep] for. *)
Definition slept (evs : list event) : Z :=
  foldr (fun e total => match e with
                        | ESleep seconds => seconds + total
                        | _ => total
                        end) 0 evs.

(** * Properties *)

(** ** Deduplication *)

Section Dedup.

Implicit Types (d l r : list str) (k x : str).

Lemma setkeys_cons d k l :
  fold_left dict_setkey (k :: l) d = fold_left dict_setkey l (dict_setkey d k).
Proof. reflexivity. Qed.

(** Folding keys into a dictionary appends a subsequence of the keys:
    exactly those that are new, each once. *)
Lemma setkeys_spec l : forall d,
  exists r, fold_left dict_setkey l d = d ++ r
            /\ sublist r l
            /\ (NoDup d -> NoDup (d ++ r))
            /\ (forall x, x ∈ r <-> x ∈ l /\ x ∉ d).
Proof.
  induction l as [|k l IH]; intros d.
  - exists []. rewrite app_nil_r.
    split; [done|]. split; [done|]. split; [done|].
    intros x. split; [intros H|intros [H _]]; inversion H.
  - rewrite setkeys_cons. unfold dict_setkey at 2.
    case_bool_decide as Hk.
    + destruct (IH d) as (r & -> & Hsub & Hnd & Hin).
      exists r. split; [done|]. split; [by apply sublist_cons|].
      split; [done|].
      intros x. rewrite Hin, elem_of_cons. split; [tauto|].
      intros [[->|Hx] Hd]; done.
    + destruct (IH (d ++ [k])) as (r & -> & Hsub & Hnd & Hin).
      exists (k :: r). rewrite <- app_assoc.
      split; [done|]. split; [by apply sublist_skip|]. split.
      * intros Hd. rewrite cons_middle, app_assoc. apply Hnd.
        apply NoDup_app. split; [done|]. split; [|apply NoDup_singleton].
        intros y Hy ->%list_elem_of_singleton. done.
      * intros x. rewrite !elem_of_cons, Hin, elem_of_app, list_elem_of_singleton.
        destruct (decide (x = k)) as [->|Hne]; tauto.
Qed.

(** A list without repetition, disjoint from the dictionary, is appended
    as it is. *)
Lemma setkeys_nodup l : forall d,
  NoDup l -> (forall x, x ∈ l -> x ∉ d) ->
  fold_left dict_setkey l d = d ++ l.
Proof.
  induction l as [|k l IH]; intros d Hnd Hdis.
  - by rewrite app_nil_r.
  - rewrite setkeys_cons. unfold dict_setkey at 2.
    apply NoDup_cons in Hnd as [Hk Hnd].
    rewrite bool_decide_eq_false_2 by (apply Hdis; left).
    rewrite IH, <- app_assoc; [done|done|].
    intros x Hx Hd. apply elem_of_app in Hd as [Hd|Hd].
    + apply (Hdis x); [by right|done].
    + apply list_elem_of_singleton in Hd. by subst.
Qed.

Lemma fromkeys_elem_of l x : x ∈ dict_fromkeys l <-> x ∈ l.
Proof.
  unfold dict_fromkeys. destruct (setkeys_spec l []) as (r & -> & _ & _ & Hin).
  rewrite app_nil_l, Hin. split; [tauto|].
  intros H. split; [done|]. intros H'. inversion H'.
Qed.

Lemma fromkeys_NoDup l : NoDup (dict_fromkeys l).
Proof.
  unfold dict_fromkeys. destruct (setkeys_spec l []) as (r & -> & _ & Hnd & _).
  apply Hnd, NoDup_nil_2.
Qed.

End Dedup.

(** C3.  The deduplication of [get_image_urls] returns a subsequence of
    the discovered URLs in which no URL occurs twice and every discovered
    URL occurs; a URL first seen after a prefix of the list is placed right
    after the deduplicated prefix (order of first appearance); and
    deduplicating the result again changes nothing. *)
Theorem dict_fromkeys_dedup (l : list str) :
  sublist (dict_fromkeys l) l
  /\ NoDup (dict_fromkeys l)
  /\ (forall x, x ∈ dict_fromkeys l <-> x ∈ l)
  /\ (forall l1 x l2, l = l1 ++ x :: l2 -> x ∉ l1 ->
       exists r, dict_fromkeys l = dict_fromkeys l1 ++ x :: r)
  /\ dict_fromkeys (dict_fromkeys l) = dict_fromkeys l.
Proof.
  repeat split.
  - unfold dict_fromkeys.
    destruct (setkeys_spec l []) as (r & -> & Hsub & _). by rewrite app_nil_l.
  - apply fromkeys_NoDup.
  - apply fromkeys_elem_of.
  - apply fromkeys_elem_of.
  - intros l1 x l2 -> Hx. unfold dict_fromkeys.
    rewrite fold_left_app, setkeys_cons. fold (dict_fromkeys l1).
    unfold dict_setkey at 2.
    rewrite bool_decide_eq_false_2 by (by rewrite fromkeys_elem_of).
    destruct (setkeys_spec l2 (dict_fromkeys l1 ++ [x])) as (r & -> & _).
    exists r. by rewrite <- app_assoc.
  - unfold dict_fromkeys at 1.
    rewrite setkeys_nodup; [done|apply fromkeys_NoDup|].
    intros x _ H. inversion H.
Qed.

(** The deduplication on a list with a repeated URL. *)
Lemma dict_fromkeys_dedup_witness :
  let l := map lit ["http://a"; "http://b"; "http://a"; "http://c"]%string in
  dict_fromkeys l = map lit ["http://a"; "http://b"; "http://c"]%string
  /\ exists r, dict_fromkeys l = dict_fromkeys (map lit ["http://a"])%string
                                 ++ lit "http://b" :: r.
Proof.
  split; [reflexivity|].
  apply (proj1 (proj2 (proj2 (proj2
          (dict_fromkeys_dedup
             (map lit ["http://a"; "http://b"; "http://a"; "http://c"]%string)))))
         (map lit ["http://a"]%string) (lit "http://b")
         (map lit ["http://a"; "http://c"]%string)).
  - reflexivity.
  - vm_compute. intros H. apply list_elem_of_In in H. simpl in H.
    destruct H as [H|[]]. discriminate H.
Defined.

(** ** Running programs *)

Section Respects.

Context (R : relation State) `{!PreOrder R}.

Lemma respects_ret {A} (a : A) : respects R (ret a).
Proof. intros s. reflexivity. Qed.

Lemma respects_raise {A} e : respects R (@raise A e).
Proof. intros s. reflexivity. Qed.

Lemma respects_get_state : respects R get_state.
Proof. intros s. reflexivity. Qed.

Lemma respects_lift {A} (o : outcome A) : respects R (lift o).
Proof. destruct o; [apply respects_ret|apply respects_raise]. Qed.

Lemma respects_bind {A B} (m : M A) (k : A -> M B) :
  respects R m -> (forall a, respects R (k a)) -> respects R (bind m k).
Proof.
  intros Hm Hk s. unfold bind. specialize (Hm s).
  destruct (m s) as [[a|e] s']; simpl in *; [|done].
  etransitivity; [exact Hm|apply Hk].
Qed.

Lemma respects_try {A} (m : M A) catches h :
  respects R m -> (forall e, respects R (h e)) -> respects R (try_ m catches h).
Proof.
  intros Hm Hh s. unfold try_. specialize (Hm s).
  destruct (m s) as [[a|e] s']; simpl in *; [done|].
  destruct (catches e); [|done].
  etransitivity; [exact Hm|apply Hh].
Qed.

Lemma respects_finally {A} (m : M A) f :
  respects R m -> respects R f -> respects R (try_finally m f).
Proof.
  intros Hm Hf s. unfold try_finally. specialize (Hm s).
  destruct (m s) as [r s']. specialize (Hf s').
  destruct (f s') as [[[]|e] s'']; simpl in *; etransitivity; eauto.
Qed.

Lemma respects_for_each {A B} (l : list A) (body : A -> B -> M B) :
  (forall x acc, respects R (body x acc)) ->
  forall acc, respects R (for_each l body acc).
Proof.
  intros Hbody. induction l as [|x l IH]; intros acc; simpl.
  - apply respects_ret.
  - apply respects_bind; [apply Hbody|apply IH].
Qed.

Lemma respects_call {A} e (answer : nat -> outcome A) :
  (forall s, R s (record e s)) -> respects R (call e answer).
Proof.
  intros He s. unfold call. destruct (answer _); apply He.
Qed.

Lemma respects_modify f : (forall s, R s (f s)) -> respects R (modify f).
Proof. intros Hf s. apply Hf. Qed.

Lemma respects_on_driver {A} (m : M A) :
  respects R m -> respects R (on_driver m).
Proof.
  intros Hm s. unfold on_driver. destruct (driver s); [apply Hm|reflexivity].
Qed.

End Respects.

Section Guarded.

Lemma guarded_ret {A} (a : A) : guarded (ret a).
Proof. intros s e H. discriminate H. Qed.

Lemma guarded_raise {A} e : is_Exception e = true -> guarded (@raise A e).
Proof. intros He s e' H. by inversion H; subst. Qed.

Lemma guarded_lift {A} (o : outcome A) : raises_Exception o -> guarded (lift o).
Proof. destruct o; [intros _; apply guarded_ret|apply guarded_raise]. Qed.

Lemma guarded_modify f : guarded (modify f).
Proof. intros s e H. discriminate H. Qed.

Lemma guarded_bind {A B} (m : M A) (k : A -> M B) :
  guarded m -> (forall a, guarded (k a)) -> guarded (bind m k).
Proof.
  intros Hm Hk s e. unfold bind. specialize (Hm s).
  destruct (m s) as [[a|e'] s']; simpl in *.
  - apply Hk.
  - intros H. inversion H; subst. by apply Hm.
Qed.

(** A [bind] whose continuation is guarded on the values the first part
    can return. *)
Lemma guarded_bind_on {A B} (Q : A -> Prop) (m : M A) (k : A -> M B) :
  guarded m -> (forall s a, (m s).1 = Val a -> Q a) ->
  (forall a, Q a -> guarded (k a)) -> guarded (bind m k).
Proof.
  intros Hm HQ Hk s e. unfold bind. specialize (Hm s). specialize (HQ s).
  destruct (m s) as [[a|e'] s']; simpl in *.
  - apply Hk. by apply HQ.
  - intros H. inversion H; subst. by apply Hm.
Qed.

Lemma guarded_try {A} (m : M A) catches h :
  guarded m -> (forall e, guarded (h e)) -> guarded (try_ m catches h).
Proof.
  intros Hm Hh s e. unfold try_. specialize (Hm s).
  destruct (m s) as [[a|e'] s']; simpl in *; [done|].
  destruct (catches e').
  - apply Hh.
  - intros H. inversion H; subst. by apply Hm.
Qed.

(** A bare [except] lets nothing through but what its handler raises. *)
Lemma guarded_try_all {A} (m : M A) h :
  (forall e, guarded (h e)) -> guarded (try_ m (fun _ => true) h).
Proof.
  intros Hh s e. unfold try_.
  destruct (m s) as [[a|e'] s']; simpl; [done|apply Hh].
Qed.

Lemma guarded_for_each {A B} (Q : A -> Prop) (l : list A)
      (body : A -> B -> M B) :
  Forall Q l -> (forall x acc, Q x -> guarded (body x acc)) ->
  forall acc, guarded (for_each l body acc).
Proof.
  intros Hl Hbody. induction Hl as [|x l Hx Hl IH]; intros acc; simpl.
  - apply guarded_ret.
  - apply guarded_bind; [by apply Hbody|apply IH].
Qed.

Lemma guarded_call {A} ev (answer : nat -> outcome A) :
  (forall t, raises_Exception (answer t)) -> guarded (call ev answer).
Proof.
  intros Hans s e. unfold call. specialize (Hans (length (trace s))).
  destruct (answer _); simpl; [done|].
  intros H. by inversion H; subst.
Qed.

Lemma guarded_on_driver {A} (m : M A) : guarded m -> guarded (on_driver m).
Proof.
  intros Hm s e. unfold on_driver. destruct (driver s); [apply Hm|].
  intros H. by inversion H.
Qed.

(** Behind [except Exception], a guarded program always returns. *)
Lemma try_guarded_returns {A} (m : M A) (h : exn -> M A) (a0 : A) s :
  guarded m -> (forall e, h e = ret a0) ->
  exists a, (try_ m is_Exception h s).1 = Val a
            /\ (forall e, (m s).1 = Exc e -> a = a0).
Proof.
  intros Hm Hh. unfold try_. specialize (Hm s).
  destruct (m s) as [[a|e] s']; simpl in *.
  - exists a. split; [done|]. intros e H. discriminate H.
  - rewrite (Hm e eq_refl), Hh. exists a0. by split.
Qed.

End Guarded.

Global Instance extends_with_preorder P : PreOrder (extends_with P).
Proof.
  split.
  - intros s. exists []. by rewrite app_nil_r.
  - intros s1 s2 s3 (evs1 & H1 & HP1) (evs2 & H2 & HP2).
    exists (evs1 ++ evs2). rewrite H2, H1, app_assoc. split; [done|].
    by apply Forall_app.
Qed.

Global Instance quiet_session_preorder : PreOrder quiet_session.
Proof.
  split.
  - intros s. split; [done|reflexivity].
  - intros s1 s2 s3 [Hd1 Ht1] [Hd2 Ht2]. split; [congruence|].
    etransitivity; eauto.
Qed.

Global Instance quiet_disk_preorder : PreOrder quiet_disk.
Proof.
  split.
  - intros s. split; [done|done|reflexivity].
  - intros s1 s2 s3 [Hf1 Hd1 Ht1] [Hf2 Hd2 Ht2].
    split; [congruence|congruence|]. etransitivity; eauto.
Qed.

Lemma extends_with_record (P : event -> bool) e s :
  P e = true -> extends_with P s (record e s).
Proof. intros He. exists [e]. split; [done|]. by apply Forall_singleton. Qed.

Lemma extends_with_same_trace (P : event -> bool) s s' :
  trace s' = trace s -> extends_with P s s'.
Proof. intros H. exists []. by rewrite app_nil_r. Qed.

Lemma quiet_session_record e s :
  is_session_event e = false -> quiet_session s (record e s).
Proof.
  intros He. split; [done|]. apply extends_with_record. by rewrite He.
Qed.

Lemma quiet_disk_record e s :
  is_download_event e = false -> quiet_disk s (record e s).
Proof.
  intros He. split; [done|done|]. apply extends_with_record. by rewrite He.
Qed.

(** Decomposes a program into its calls and state updates. *)
Ltac respects_step :=
  lazymatch goal with
  | |- PreOrder _ => tc_solve
  | |- respects _ (ret _) => apply respects_ret
  | |- respects _ (raise _) => apply respects_raise
  | |- respects _ get_state => apply respects_get_state
  | |- respects _ (lift _) => apply respects_lift
  | |- respects _ (bind _ _) => apply respects_bind; [..|intros ?]
  | |- respects _ (try_ _ _ _) => apply respects_try; [..|intros ?]
  | |- respects _ (try_finally _ _) => apply respects_finally
  | |- respects _ (for_each _ _ _) => apply respects_for_each; [..|intros ? ?]
  | |- respects _ (on_driver _) => apply respects_on_driver
  | |- respects _ (call _ _) => apply respects_call; [..|intros ?]
  | |- respects _ (modify _) => apply respects_modify; [..|intros ?]
  | |- respects _ (if ?b then _ else _) => destruct b
  | |- respects _ (match ?x with _ => _ end) => destruct x
  end.

Ltac respects_auto := repeat respects_step.

Ltac quiet_side :=
  first [ by apply quiet_session_record
        | by apply quiet_disk_record
        | by (split; [done..|by apply extends_with_same_trace]) ].

Section ScraperFacts.

Variable W : World.
Variable self : MyanmarFoodScraper.

(** *** Collecting URLs touches neither the session nor the disk *)

Lemma get_image_urls_try_quiet_session url :
  respects quiet_session (get_image_urls_try W url).
Proof.
  unfold get_image_urls_try, scroll_once, collect_img, time_sleep.
  respects_auto; quiet_side.
Qed.

Lemma get_image_urls_try_quiet_disk url :
  respects quiet_disk (get_image_urls_try W url).
Proof.
  unfold get_image_urls_try, scroll_once, collect_img, time_sleep.
  respects_auto; quiet_side.
Qed.

Lemma get_image_urls_quiet_session query :
  respects quiet_session (get_image_urls W query).
Proof.
  unfold get_image_urls.
  respects_auto. apply get_image_urls_try_quiet_session.
Qed.

Lemma get_image_urls_quiet_disk query :
  respects quiet_disk (get_image_urls W query).
Proof.
  unfold get_image_urls.
  respects_auto. apply get_image_urls_try_quiet_disk.
Qed.

(** *** Downloading leaves the session alone *)

Lemma download_image_quiet_session u p :
  respects quiet_session (download_image W u p).
Proof.
  unfold download_image, download_image_try.
  respects_auto; quiet_side.
Qed.

Lemma download_all_quiet_session food folder urls :
  respects quiet_session (download_all W self food folder urls).
Proof.
  unfold download_all, download_one.
  respects_auto; try quiet_side. apply download_image_quiet_session.
Qed.

Lemma scrape_food_images_quiet_session food :
  respects quiet_session (scrape_food_images W self food).
Proof.
  unfold scrape_food_images, create_folder.
  respects_auto; try quiet_side.
  - apply get_image_urls_quiet_session.
  - apply download_all_quiet_session.
Qed.

(** *** One download *)

Lemma download_image_fetch_fails u p s e :
  requests_get W (length (trace s)) u = Raises e ->
  download_image W u p s
  = (if is_Exception e then Val false else Exc e, record (EFetch u) s).
Proof.
  intros Hget. cbv [download_image download_image_try try_ bind call].
  rewrite Hget. by destruct (is_Exception e).
Qed.

Lemma download_image_rejects u p s response :
  requests_get W (length (trace s)) u = Returns response ->
  raise_for_status response = Raises HTTPError \/ is_image response = false ->
  download_image W u p s = (Val false, record (EFetch u) s).
Proof.
  intros Hget Hbad.
  cbv [download_image download_image_try try_ bind call lift].
  rewrite Hget.
  destruct (raise_for_status response) as [[]|e] eqn:Hst.
  - destruct Hbad as [?|Himg]; [done|]. by rewrite Himg.
  - unfold raise_for_status in Hst.
    destruct (_ && _); [|done]. by inversion Hst.
Qed.

Lemma download_image_saves u p s response :
  requests_get W (length (trace s)) u = Returns response ->
  raise_for_status response = Returns tt ->
  is_image response = true ->
  open_wb W (S (length (trace s))) p = Returns tt ->
  write_bytes W (S (S (length (trace s)))) p = Returns tt ->
  download_image W u p s
  = (Val true,
     put_file p (content response)
       (record (EWrite p)
          (put_file p [] (record (EOpen p) (record (EFetch u) s))))).
Proof.
  intros Hget Hst Himg Hopen Hwrite.
  cbv [download_image download_image_try try_ bind call lift modify].
  rewrite Hget, Hst, Himg. simpl.
  rewrite length_app, Nat.add_1_r. simpl. rewrite Hopen. simpl.
  rewrite !length_app, !Nat.add_1_r. simpl. by rewrite Hwrite.
Qed.

(** The disk changes only for an accepted image response. *)
Lemma download_image_touches_disk u p s :
  files (download_image W u p s).2 <> files s ->
  exists response,
    requests_get W (length (trace s)) u = Returns response
    /\ raise_for_status response = Returns tt
    /\ is_image response = true.
Proof.
  intros Hfiles.
  destruct (requests_get W (length (trace s)) u) as [response|e] eqn:Hget.
  - exists response. split; [done|].
    destruct (raise_for_status response) as [[]|e] eqn:Hst.
    + split; [done|]. destruct (is_image response) eqn:Himg; [done|].
      rewrite (download_image_rejects u p s response) in Hfiles; auto.
    + rewrite (download_image_rejects u p s response) in Hfiles; [done|done|].
      left. unfold raise_for_status in *.
      destruct (_ && _); [done|]. discriminate.
  - by rewrite (download_image_fetch_fails u p s e) in Hfiles.
Qed.

(** The calls of one download, and the files it can touch. *)
Lemma download_image_trace u p s :
  exists evs,
    trace (download_image W u p s).2 = trace s ++ EFetch u :: evs
    /\ (evs = [] \/ evs = [EOpen p] \/ evs = [EOpen p; EWrite p])
    /\ (forall q, q <> p -> files (download_image W u p s).2 !! q = files s !! q)
    /\ (evs = [] -> files (download_image W u p s).2 = files s).
Proof.
  cbv [download_image download_image_try try_ bind call lift modify ret raise].
  destruct (requests_get W _ u) as [response|e]; simpl.
  2:{ exists []. destruct (is_Exception e); simpl; auto. }
  destruct (raise_for_status response) as [[]|e]; simpl.
  2:{ exists []. destruct (is_Exception e); simpl; auto. }
  destruct (is_image response); simpl.
  2:{ exists []. simpl; auto. }
  destruct (open_wb W _ p) as [[]|e]; simpl.
  2:{ exists [EOpen p]. destruct (is_Exception e); simpl; rewrite <- app_assoc; split; auto.
      all: split; [auto|]; split; [auto|]; discriminate. }
  destruct (write_bytes W _ p) as [[]|e]; simpl.
  - exists [EOpen p; EWrite p]. rewrite <- !app_assoc. split; [done|]. split; [auto|].
    split; [|discriminate]. intros q Hq. by rewrite !lookup_insert_ne.
  - exists [EOpen p; EWrite p]. destruct (is_Exception e); simpl; rewrite <- !app_assoc.
    all: split; [done|]; split; [auto|]; split; [|discriminate].
    all: intros q Hq; by rewrite !lookup_insert_ne.
Qed.

(** *** The browser session *)

(** The shape shared by [scrape_all_foods] and [scrape_single_food]. *)
Lemma session_run (body : M unit) catches s :
  respects quiet_session body ->
  session_discipline W self
    (call (EMakedirs (base_folder self))
          (fun t => makedirs W t (base_folder self)) ;;
     modify (add_dir (base_folder self)) ;;
     setup_driver W self ;;
     try_finally (try_ body catches (fun _ => ret tt)) (quit_driver W)) s.
Proof.
  intros Hbody. unfold session_discipline.
  assert (Hq : respects quiet_session
                 (try_ body catches (fun _ : exn => ret tt))).
  { respects_auto. exact Hbody. }
  destruct (makedirs W (length (trace s)) (base_folder self))
    as [[]|e] eqn:Hmk.
  - destruct (chrome_launch W (S (length (trace s))) (headless self))
      as [[]|e] eqn:Hlaunch.
    + cbv [bind call modify setup_driver try_]. rewrite Hmk. simpl.
      rewrite length_app, Nat.add_1_r. simpl. rewrite Hlaunch. simpl.
      change (fun s0 : State => _)
        with (try_ body catches (fun _ : exn => ret tt)).
      set (s2 := set_driver true _).
      unfold try_finally. specialize (Hq s2).
      destruct (try_ body catches _ s2) as [r s3]. simpl in Hq.
      destruct Hq as [Hdrv (evs & Htr & Hevs)].
      unfold quit_driver, bind, get_state, call. rewrite Hdrv. simpl.
      exists evs. split.
      * destruct (driver_quit W _) as [[]|e]; simpl; rewrite Htr; simpl;
          by rewrite <- !app_assoc.
      * eapply Forall_impl; [exact Hevs|]. intros e He. simpl in He.
        by destruct (is_session_event e).
    + cbv [bind call modify setup_driver try_]. rewrite Hmk. simpl.
      rewrite length_app, Nat.add_1_r. simpl. rewrite Hlaunch. simpl.
      destruct (is_Exception e); simpl; by rewrite <- app_assoc.
  - unfold bind, call. by rewrite Hmk.
Qed.

(** *** Errors that stay inside *)

Lemma get_image_urls_try_guarded url :
  exceptions_only W -> guarded (get_image_urls_try W url).
Proof.
  intros HW. unfold get_image_urls_try, time_sleep.
  apply guarded_bind;
    [apply guarded_on_driver, guarded_call; intros t; apply (eo_navigate W HW)|].
  intros _. apply guarded_bind; [apply guarded_call; intros t; apply (eo_sleep W HW)|].
  intros _. apply guarded_bind.
  { apply (guarded_for_each (fun _ => True)); [by apply Forall_true|].
    intros i [] _. unfold scroll_once, time_sleep.
    apply guarded_bind;
      [apply guarded_on_driver, guarded_call; intros t; apply (eo_script W HW)|].
    intros _. apply guarded_bind; [apply guarded_call; intros t; apply (eo_sleep W HW)|].
    intros _. apply guarded_try_all. intros e. apply guarded_ret. }
  intros _. apply guarded_bind; [apply guarded_call; intros t; apply (eo_wait W HW)|].
  intros _.
  apply (guarded_bind_on
           (Forall (fun img => raises_Exception (attr_src img)
                               /\ raises_Exception (attr_data_src img)))).
  - apply guarded_on_driver, guarded_call. intros t.
    pose proof (eo_find W HW t) as H. by destruct (find_imgs W t).
  - intros s imgs. unfold on_driver, call.
    pose proof (eo_find W HW (length (trace s))) as H.
    destruct (driver s); [|done].
    destruct (find_imgs W _); simpl; [|done]. intros Heq. by inversion Heq; subst.
  - intros imgs Himgs. apply guarded_bind; [|intros; apply guarded_ret].
    apply (guarded_for_each _ _ _ Himgs). intros img acc [Hsrc Hdata].
    unfold collect_img.
    apply guarded_bind; [by apply guarded_call|]. intros src.
    apply guarded_bind; [by apply guarded_call|]. intros data_src.
    apply guarded_ret.
Qed.

Lemma download_image_try_guarded u p :
  exceptions_only W -> guarded (download_image_try W u p).
Proof.
  intros HW. unfold download_image_try.
  apply guarded_bind; [apply guarded_call; intros t; apply (eo_get W HW)|].
  intros response. apply guarded_bind.
  { apply guarded_lift. unfold raise_for_status. by destruct (_ && _). }
  intros _. destruct (negb _); [apply guarded_ret|].
  apply guarded_bind; [apply guarded_call; intros t; apply (eo_open W HW)|].
  intros _. apply guarded_bind; [apply guarded_modify|].
  intros _. apply guarded_bind;
    [apply guarded_call; intros t; apply (eo_write W HW)|].
  intros _. apply guarded_bind; [apply guarded_modify|].
  intros _. apply guarded_ret.
Qed.

(** *** The download loop *)

Lemma fetched_app a b : fetched (a ++ b) = fetched a ++ fetched b.
Proof. apply omap_app. Qed.

Lemma opened_app a b : opened (a ++ b) = opened a ++ opened b.
Proof. apply omap_app. Qed.

Lemma parsable_cons u l : parsable W (u :: l) = parsable W [u] ++ parsable W l.
Proof. unfold parsable. simpl. by destruct (bool_decide _). Qed.

Lemma parsable_sublist l : sublist (parsable W l) l.
Proof.
  induction l as [|u l IH]; [done|]. unfold parsable in *. simpl.
  destruct (bool_decide _); [by apply sublist_skip|by apply sublist_cons].
Qed.

Lemma candidate_paths_cons food folder start u l :
  candidate_paths W food folder start (u :: l)
  = candidate_paths W food folder start [u]
    ++ candidate_paths W food folder (S start) l.
Proof.
  unfold candidate_paths. simpl. by destruct (file_path_for _ _ _ _ _).
Qed.

Lemma file_path_for_parsable food folder i u :
  is_Some (file_path_for W food folder i u)
  <-> is_Some (file_extension (netloc_ok W) u).
Proof.
  unfold file_path_for. destruct (file_extension _ u); simpl.
  - split; eauto.
  - split; intros [? H]; discriminate H.
Qed.

(** One round of the loop: the URL is fetched exactly when it parses, the
    only file that can change is the one named after the position of the
    URL, and the count so far plays no part in it. *)
Lemma download_one_trace food folder i u c s :
  exists evs,
    trace (download_one W food folder (i, u) c s).2 = trace s ++ evs
    /\ fetched evs = parsable W [u]
    /\ sublist (opened evs) (candidate_paths W food folder i [u])
    /\ (forall q, files (download_one W food folder (i, u) c s).2 !! q
                  <> files s !! q -> q ∈ opened evs).
Proof.
  unfold download_one, candidate_paths, parsable. simpl.
  pose proof (file_path_for_parsable food folder i u) as Hparse.
  destruct (file_path_for W food folder i u) as [p|] eqn:Hp.
  - rewrite bool_decide_eq_true_2 by (apply Hparse; eauto).
    destruct (download_image_trace u p s) as (evs & Htr & Hevs & Hother & Hnone).
    assert (Hst : (try_ (bind (download_image W u p)
                           (fun ok : bool => ret (if ok then S c else c)))
                        is_Exception (fun _ => ret c) s).2
                  = (download_image W u p s).2).
    { unfold try_, bind, ret. destruct (download_image W u p s) as [[ok|e] s'];
        simpl; [done|]. by destruct (is_Exception e). }
    rewrite Hst. exists (EFetch u :: evs). split; [done|].
    destruct Hevs as [->|[->| ->]]; simpl.
    + split; [done|]. split; [apply sublist_nil_l|].
      intros q Hq. by rewrite Hnone in Hq.
    + split; [done|]. split; [done|].
      intros q Hq. destruct (decide (q = p)) as [->|Hne]; [left|].
      by rewrite Hother in Hq.
    + split; [done|]. split; [done|].
      intros q Hq. destruct (decide (q = p)) as [->|Hne]; [left|].
      by rewrite Hother in Hq.
  - rewrite bool_decide_eq_false_2
      by (intros H; apply Hparse in H; destruct H as [? H]; discriminate H).
    exists []. simpl. rewrite app_nil_r. repeat split; try done.
Qed.

Lemma for_each_cons_run {A B} (x : A) l (body : A -> B -> M B) acc s :
  for_each (x :: l) body acc s
  = match body x acc s with
    | (Val a, s') => for_each l body a s'
    | (Exc e, s') => (Exc e, s')
    end.
Proof. reflexivity. Qed.

(** The loop over [enumerate(urls)], however it ends. *)
Lemma download_loop_trace food folder l : forall start c s,
  exists evs,
    trace (for_each (enumerate start l) (download_one W food folder) c s).2
    = trace s ++ evs
    /\ sublist (fetched evs) (parsable W l)
    /\ sublist (opened evs) (candidate_paths W food folder start l)
    /\ (forall q,
          files (for_each (enumerate start l)
                   (download_one W food folder) c s).2 !! q
          <> files s !! q -> q ∈ opened evs).
Proof.
  induction l as [|u l IH]; intros start c s.
  - exists []. simpl. rewrite app_nil_r. repeat split; try done.
  - rewrite parsable_cons, candidate_paths_cons.
    change (enumerate start (u :: l))
      with ((start, u) :: enumerate (S start) l).
    rewrite for_each_cons_run.
    destruct (download_one_trace food folder start u c s)
      as (evs1 & Htr1 & Hf1 & Ho1 & Hfiles1).
    destruct (download_one W food folder (start, u) c s) as [[c'|e] s1];
      cbn [fst snd] in *.
    + destruct (IH (S start) c' s1) as (evs2 & Htr2 & Hf2 & Ho2 & Hfiles2).
      exists (evs1 ++ evs2). rewrite Htr2, Htr1, app_assoc.
      split; [done|]. rewrite fetched_app, opened_app, Hf1.
      split; [by apply sublist_app|]. split; [by apply sublist_app|].
      intros q Hq. apply elem_of_app.
      destruct (decide (q ∈ opened evs1)) as [Hin|Hnin]; [by left|right].
      apply Hfiles2. intros Heq. apply Hnin, Hfiles1. by rewrite <- Heq.
    + exists evs1. split; [done|]. rewrite Hf1.
      split; [apply sublist_inserts_r; done|].
      split; [by apply sublist_inserts_r|]. done.
Qed.

(** Without interrupts the loop runs to its end: every URL that parses is
    fetched, in order, whatever became of the downloads before it. *)
Lemma download_loop_completes food folder l :
  exceptions_only W -> forall start c s,
  exists c' evs,
    (for_each (enumerate start l) (download_one W food folder) c s).1 = Val c'
    /\ trace (for_each (enumerate start l)
                (download_one W food folder) c s).2 = trace s ++ evs
    /\ fetched evs = parsable W l.
Proof.
  intros HW. induction l as [|u l IH]; intros start c s.
  - exists c, []. simpl. by rewrite app_nil_r.
  - rewrite parsable_cons.
    change (enumerate start (u :: l))
      with ((start, u) :: enumerate (S start) l).
    rewrite for_each_cons_run.
    destruct (download_one_trace food folder start u c s)
      as (evs1 & Htr1 & Hf1 & _).
    assert (Hret : exists c', (download_one W food folder (start, u) c s).1
                              = Val c').
    { unfold download_one.
      destruct (file_path_for W food folder start u) as [p|].
      - destruct (try_guarded_returns
                    (bind (download_image W u p)
                       (fun ok : bool => ret (if ok then S c else c)))
                    (fun _ => ret c) c s) as (c' & Hc' & _); [|done|eauto].
        apply guarded_bind; [|intros; apply guarded_ret].
        unfold download_image. apply guarded_try.
        + by apply download_image_try_guarded.
        + intros. apply guarded_ret.
      - exists c. reflexivity. }
    destruct Hret as [c1 Hc1].
    destruct (download_one W food folder (start, u) c s) as [r s1];
      cbn [fst snd] in *. subst r.
    destruct (IH (S start) c1 s1) as (c' & evs2 & Hres & Htr2 & Hf2).
    exists c', (evs1 ++ evs2). split; [done|].
    rewrite Htr2, Htr1, app_assoc, fetched_app, Hf1, Hf2. done.
Qed.

Lemma candidate_paths_length food folder l : forall start,
  (length (candidate_paths W food folder start l) <= length l)%nat.
Proof.
  induction l as [|u l IH]; intros start; [done|].
  rewrite candidate_paths_cons, length_app. specialize (IH (S start)).
  unfold candidate_paths at 1. simpl.
  destruct (file_path_for _ _ _ _ _); simpl; lia.
Qed.

(** Every candidate path is the name built from a URL of the list and from
    its position. *)
Lemma candidate_paths_named food folder l q : forall start,
  q ∈ candidate_paths W food folder start l ->
  exists i u ext,
    l !! i = Some u
    /\ file_extension (netloc_ok W) u = Some ext
    /\ q = OsPath.join folder (file_name food (start + i) ext).
Proof.
  induction l as [|u l IH]; intros start Hq.
  - inversion Hq.
  - rewrite candidate_paths_cons in Hq. apply elem_of_app in Hq as [Hq|Hq].
    + unfold candidate_paths, file_path_for in Hq. simpl in Hq.
      destruct (file_extension (netloc_ok W) u) as [ext|] eqn:Hext;
        simpl in Hq; [|inversion Hq].
      apply list_elem_of_singleton in Hq.
      exists O, u, ext. by rewrite Nat.add_0_r.
    + destruct (IH _ Hq) as (i & u' & ext & Hi & Hext & ->).
      exists (S i), u', ext. by rewrite Nat.add_succ_r.
Qed.

End ScraperFacts.

(** C7.  In a run of [scrape_all_foods] or of [scrape_single_food], from
    any state and in any world: a browser that was launched is closed
    exactly once, by the last call of the run, whatever happened in
    between (normal completion, an exception, an interrupt); and when the
    launch fails its exception leaves the run at once and nothing is
    closed. *)
Theorem browser_closed_once (W : World) (self : MyanmarFoodScraper) (s : State) :
  session_discipline W self (scrape_all_foods W self) s
  /\ forall food_name,
       session_discipline W self (scrape_single_food W self food_name) s.
Proof.
  split; [|intros food_name]; apply session_run.
  - apply respects_for_each; [tc_solve|]. intros [i food] [].
    unfold time_sleep. respects_auto; try quiet_side.
    apply scrape_food_images_quiet_session.
  - apply scrape_food_images_quiet_session.
Qed.

(** ** Downloads *)

(** C5.  When the response's content-type header, lower-cased, does not
    contain "image", [download_image] returns [False] and the only thing
    it has done is the request: no file is opened or written.  The disk
    changes only when the check passed; and when the check passes and the
    file can be written, the destination holds the response body whatever
    it held before. *)
Theorem non_image_response_not_saved
        (W : World) (img_url file_path : str) (s : State) (response : Response) :
  requests_get W (length (trace s)) img_url = Returns response ->
  let content_type := headers_get (headers response) (lit "content-type") [] in
  let verdict := Py.contains (lit "image") (Py.lower content_type) in
  (verdict = false ->
   download_image W img_url file_path s = (Val false, record (EFetch img_url) s))
  /\ (files (download_image W img_url file_path s).2 <> files s ->
      verdict = true)
  /\ (verdict = true ->
      raise_for_status response = Returns tt ->
      open_wb W (S (length (trace s))) file_path = Returns tt ->
      write_bytes W (S (S (length (trace s)))) file_path = Returns tt ->
      (download_image W img_url file_path s).1 = Val true
      /\ files (download_image W img_url file_path s).2
         = <[file_path := content response]> (files s)).
Proof.
  intros Hget content_type verdict.
  change verdict with (is_image response). repeat split.
  - intros Himg. apply (download_image_rejects W _ _ _ response); auto.
  - intros Hfiles.
    destruct (download_image_touches_disk W _ _ _ Hfiles)
      as (response' & Hget' & _ & Himg).
    rewrite Hget in Hget'. by inversion Hget'; subst.
  - by rewrite (download_image_saves W _ _ _ response).
  - rewrite (download_image_saves W _ _ _ response) by done.
    simpl. apply insert_insert_eq.
Qed.

(** An HTML page is not saved. *)
Lemma non_image_response_not_saved_witness :
  let W := calm_world [] (fun _ => Returns html_response) in
  let url := lit "http://h.example/page" in
  let dest := lit "Myanmar_Food_Images/mohinga/mohinga_1.jpg" in
  download_image W url dest fresh = (Val false, record (EFetch url) fresh).
Proof.
  intros W url dest.
  apply (proj1 (non_image_response_not_saved W url dest fresh html_response
                  eq_refl)).
  reflexivity.
Defined.

(** C10.  A response without any content-type header is treated as a
    non-image response: the header reads as the empty string,
    [download_image] returns [False], and nothing is written. *)
Theorem missing_content_type_not_saved
        (W : World) (img_url file_path : str) (s : State) (response : Response) :
  requests_get W (length (trace s)) img_url = Returns response ->
  store (headers response) !! lit "content-type" = None ->
  headers_get (headers response) (lit "content-type") [] = []
  /\ download_image W img_url file_path s
     = (Val false, record (EFetch img_url) s).
Proof.
  intros Hget Hnone.
  assert (Hempty : headers_get (headers response) (lit "content-type") [] = []).
  { unfold headers_get.
    change (Py.lower (lit "content-type")) with (lit "content-type").
    by rewrite Hnone. }
  split; [done|].
  apply (download_image_rejects W _ _ _ response); [done|].
  right. unfold is_image. by rewrite Hempty.
Qed.

(** A response that carries no header at all. *)
Lemma missing_content_type_not_saved_witness :
  let W := calm_world [] (fun _ => Returns bare_response) in
  let url := lit "http://h.example/a.png" in
  let dest := lit "Myanmar_Food_Images/mohinga/mohinga_1.png" in
  download_image W url dest fresh = (Val false, record (EFetch url) fresh).
Proof.
  intros W url dest.
  apply (proj2 (missing_content_type_not_saved W url dest fresh bare_response
                  eq_refl eq_refl)).
Defined.

(** ** A term without URLs *)

(** C9.  When the folder of a term could be created and the collection of
    its URLs then returns the empty list, [scrape_food_images] returns
    normally; no file is written and nothing is downloaded; and the folder
    of the term exists, because [makedirs] was the first call made. *)
Theorem no_urls_no_files
        (W : World) (self : MyanmarFoodScraper) (food_name : str)
        (s s1 s2 : State) (folder_path : str) :
  create_folder W self food_name s = (Val folder_path, s1) ->
  get_image_urls W food_name s1 = (Val [], s2) ->
  scrape_food_images W self food_name s = (Val tt, s2)
  /\ files s2 = files s
  /\ folder_path = OsPath.join (base_folder self) food_name
  /\ folder_path ∈ dirs s2
  /\ exists evs,
       trace s2 = trace s ++ EMakedirs folder_path :: evs
       /\ Forall (fun e => is_download_event e = false) evs.
Proof.
  intros Hfolder Hurls.
  pose proof (get_image_urls_quiet_disk W food_name s1) as Hq.
  rewrite Hurls in Hq. destruct Hq as [Hfiles Hdirs (evs & Htrace & Hevs)].
  simpl in *.
  assert (Hs1 : folder_path = OsPath.join (base_folder self) food_name
                /\ s1 = add_dir folder_path (record (EMakedirs folder_path) s)).
  { revert Hfolder. cbv [create_folder bind call modify ret].
    destruct (makedirs W _ _) as [[]|e]; intros H; inversion H. done. }
  destruct Hs1 as [Hpath Hs1].
  split; [|split; [|split; [|split]]].
  - unfold scrape_food_images, bind. by rewrite Hfolder, Hurls.
  - rewrite Hfiles, Hs1. done.
  - done.
  - rewrite Hdirs, Hs1. simpl. apply elem_of_union. left.
    by apply elem_of_singleton.
  - exists evs. split.
    + rewrite Htrace, Hs1. simpl. by rewrite <- app_assoc.
    + eapply Forall_impl; [exact Hevs|]. intros e He. simpl in He.
      by destruct (is_download_event e).
Qed.

(** A page without images: the folder of the term is there and empty. *)
Lemma no_urls_no_files_witness :
  let W := calm_world [] (fun _ => Returns image_response) in
  let self := init false 30 in
  let s := set_driver true fresh in
  exists s2,
    scrape_food_images W self (lit "mohinga") s = (Val tt, s2)
    /\ files s2 = ∅
    /\ lit "Myanmar_Food_Images/mohinga" ∈ dirs s2.
Proof.
  intros W self s.
  destruct (create_folder W self (lit "mohinga") s) as [r1 s1] eqn:H1.
  destruct (get_image_urls W (lit "mohinga") s1) as [r2 s2] eqn:H2.
  assert (Hr1 : r1 = Val (lit "Myanmar_Food_Images/mohinga")).
  { apply (f_equal fst) in H1. vm_compute in H1. by subst. }
  assert (Hr2 : r2 = Val []).
  { subst r1. apply (f_equal snd) in H1. simpl in H1. subst s1.
    apply (f_equal fst) in H2. vm_compute in H2. by subst. }
  subst r1 r2. exists s2.
  destruct (no_urls_no_files W self (lit "mohinga") s s1 s2 _ H1 H2)
    as (Hrun & Hfiles & _ & Hdir & _).
  split; [exact Hrun|]. split; [exact Hfiles|exact Hdir].
Defined.

(** ** Choosing between [src] and [data-src] *)

(** C8 as stated fails: an element whose [src] is present but empty and
    whose [data-src] holds a URL contributes the [data-src] URL, so the
    primary attribute is not selected although both are present. *)
Lemma empty_src_falls_back :
  ~ (forall src data_src : str,
       url_to_use (Some src) (Some data_src) = Some src).
Proof.
  intros H. specialize (H [] (lit "http://h.example/a.png")).
  vm_compute in H. discriminate H.
Qed.

(** C8, amended.  For every image element, the URL taken is [src] when
    [src] is present and not empty, and [data-src] otherwise; the element
    adds [keep_url] of that choice to the list, and adds nothing when
    neither attribute is present and non-empty. *)
Theorem src_preferred_when_nonempty
        (img : WebElement) (src data_src : option str)
        (image_urls : list str) (s : State) :
  attr_src img = Returns src ->
  attr_data_src img = Returns data_src ->
  exists chosen,
    (collect_img img image_urls s).1 = Val (image_urls ++ keep_url chosen)
    /\ (Py.truthy_opt src = true -> chosen = src)
    /\ (Py.truthy_opt src = false -> chosen = data_src)
    /\ (Py.truthy_opt src = false -> Py.truthy_opt data_src = false ->
        keep_url chosen = []).
Proof.
  intros Hsrc Hdata. exists (url_to_use src data_src).
  split; [|split; [|split]].
  - cbv [collect_img bind call ret]. by rewrite Hsrc, Hdata.
  - unfold url_to_use, Py.or_. by intros ->.
  - unfold url_to_use, Py.or_. by intros ->.
  - unfold url_to_use, Py.or_. intros -> Hd.
    destruct data_src as [[|c u]|]; simpl in *; done.
Qed.

(** An element with both attributes set, and a lazy-loaded one. *)
Lemma src_preferred_when_nonempty_witness :
  let both := {| attr_src := Returns (Some (lit "http://h.example/a.png"));
                 attr_data_src := Returns (Some (lit "http://h.example/b.png")) |} in
  exists chosen,
    (collect_img both [] fresh).1 = Val ([] ++ keep_url chosen)
    /\ chosen = Some (lit "http://h.example/a.png").
Proof.
  intros both.
  destruct (src_preferred_when_nonempty both
              (Some (lit "http://h.example/a.png"))
              (Some (lit "http://h.example/b.png")) [] fresh eq_refl eq_refl)
    as (chosen & Hrun & Hsrc & _).
  exists chosen. split; [exact Hrun|]. apply Hsrc. reflexivity.
Defined.

(** ** Errors *)

(** C6.  In a world whose calls raise nothing but [Exception]s
    (navigation, extraction, HTTP status, network, timeout, filesystem):
    [get_image_urls] returns, and returns the empty list when its body
    raised; [download_image] returns, and returns [False] when its body
    raised; and the download loop runs to its end, fetching every URL of
    the slice that parses whatever became of the downloads before it. *)
Theorem errors_do_not_propagate (W : World) (self : MyanmarFoodScraper) :
  exceptions_only W ->
  (forall query s, exists urls,
      (get_image_urls W query s).1 = Val urls
      /\ (forall e, (get_image_urls_try W (search_url query) s).1 = Exc e ->
                    urls = []))
  /\ (forall img_url file_path s, exists ok,
      (download_image W img_url file_path s).1 = Val ok
      /\ (forall e, (download_image_try W img_url file_path s).1 = Exc e ->
                    ok = false))
  /\ (forall food_name folder_path image_urls s, exists count evs,
      (download_all W self food_name folder_path image_urls s).1 = Val count
      /\ trace (download_all W self food_name folder_path image_urls s).2
         = trace s ++ evs
      /\ fetched evs
         = parsable W (slice_to image_urls (images_per_food self))).
Proof.
  intros HW. split; [|split].
  - intros query s. unfold get_image_urls.
    apply try_guarded_returns; [|done].
    by apply get_image_urls_try_guarded.
  - intros img_url file_path s. unfold download_image.
    apply try_guarded_returns; [|done].
    by apply download_image_try_guarded.
  - intros food_name folder_path image_urls s. unfold download_all.
    by apply download_loop_completes.
Qed.

(** A download that fails on the network returns [False]. *)
Lemma errors_do_not_propagate_witness :
  exists ok,
    (download_image three_of_five (lit "http://h.example/d.webp")
       (lit "Myanmar_Food_Images/mohinga/mohinga_4.webp") fresh).1 = Val ok
    /\ ok = false.
Proof.
  assert (HW : exceptions_only three_of_five).
  { split; intros; simpl; try done.
    repeat case_bool_decide; done. }
  destruct (proj1 (proj2 (errors_do_not_propagate three_of_five
                            (init false 30) HW))
              (lit "http://h.example/d.webp")
              (lit "Myanmar_Food_Images/mohinga/mohinga_4.webp") fresh)
    as (ok & Hok & Hfalse).
  exists ok. split; [exact Hok|]. apply (Hfalse RequestException). reflexivity.
Defined.

(** ** The download loop *)

(** C4.  For a non-negative [images_per_food], the download loop of
    [scrape_food_images] fetches a subsequence of the first
    [images_per_food] URLs and nothing else, so at most
    [min(len(image_urls), images_per_food)] of them; it opens at most as
    many files, and a file that differs afterwards is one of those. *)
Theorem downloads_bounded
        (W : World) (self : MyanmarFoodScraper)
        (food_name folder_path : str) (image_urls : list str) (s : State) :
  0 <= images_per_food self ->
  let n := Z.to_nat (images_per_food self) in
  let s' := (download_all W self food_name folder_path image_urls s).2 in
  exists evs,
    trace s' = trace s ++ evs
    /\ sublist (fetched evs) (take n image_urls)
    /\ (length (fetched evs) <= Nat.min (length image_urls) n)%nat
    /\ (length (opened evs) <= Nat.min (length image_urls) n)%nat
    /\ (forall q, files s' !! q <> files s !! q -> q ∈ opened evs).
Proof.
  intros Hn n s'. subst s'. unfold download_all.
  assert (Hslice : slice_to image_urls (images_per_food self)
                   = take n image_urls).
  { unfold slice_to. by rewrite (proj2 (Z.leb_le _ _) Hn). }
  rewrite Hslice.
  destruct (download_loop_trace W food_name folder_path (take n image_urls)
              O O s) as (evs & Htr & Hf & Ho & Hfiles).
  assert (Hlen : length (take n image_urls)
                 = Nat.min (length image_urls) n).
  { rewrite length_take. lia. }
  assert (Hparse : sublist (parsable W (take n image_urls))
                           (take n image_urls)).
  { apply parsable_sublist. }
  exists evs. split; [done|]. split; [by etransitivity|].
  split; [|split; [|done]].
  - rewrite <- Hlen. apply sublist_length. by etransitivity.
  - rewrite <- Hlen. etransitivity; [by apply sublist_length|].
    apply candidate_paths_length.
Qed.

(** Five URLs and room for two. *)
Lemma downloads_bounded_witness :
  exists evs,
    trace (download_all three_of_five (init false 2) (lit "mohinga")
             (lit "Myanmar_Food_Images/mohinga") five_urls fresh).2
    = trace fresh ++ evs
    /\ (length (fetched evs) <= 2)%nat.
Proof.
  destruct (downloads_bounded three_of_five (init false 2) (lit "mohinga")
              (lit "Myanmar_Food_Images/mohinga") five_urls fresh)
    as (evs & Htr & _ & Hlen & _).
  - simpl. lia.
  - exists evs. split; [exact Htr|exact Hlen].
Defined.

(** ** File numbering *)

(** C1 as stated fails: of five attempted URLs the second and the fourth
    are not saved, three downloads succeed, and the files opened are
    numbered 1, 3 and 5; they are not numbered 1, 2 and 3 with any
    extensions. *)
Lemma numbering_follows_attempts :
  let run := download_all three_of_five (init false 30) (lit "mohinga")
               (lit "Myanmar_Food_Images/mohinga") five_urls fresh in
  run.1 = Val 3%nat
  /\ fetched (trace run.2) = five_urls
  /\ opened (trace run.2)
     = map lit ["Myanmar_Food_Images/mohinga/mohinga_1.png";
                "Myanmar_Food_Images/mohinga/mohinga_3.jpeg";
                "Myanmar_Food_Images/mohinga/mohinga_5.jpg"]%string
  /\ ~ (exists ext1 ext2 ext3,
          opened (trace run.2)
          = [lit "Myanmar_Food_Images/mohinga/mohinga_1" ++ ext1;
             lit "Myanmar_Food_Images/mohinga/mohinga_2" ++ ext2;
             lit "Myanmar_Food_Images/mohinga/mohinga_3" ++ ext3]).
Proof.
  intros run.
  assert (Hopened : opened (trace run.2)
     = map lit ["Myanmar_Food_Images/mohinga/mohinga_1.png";
                "Myanmar_Food_Images/mohinga/mohinga_3.jpeg";
                "Myanmar_Food_Images/mohinga/mohinga_5.jpg"]%string).
  { vm_compute. reflexivity. }
  split; [vm_compute; reflexivity|].
  split; [vm_compute; reflexivity|].
  split; [exact Hopened|].
  intros (ext1 & ext2 & ext3 & H). rewrite Hopened in H.
  simpl in H. inversion H.
Qed.

(** C1, amended.  The number in the name of a saved file is the position
    of its URL among the attempted URLs: the files the loop opens are, in
    order, among the names built from the URLs of the slice and their
    1-based positions, only these files change, and the count of
    successes so far plays no part in a round of the loop. *)
Theorem files_numbered_by_position
        (W : World) (self : MyanmarFoodScraper)
        (food_name folder_path : str) (image_urls : list str) (s : State) :
  let attempted := slice_to image_urls (images_per_food self) in
  let s' := (download_all W self food_name folder_path image_urls s).2 in
  exists evs,
    trace s' = trace s ++ evs
    /\ sublist (opened evs)
               (candidate_paths W food_name folder_path 0 attempted)
    /\ (forall q, files s' !! q <> files s !! q -> q ∈ opened evs)
    /\ (forall q, q ∈ opened evs ->
        exists i img_url ext,
          attempted !! i = Some img_url
          /\ file_extension (netloc_ok W) img_url = Some ext
          /\ q = OsPath.join folder_path
                   (food_name ++ lit "_" ++ Py.str_of_nat (i + 1) ++ ext))
    /\ (forall i img_url count count' s0,
        (download_one W food_name folder_path (i, img_url) count s0).2
        = (download_one W food_name folder_path (i, img_url) count' s0).2).
Proof.
  intros attempted s'. subst s'. unfold download_all. fold attempted.
  destruct (download_loop_trace W food_name folder_path attempted O O s)
    as (evs & Htr & _ & Ho & Hfiles).
  exists evs. split; [done|]. split; [done|]. split; [done|]. split.
  - intros q Hq.
    assert (Hin : q ∈ candidate_paths W food_name folder_path 0 attempted).
    { eapply elem_of_sublist; eauto. }
    destruct (candidate_paths_named W _ _ _ _ _ Hin)
      as (i & u & ext & Hi & Hext & ->).
    exists i, u, ext. done.
  - intros i img_url count count' s0. unfold download_one, try_, bind, ret, raise.
    destruct (file_path_for W food_name folder_path i img_url); [|done].
    destruct (download_image W img_url _ s0) as [[ok|e] s1]; simpl; [done|].
    by destruct (is_Exception e).
Qed.

(** The third URL of the run above is saved under the number 3. *)
Lemma files_numbered_by_position_witness :
  let W := three_of_five in
  let folder := lit "Myanmar_Food_Images/mohinga" in
  exists evs,
    trace (download_all W (init false 30) (lit "mohinga") folder
             five_urls fresh).2 = trace fresh ++ evs
    /\ sublist (opened evs)
         (candidate_paths W (lit "mohinga") folder 0
            (slice_to five_urls 30)).
Proof.
  intros W folder.
  destruct (files_numbered_by_position W (init false 30) (lit "mohinga")
              folder five_urls fresh) as (evs & Htr & Ho & _).
  exists evs. split; [exact Htr|exact Ho].
Defined.

(** ** Strings and URLs: the query never reaches the path *)

Section StringFacts.

Implicit Types (c x : ascii) (a b s : str).

Lemma has_app c a b : Py.has c (a ++ b) = Py.has c a || Py.has c b.
Proof. apply existsb_app. Qed.

Lemma index_of_None c s : Py.index_of c s = None <-> Py.has c s = false.
Proof.
  unfold Py.has. induction s as [|x s IH]; simpl; [done|].
  rewrite (Ascii.eqb_sym c x).
  destruct (Ascii.eqb x c); simpl; [done|].
  rewrite <- IH. destruct (Py.index_of c s); simpl; done.
Qed.

Lemma index_of_Some c s i :
  Py.index_of c s = Some i ->
  exists a b, s = a ++ c :: b /\ length a = i /\ Py.has c a = false.
Proof.
  revert i. induction s as [|x s IH]; intros i; simpl; [done|].
  destruct (Ascii.eqb_spec x c) as [->|Hne].
  - intros [= <-]. by exists [], s.
  - destruct (Py.index_of c s) as [j|]; simpl; [|done].
    intros [= <-]. destruct (IH j eq_refl) as (a & b & -> & <- & Ha).
    exists (x :: a), b. split; [done|]. split; [done|].
    unfold Py.has in *. simpl. rewrite Ha, orb_false_r.
    by apply Ascii.eqb_neq.
Qed.

Lemma index_of_first c a b :
  Py.has c a = false -> Py.index_of c (a ++ c :: b) = Some (length a).
Proof.
  unfold Py.has. induction a as [|x a IH]; simpl.
  - by rewrite Ascii.eqb_refl.
  - rewrite orb_false_iff. intros [Hx Ha].
    rewrite Ascii.eqb_sym in Hx. by rewrite Hx, (IH Ha).
Qed.

Lemma find_first c a b :
  Py.has c a = false -> Py.find c (a ++ c :: b) = Z.of_nat (length a).
Proof. intros Ha. unfold Py.find. by rewrite index_of_first. Qed.

Lemma find_absent c s : Py.has c s = false -> Py.find c s = -1.
Proof. intros H. unfold Py.find. by rewrite (proj2 (index_of_None c s) H). Qed.

Lemma upto_app_length a b : Py.upto (a ++ b) (Z.of_nat (length a)) = a.
Proof. unfold Py.upto. rewrite Nat2Z.id. by rewrite take_app_length. Qed.

Lemma from_app_length a b : Py.from (a ++ b) (Z.of_nat (length a)) = b.
Proof. unfold Py.from. rewrite Nat2Z.id. by rewrite drop_app_length. Qed.

Lemma from_app_length_S c a b :
  Py.from (a ++ c :: b) (Z.of_nat (length a) + 1) = b.
Proof.
  unfold Py.from. replace (Z.to_nat (Z.of_nat (length a) + 1)) with (length a + 1)%nat by lia.
  rewrite <- drop_drop, drop_app_length. done.
Qed.

Lemma index_of_app_absent c a b :
  Py.has c a = false ->
  Py.index_of c (a ++ b) = (fun j => (length a + j)%nat) <$> Py.index_of c b.
Proof.
  unfold Py.has. induction a as [|x a IH]; simpl.
  - intros _. by destruct (Py.index_of c b).
  - rewrite orb_false_iff. intros [Hx Ha].
    rewrite Ascii.eqb_sym in Hx. rewrite Hx, (IH Ha).
    by destruct (Py.index_of c b).
Qed.

Lemma index_of_app_present c a b i :
  Py.index_of c a = Some i -> Py.index_of c (a ++ b) = Some i.
Proof.
  intros H. destruct (index_of_Some _ _ _ H) as (a1 & a2 & -> & <- & Ha1).
  rewrite <- app_assoc. simpl. by apply index_of_first.
Qed.

Lemma has_lstrip c f s : Py.has c s = false -> Py.has c (Py.lstrip f s) = false.
Proof.
  unfold Py.has. induction s as [|x s IH]; simpl; [done|].
  rewrite orb_false_iff. intros [Hx Hs].
  destruct (f x); [by apply IH|]. simpl. by rewrite Hx, Hs.
Qed.

Lemma has_remove c d s : Py.has c s = false -> Py.has c (Py.remove d s) = false.
Proof.
  unfold Py.has, Py.remove. induction s as [|x s IH]; simpl; [done|].
  rewrite orb_false_iff. intros [Hx Hs].
  destruct (negb (Ascii.eqb x d)); simpl; [rewrite Hx|]; by apply IH.
Qed.

Lemma lstrip_app_keep f a x b :
  f x = false -> Py.lstrip f (a ++ x :: b) = Py.lstrip f a ++ x :: b.
Proof.
  intros Hx. induction a as [|y a IH]; simpl; [by rewrite Hx|].
  by destruct (f y).
Qed.

Lemma remove_app_keep d a x b :
  Ascii.eqb x d = false ->
  Py.remove d (a ++ x :: b) = Py.remove d a ++ x :: Py.remove d b.
Proof.
  intros Hx. unfold Py.remove. rewrite List.filter_app. simpl. by rewrite Hx.
Qed.

End StringFacts.

Section UrlFacts.

Implicit Types (b q r : str).

Lemma sanitize_query b q :
  exists q', Url.sanitize (b ++ "?"%char :: q) = Url.sanitize b ++ "?"%char :: q'.
Proof.
  unfold Url.sanitize. simpl.
  rewrite lstrip_app_keep by reflexivity.
  rewrite !remove_app_keep by reflexivity. eauto.
Qed.

Lemma has_sanitize c b : Py.has c b = false -> Py.has c (Url.sanitize b) = false.
Proof.
  intros H. unfold Url.sanitize. simpl.
  by apply has_remove, has_remove, has_remove, has_lstrip.
Qed.

(** What [split_scheme] leaves is the end of what it was given. *)
Lemma split_scheme_rest b :
  exists a, b = a ++ (Url.split_scheme b).2.
Proof.
  unfold Url.split_scheme. destruct (_ && _); simpl; [|by exists []].
  exists (take (Z.to_nat (Py.find ":" b + 1)) b). unfold Py.from.
  by rewrite take_drop.
Qed.

Lemma has_split_scheme c b :
  Py.has c b = false -> Py.has c (Url.split_scheme b).2 = false.
Proof.
  intros H. destruct (split_scheme_rest b) as [a Ha].
  rewrite Ha, has_app in H. by apply orb_false_iff in H as [_ H].
Qed.

Lemma split_scheme_query b q :
  Py.has "?" b = false ->
  Url.split_scheme (b ++ "?"%char :: q)
  = ((Url.split_scheme b).1, (Url.split_scheme b).2 ++ "?"%char :: q).
Proof.
  intros Hb. unfold Url.split_scheme.
  destruct (Py.index_of ":" b) as [i|] eqn:Hi.
  - destruct (index_of_Some _ _ _ Hi) as (a & b' & -> & <- & Ha).
    rewrite <- app_assoc. simpl.
    rewrite !find_first by done.
    rewrite !upto_app_length, !from_app_length_S.
    destruct a as [|x a]; [done|]. simpl.
    destruct (_ && _); simpl; [done|]. by rewrite <- app_assoc.
  - apply index_of_None in Hi. rewrite (find_absent _ _ Hi). simpl.
    unfold Py.find. rewrite index_of_app_absent by done. simpl.
    destruct (Py.index_of ":" q) as [j|]; simpl; [|done].
    assert (Hbad : forallb Url.scheme_char
                     (Py.upto (b ++ "?"%char :: q)
                        (Z.of_nat (length b + S j))) = false).
    { unfold Py.upto. rewrite Nat2Z.id, take_app_ge by lia.
      rewrite forallb_app. replace (length b + S j - length b)%nat with (S j) by lia.
      simpl. apply andb_false_r. }
    rewrite Hbad. by rewrite !andb_false_r.
Qed.

Lemma find_from_authority c x :
  Py.find_from c ("/"%char :: "/"%char :: x) 2
  = match Py.index_of c x with Some i => 2 + Z.of_nat i | None => -1 end.
Proof. reflexivity. Qed.

(** [_splitnetloc] cuts at the first of the characters "/?#", or at the
    end when there is none. *)
Lemma splitnetloc_cut x k :
  let delimiter c := c = "/"%char \/ c = "?"%char \/ c = "#"%char in
  (k <= length x)%nat ->
  (forall c i, delimiter c -> Py.index_of c x = Some i -> (k <= i)%nat) ->
  (k = length x \/ exists c, delimiter c /\ Py.index_of c x = Some k) ->
  Url.splitnetloc ("/"%char :: "/"%char :: x) 2 = (take k x, drop k x).
Proof.
  intros delimiter Hk Hge Hat. unfold Url.splitnetloc.
  match goal with
  | |- context [fold_left ?f ?l ?a] =>
      assert (Hdelim : fold_left f l a = 2 + Z.of_nat k)
  end.
  { simpl fold_left. rewrite !find_from_authority.
    assert (Hin1 : delimiter "/"%char) by (left; done).
    assert (Hin2 : delimiter "?"%char) by (right; left; done).
    assert (Hin3 : delimiter "#"%char) by (right; right; done).
    pose proof (Hge "/"%char) as H1. pose proof (Hge "?"%char) as H2.
    pose proof (Hge "#"%char) as H3.
    assert (Hk' : forall c, delimiter c -> Py.index_of c x = Some k ->
                            Py.index_of c x = Some k) by done.
    pose proof (Hk' "/"%char Hin1) as K1. pose proof (Hk' "?"%char Hin2) as K2.
    pose proof (Hk' "#"%char Hin3) as K3.
    assert (Hcase : k = length x \/ Py.index_of "/" x = Some k
                    \/ Py.index_of "?" x = Some k \/ Py.index_of "#" x = Some k).
    { destruct Hat as [->|(c & [->|[->| ->]] & Hck)]; auto. }
    clear Hat Hge Hk' K1 K2 K3.
    destruct (Py.index_of "/" x) as [i1|];
      destruct (Py.index_of "?" x) as [i2|];
      destruct (Py.index_of "#" x) as [i3|];
      try specialize (H1 _ Hin1 eq_refl);
      try specialize (H2 _ Hin2 eq_refl);
      try specialize (H3 _ Hin3 eq_refl);
      cbn [length];
      repeat match goal with
             | |- context [0 <=? ?z] => destruct (Z.leb_spec 0 z)
             end;
      destruct Hcase as [?|[?|[?|?]]]; simplify_eq; lia. }
  rewrite Hdelim. unfold Py.slice, Py.upto, Py.from.
  replace (Z.to_nat (2 + Z.of_nat k)) with (S (S k)) by lia.
  change (Z.to_nat 2) with 2%nat. done.
Qed.

Lemma index_of_lt c s i : Py.index_of c s = Some i -> (i < length s)%nat.
Proof.
  intros H. destruct (index_of_Some _ _ _ H) as (a & b & -> & <- & _).
  rewrite length_app. simpl. lia.
Qed.

Lemma has_drop c n s : Py.has c s = false -> Py.has c (drop n s) = false.
Proof.
  intros H. rewrite <- (take_drop n s), has_app in H.
  by apply orb_false_iff in H as [_ H].
Qed.

Lemma has_split_authority c r :
  Py.has c r = false -> Py.has c (Url.split_authority r).2 = false.
Proof.
  intros H. unfold Url.split_authority, Url.splitnetloc.
  case_bool_decide; simpl; [|done]. by apply has_drop.
Qed.

(** The authority of a URL ends before its query. *)
Lemma split_authority_query r q :
  Py.has "?" r = false -> Py.has "#" r = false ->
  Url.split_authority (r ++ "?"%char :: q)
  = ((Url.split_authority r).1, (Url.split_authority r).2 ++ "?"%char :: q).
Proof.
  intros Hq Hf. unfold Url.split_authority.
  destruct r as [|c1 [|c2 x]].
  - rewrite !bool_decide_eq_false_2; [done|by intros H..].
  - rewrite !bool_decide_eq_false_2; [done|by intros H..].
  - change (Py.upto ((c1 :: c2 :: x) ++ "?"%char :: q) 2) with [c1; c2].
    change (Py.upto (c1 :: c2 :: x) 2) with [c1; c2].
    case_bool_decide as H; [|done].
    change (lit "//") with ["/"%char; "/"%char] in H. simplify_eq.
    simpl in Hq, Hf.
    change (("/"%char :: "/"%char :: x) ++ "?"%char :: q)
      with ("/"%char :: "/"%char :: x ++ "?"%char :: q).
    set (k := from_option id (length x) (Py.index_of "/" x)).
    assert (Hk : (k <= length x)%nat).
    { subst k. destruct (Py.index_of "/" x) as [i|] eqn:E; simpl; [|lia].
      apply index_of_lt in E. lia. }
    assert (Hnq : Py.index_of "?" x = None) by by apply index_of_None.
    assert (Hnf : Py.index_of "#" x = None) by by apply index_of_None.
    assert (H1 : Url.splitnetloc ("/"%char :: "/"%char :: x) 2
                 = (take k x, drop k x)).
    { apply splitnetloc_cut; [done|..].
      - intros c i [->|[->| ->]] Hi; simplify_eq. subst k. by rewrite Hi.
      - subst k. destruct (Py.index_of "/" x) as [j|] eqn:E; simpl.
        + right. exists "/"%char. split; [by left|done].
        + by left. }
    assert (H2 : Url.splitnetloc
                   ("/"%char :: "/"%char :: x ++ "?"%char :: q) 2
                 = (take k (x ++ "?"%char :: q), drop k (x ++ "?"%char :: q))).
    { apply splitnetloc_cut.
      - rewrite length_app. lia.
      - intros c i [->|[->| ->]] Hi.
        + subst k. destruct (Py.index_of "/" x) as [j|] eqn:E; simpl.
          * rewrite (index_of_app_present _ _ _ _ E) in Hi. by simplify_eq.
          * apply index_of_None in E.
            rewrite index_of_app_absent in Hi by done.
            destruct (Py.index_of "/" ("?"%char :: q)); simplify_eq/=. lia.
        + rewrite index_of_first in Hi by done. by simplify_eq.
        + rewrite index_of_app_absent in Hi by done.
          destruct (Py.index_of "#" ("?"%char :: q)); simplify_eq/=. lia.
      - right. subst k. destruct (Py.index_of "/" x) as [j|] eqn:E; simpl.
        + exists "/"%char. split; [by left|]. by apply index_of_app_present.
        + exists "?"%char. split; [by right; left|]. by apply index_of_first. }
    rewrite H1, H2. cbn [fst snd].
    by rewrite take_app_le, drop_app_le by done.
Qed.

Lemma split_at_absent c r : Py.has c r = false -> Url.split_at c r = (r, []).
Proof. intros H. unfold Url.split_at. by rewrite H. Qed.

Lemma split_at_query r q :
  Py.has "?" r = false -> Url.split_at "?" (r ++ "?"%char :: q) = (r, q).
Proof.
  intros H. unfold Url.split_at, Py.split1.
  rewrite has_app. simpl. rewrite orb_true_r.
  by rewrite find_first, upto_app_length, from_app_length_S.
Qed.

(** Cutting the fragment off leaves the text up to the question mark as
    it is. *)
Lemma split_at_fragment r q :
  Py.has "#" r = false ->
  exists q', (Url.split_at "#" (r ++ "?"%char :: q)).1 = r ++ "?"%char :: q'.
Proof.
  intros H. unfold Url.split_at, Py.split1.
  destruct (Py.has "#" (r ++ "?"%char :: q)) eqn:Hh; simpl; [|by exists q].
  unfold Py.find. rewrite index_of_app_absent by done. simpl.
  destruct (Py.index_of "#" q) as [j|] eqn:Hj; simpl.
  - exists (take j q). unfold Py.upto. rewrite Nat2Z.id.
    rewrite take_app_ge by lia.
    replace (length r + S j - length r)%nat with (S j) by lia. done.
  - apply index_of_None in Hj. rewrite has_app in Hh. simpl in Hh.
    by rewrite H, Hj in Hh.
Qed.

Section ParseFacts.
Variable netloc_ok : str -> bool.

Lemma urlsplit_query b q :
  Py.has "?" b = false -> Py.has "#" b = false ->
  (fun p => (Url.scheme p, Url.path p))
    <$> Url.urlsplit netloc_ok (b ++ "?"%char :: q)
  = (fun p => (Url.scheme p, Url.path p)) <$> Url.urlsplit netloc_ok b.
Proof.
  intros Hq Hf. unfold Url.urlsplit.
  destruct (sanitize_query b q) as [q1 ->].
  rewrite split_scheme_query by by apply has_sanitize.
  pose proof (has_split_scheme "?" _ (has_sanitize _ _ Hq)) as Hq1.
  pose proof (has_split_scheme "#" _ (has_sanitize _ _ Hf)) as Hf1.
  destruct (Url.split_scheme (Url.sanitize b)) as [sch r1]. simpl in *.
  rewrite split_authority_query by done.
  pose proof (has_split_authority "?" _ Hq1) as Hq2.
  pose proof (has_split_authority "#" _ Hf1) as Hf2.
  destruct (Url.split_authority r1) as [net r2]. simpl in *.
  destruct (netloc_ok net); simpl; [|done].
  destruct (split_at_fragment r2 q1 Hf2) as [q2 Hq2'].
  destruct (Url.split_at "#" (r2 ++ _)) as [u f]. simpl in Hq2'. subst u.
  rewrite split_at_query by done.
  rewrite !split_at_absent by done. done.
Qed.

Lemma urlparse_query b q :
  Py.has "?" b = false -> Py.has "#" b = false ->
  Url.path <$> Url.urlparse netloc_ok (b ++ "?"%char :: q)
  = Url.path <$> Url.urlparse netloc_ok b.
Proof.
  intros Hq Hf. pose proof (urlsplit_query b q Hq Hf) as H.
  unfold Url.urlparse.
  destruct (Url.urlsplit netloc_ok (b ++ _)) as [p'|],
           (Url.urlsplit netloc_ok b) as [p|]; simplify_eq/=; [|done].
  destruct p as [s1 n1 p1 a1 q1 f1], p' as [s2 n2 p2 a2 q2 f2].
  simpl in *. subst.
  by destruct (_ && _), (Url.splitparams p1).
Qed.

Lemma file_extension_query b q :
  Py.has "?" b = false -> Py.has "#" b = false ->
  file_extension netloc_ok (b ++ "?"%char :: q) = file_extension netloc_ok b.
Proof.
  intros Hq Hf. pose proof (urlparse_query b q Hq Hf) as H.
  unfold file_extension.
  destruct (Url.urlparse netloc_ok (b ++ _)) as [p'|],
           (Url.urlparse netloc_ok b) as [p|]; simplify_eq/=; [|done].
  by rewrite H.
Qed.

End ParseFacts.

End UrlFacts.



(** ** The extension of a saved file *)

Lemma default_extension_allowed : default_extension ∈ allowed_extensions.
Proof. vm_compute. constructor. Qed.

Lemma empty_not_allowed : [] ∉ allowed_extensions.
Proof. intros H. by apply (bool_decide_pack _) in H. Qed.

Lemma extension_of_path_allowed (p : str) :
  extension_of_path p ∈ allowed_extensions.
Proof.
  unfold extension_of_path.
  destruct (Py.truthy _); simpl; [|apply default_extension_allowed].
  case_bool_decide; simpl; [done|apply default_extension_allowed].
Qed.

Lemma extension_of_path_spec (p : str) :
  let suffix := (OsPath.splitext p).2 in
  (suffix ∈ allowed_extensions -> extension_of_path p = suffix)
  /\ (suffix ∉ allowed_extensions -> extension_of_path p = default_extension).
Proof.
  intros suffix. unfold extension_of_path. fold suffix. split; intros H.
  - rewrite bool_decide_eq_true_2 by done.
    destruct suffix; [|done]. by apply empty_not_allowed in H.
  - rewrite bool_decide_eq_false_2 by done. simpl. by rewrite orb_true_r.
Qed.

(** C2 as stated fails: the path of [https://h.example/a/photo.PNG?x=1]
    has the suffix [.PNG], which is in the allow-list when compared
    without regard to case, yet the extension chosen is neither [.PNG]
    nor [.png]. *)
Lemma uppercase_suffix_not_kept :
  ~ (forall (netloc_ok : str -> bool) (img_url : str)
            (parsed : Url.ParseResult),
       Url.urlparse netloc_ok img_url = Some parsed ->
       let suffix := (OsPath.splitext (Url.path parsed)).2 in
       Py.lower suffix ∈ allowed_extensions ->
       file_extension netloc_ok img_url = Some suffix
       \/ file_extension netloc_ok img_url = Some (Py.lower suffix)).
Proof.
  intros H.
  destruct (H (fun _ => true) (lit "https://h.example/a/photo.PNG?x=1")
              _ eq_refl) as [H1|H1].
  - vm_compute. repeat constructor.
  - vm_compute in H1. discriminate H1.
  - vm_compute in H1. discriminate H1.
Qed.

(** C2, amended.  For every URL that [urlparse] accepts, the extension of
    the saved file is one of the four of the allow-list; it is the suffix
    that [os.path.splitext] finds in the URL's path whenever that suffix
    is literally (with the same case) in the allow-list, and [.jpg]
    whenever it is not, in particular when the path has no suffix; any
    URL with the same path gets the same extension, and appending a
    query string to a URL that has neither query nor fragment does not
    change it. *)
Theorem extension_from_path_suffix
        (netloc_ok : str -> bool) (img_url : str)
        (parsed : Url.ParseResult) :
  Url.urlparse netloc_ok img_url = Some parsed ->
  let suffix := (OsPath.splitext (Url.path parsed)).2 in
  exists ext,
    file_extension netloc_ok img_url = Some ext
    /\ ext ∈ allowed_extensions
    /\ (suffix ∈ allowed_extensions -> ext = suffix)
    /\ (suffix ∉ allowed_extensions -> ext = lit ".jpg")
    /\ (suffix = [] -> ext = lit ".jpg")
    /\ (forall img_url' parsed',
          Url.urlparse netloc_ok img_url' = Some parsed' ->
          Url.path parsed' = Url.path parsed ->
          file_extension netloc_ok img_url' = Some ext)
    /\ (forall q,
          Py.has "?" img_url = false -> Py.has "#" img_url = false ->
          file_extension netloc_ok (img_url ++ "?"%char :: q) = Some ext).
Proof.
  intros Hparse suffix. exists (extension_of_path (Url.path parsed)).
  assert (Hext : file_extension netloc_ok img_url
                 = Some (extension_of_path (Url.path parsed))).
  { unfold file_extension. by rewrite Hparse. }
  destruct (extension_of_path_spec (Url.path parsed)) as [Hin Hout].
  fold suffix in Hin, Hout.
  split; [done|]. split; [apply extension_of_path_allowed|].
  split; [done|]. split; [done|]. split.
  - intros Hnil. apply Hout. rewrite Hnil. apply empty_not_allowed.
  - split.
    + intros img_url' parsed' Hparse' Hpath. unfold file_extension.
      rewrite Hparse'. simpl. by rewrite Hpath.
    + intros q Hq Hf. by rewrite file_extension_query.
Qed.

(** A lower-case [.png] is kept, with or without a query string. *)
Lemma extension_from_path_suffix_witness :
  let img_url := lit "https://h.example/a/photo.png" in
  exists ext,
    file_extension (fun _ => true) img_url = Some ext
    /\ ext ∈ allowed_extensions
    /\ file_extension (fun _ => true) (img_url ++ lit "?x=1") = Some ext.
Proof.
  intros img_url.
  destruct (extension_from_path_suffix (fun _ => true) img_url _ eq_refl)
    as (ext & Hext & Hin & _ & _ & _ & _ & Hquery).
  exists ext. split; [exact Hext|]. split; [exact Hin|].
  apply (Hquery (lit "x=1")); reflexivity.
Defined.

(** * Further properties of the scraper *)

(** ** Running without a browser *)



(** ** The scroll loop *)

(** X2.  One round of the scroll loop fails only on the scroll itself or on
    the pause after it: whatever the look-up of the "Show more results"
    button, its visibility test, the click or the pause after the click
    raise, a [KeyboardInterrupt] included, the bare [except] swallows
    it and the round returns. *)
Theorem scroll_round_swallows_button_errors
        (W : World) (i : nat) (s : State) :
  driver s = true ->
  execute_script W (length (trace s)) (lit "window.scrollBy(0,1000)")
  = Returns tt ->
  sleep W (S (length (trace s))) 2 = Returns tt ->
  (scroll_once W i tt s).1 = Val tt.
Proof.
  intros Hdrv Hscript Hsleep.
  cbv [scroll_once time_sleep bind on_driver call try_].
  rewrite Hdrv, Hscript. cbn [record trace driver].
  rewrite length_app, Nat.add_1_r. cbn [length]. rewrite Hsleep.
  cbn [record trace driver]. rewrite Hdrv.
  destruct (find_show_more W _); [|done].
  destruct (is_displayed W _) as [[]|]; [|done|done].
  destruct (click W _); [|done].
  by destruct (sleep W _ 3) as [[]|].
Qed.

Lemma scroll_round_swallows_button_errors_witness :
  let W := calm_world [] (fun _ => Raises RequestException) in
  (scroll_once W 0 tt (set_driver true fresh)).1 = Val tt.
Proof.
  intros W.
  apply (scroll_round_swallows_button_errors W 0 (set_driver true fresh));
    reflexivity.
Defined.

(** ** The HTTP status *)

(** X3.  [raise_for_status] rejects the statuses 400 to 599 and no other: a
    response with such a status is not saved, whatever its content type
    and body, and [download_image] returns [False] after the request
    alone; an image response with any other status is saved when the
    file can be written. *)
Theorem http_error_status_not_saved
        (W : World) (img_url file_path : str) (s : State)
        (response : Response) :
  requests_get W (length (trace s)) img_url = Returns response ->
  (400 <= status_code response < 600 ->
   download_image W img_url file_path s
   = (Val false, record (EFetch img_url) s))
  /\ (~ 400 <= status_code response < 600 ->
      is_image response = true ->
      open_wb W (S (length (trace s))) file_path = Returns tt ->
      write_bytes W (S (S (length (trace s)))) file_path = Returns tt ->
      (download_image W img_url file_path s).1 = Val true
      /\ files (download_image W img_url file_path s).2
         = <[file_path := content response]> (files s)).
Proof.
  intros Hget. split.
  - intros Hstatus. apply (download_image_rejects W _ _ _ response Hget).
    left. unfold raise_for_status.
    destruct (Z.leb_spec 400 (status_code response)); [|lia].
    destruct (Z.ltb_spec (status_code response) 600); [done|lia].
  - intros Hstatus Himg Hopen Hwrite.
    assert (Hok : raise_for_status response = Returns tt).
    { unfold raise_for_status.
      destruct (Z.leb_spec 400 (status_code response)); [|done].
      destruct (Z.ltb_spec (status_code response) 600); [lia|done]. }
    rewrite (download_image_saves W _ _ _ response Hget Hok Himg Hopen Hwrite).
    split; [done|]. simpl. by rewrite insert_insert_eq.
Qed.

Lemma http_error_status_not_saved_witness :
  let not_found :=
    {| status_code := 404;
       headers := headers_set (lit "Content-Type") (lit "image/png") no_headers;
       content := [Byte.x01] |} in
  let W := calm_world [] (fun _ => Returns not_found) in
  download_image W (lit "http://h.example/a.png") (lit "a.png") fresh
  = (Val false, record (EFetch (lit "http://h.example/a.png")) fresh).
Proof.
  intros not_found W.
  apply (http_error_status_not_saved W (lit "http://h.example/a.png")
           (lit "a.png") fresh not_found eq_refl).
  simpl. lia.
Defined.

(** ** Writing the file *)

(** X4.  [open(file_path, 'wb')] creates or empties the file before the body is
    written.  When the file cannot be opened the disk stays as it is;
    when it was opened and the write fails, [download_image] returns
    [False] and leaves an empty file at the destination, so that what was
    stored there before is gone.  (A write stores the whole body or
    nothing.) *)
Theorem failed_write_leaves_empty_file
        (W : World) (img_url file_path : str) (s : State)
        (response : Response) (e : exn) :
  requests_get W (length (trace s)) img_url = Returns response ->
  raise_for_status response = Returns tt ->
  is_image response = true ->
  is_Exception e = true ->
  (open_wb W (S (length (trace s))) file_path = Raises e ->
   (download_image W img_url file_path s).1 = Val false
   /\ files (download_image W img_url file_path s).2 = files s)
  /\ (open_wb W (S (length (trace s))) file_path = Returns tt ->
      write_bytes W (S (S (length (trace s)))) file_path = Raises e ->
      (download_image W img_url file_path s).1 = Val false
      /\ files (download_image W img_url file_path s).2
         = <[file_path := []]> (files s)).
Proof.
  intros Hget Hst Himg He. split.
  - intros Hopen.
    cbv [download_image download_image_try try_ bind call lift modify].
    rewrite Hget, Hst, Himg. cbn [negb ret record trace].
    rewrite length_app, Nat.add_1_r. cbn [length]. rewrite Hopen, He. done.
  - intros Hopen Hwrite.
    cbv [download_image download_image_try try_ bind call lift modify].
    rewrite Hget, Hst, Himg. cbn [negb ret record trace].
    rewrite length_app, Nat.add_1_r. cbn [length]. rewrite Hopen.
    cbn [record put_file trace].
    rewrite !length_app, !Nat.add_1_r. cbn [length]. rewrite Hwrite, He. done.
Qed.

Lemma failed_write_leaves_empty_file_witness :
  let W :=
    {| makedirs := fun _ _ => Returns tt;
       chrome_launch := fun _ _ => Returns tt;
       driver_get := fun _ _ => Returns tt;
       execute_script := fun _ _ => Returns tt;
       find_show_more := fun _ => Raises WebDriverException;
       is_displayed := fun _ => Returns false;
       click := fun _ => Returns tt;
       wait_for_imgs := fun _ => Returns tt;
       find_imgs := fun _ => Returns [];
       driver_quit := fun _ => Returns tt;
       requests_get := fun _ _ => Returns image_response;
       open_wb := fun _ _ => Returns tt;
       write_bytes := fun _ _ => Raises OSError;
       sleep := fun _ _ => Returns tt;
       netloc_ok := fun _ => true |} in
  let s := put_file (lit "a.png") [Byte.x07] fresh in
  files (download_image W (lit "http://h.example/a.png") (lit "a.png") s).2
  !! lit "a.png" = Some [].
Proof.
  intros W s.
  destruct (failed_write_leaves_empty_file W (lit "http://h.example/a.png")
              (lit "a.png") s image_response OSError
              eq_refl eq_refl eq_refl eq_refl) as [_ H].
  destruct (H eq_refl eq_refl) as [_ ->].
  apply lookup_insert_eq.
Defined.

(** ** The URLs that are kept *)

Lemma startswith_http_not_data (u : str) :
  Py.startswith u (lit "http") = true ->
  Py.startswith u (lit "data:") = false.
Proof.
  destruct u as [|c u]; simpl; [done|].
  destruct (Ascii.eqb_spec c "h"); simpl; [|done].
  intros _. subst c. done.
Qed.

Lemma keep_url_elem_of (chosen : option str) (u : str) :
  u ∈ keep_url chosen -> Py.startswith u (lit "http") = true.
Proof.
  unfold keep_url. destruct chosen as [v|]; [|by intros ?%elem_of_nil].
  destruct (Py.truthy v); cbn [andb]; [|by intros ?%elem_of_nil].
  destruct (Py.startswith v (lit "http")) eqn:Hv; [|by intros ?%elem_of_nil].
  destruct (negb _); [|by intros ?%elem_of_nil].
  by intros ->%list_elem_of_singleton.
Qed.

Lemma collect_imgs_http (imgs : list WebElement) : forall acc s urls,
  Forall (fun u => Py.startswith u (lit "http") = true) acc ->
  (for_each imgs collect_img acc s).1 = Val urls ->
  Forall (fun u => Py.startswith u (lit "http") = true) urls.
Proof.
  induction imgs as [|img imgs IH]; intros acc s urls Hacc.
  - simpl. intros H. by inversion H; subst.
  - rewrite for_each_cons_run.
    unfold collect_img at 1. unfold bind, call, ret.
    destruct (attr_src img) as [src|]; [|done].
    destruct (attr_data_src img) as [data_src|]; [|done].
    apply IH. apply Forall_app. split; [done|].
    apply Forall_forall. intros u. apply keep_url_elem_of.
Qed.

(** X5.  The test of line 148 never rejects anything: a URL that starts with
    [http] does not start with [data:], and is not empty; so an element
    contributes its chosen URL exactly when that URL starts with
    [http]. *)
Theorem url_kept_iff_http (u : str) :
  keep_url (Some u)
  = if Py.startswith u (lit "http") then [u] else [].
Proof.
  unfold keep_url.
  destruct (Py.startswith u (lit "http")) eqn:Hu.
  - rewrite (startswith_http_not_data u Hu). by destruct u.
  - by rewrite andb_false_r.
Qed.

(** X6.  Whenever [get_image_urls] returns, its list holds no URL twice and
    every URL in it starts with [http]. *)
Theorem collected_urls_http_unique
        (W : World) (query : str) (s : State) (urls : list str) :
  (get_image_urls W query s).1 = Val urls ->
  NoDup urls
  /\ Forall (fun u => Py.startswith u (lit "http") = true) urls.
Proof.
  unfold get_image_urls, try_.
  destruct (get_image_urls_try W (search_url query) s) as [[l|e] s'] eqn:Htry;
    simpl.
  2:{ destruct (is_Exception e); simpl; [|done].
      intros H. inversion H; subst. split; [constructor|done]. }
  intros H. inversion H; subst urls. clear H.
  revert Htry. unfold get_image_urls_try, bind, ret.
  destruct (on_driver _ s) as [[[]|] s1]; [|done].
  destruct (time_sleep W 3 s1) as [[[]|] s2]; [|done].
  destruct (for_each (seq 0 15) _ tt s2) as [[[]|] s3]; [|done].
  destruct (call EWaitImgs _ s3) as [[[]|] s4]; [|done].
  destruct (on_driver _ s4) as [[imgs|] s5]; [|done].
  destruct (for_each imgs collect_img [] s5) as [[found|] s6] eqn:Hloop;
    [|done].
  intros H. inversion H; subst l. clear H. split.
  - apply fromkeys_NoDup.
  - apply Forall_forall. intros u Hu. apply (proj1 (fromkeys_elem_of _ _)) in Hu.
    assert (Hall : Forall (fun u => Py.startswith u (lit "http") = true)
                          found).
    { apply (collect_imgs_http imgs [] s5); [done|by rewrite Hloop]. }
    exact (proj1 (Forall_forall _ found) Hall u Hu).
Qed.

Lemma collected_urls_http_unique_witness :
  let W := calm_world [img "http://h.example/a.png";
                       img "data:image/png;base64,AAAA";
                       img "http://h.example/a.png"]
                      (fun _ => Raises RequestException) in
  NoDup [lit "http://h.example/a.png"].
Proof.
  intros W.
  apply (collected_urls_http_unique W (lit "mohinga") (set_driver true fresh)
           [lit "http://h.example/a.png"]).
  vm_compute. reflexivity.
Defined.

(** ** The content type *)

(** X7.  The content type is found under whatever case the server wrote the
    header name in, and its value is compared in lower case: a response
    whose last header set under a name that lower-cases to
    [content-type] has the value [v] counts as an image exactly when
    the lower-cased [v] contains [image]; headers with other names
    have no part in it. *)
Theorem content_type_any_case
        (name value other other_value : str) (h : CaseInsensitiveDict)
        (status : Z) (body : list Byte.byte) :
  Py.lower name = lit "content-type" ->
  Py.lower other <> lit "content-type" ->
  is_image {| status_code := status;
              headers := headers_set other other_value
                           (headers_set name value h);
              content := body |}
  = Py.contains (lit "image") (Py.lower value).
Proof.
  intros Hname Hother. unfold is_image, headers_get, headers_set. simpl.
  change (Py.lower (lit "content-type")) with (lit "content-type").
  rewrite lookup_insert_ne by done.
  by rewrite Hname, lookup_insert_eq.
Qed.

Lemma content_type_any_case_witness :
  is_image {| status_code := 200;
              headers := headers_set (lit "Server") (lit "nginx")
                           (headers_set (lit "CONTENT-Type") (lit "IMAGE/PNG")
                              no_headers);
              content := [] |} = true.
Proof.
  etransitivity.
  - apply (content_type_any_case (lit "CONTENT-Type") (lit "IMAGE/PNG")
             (lit "Server") (lit "nginx") no_headers 200 []).
    + reflexivity.
    + intros H. discriminate H.
  - reflexivity.
Defined.

(** ** File names *)

Section FileNames.

Implicit Types (n i : nat) (s d e food folder : str).

Lemma lit_inj (a b : string) : lit a = lit b -> a = b.
Proof.
  intros H. apply (f_equal string_of_list_ascii) in H.
  unfold lit in H. by rewrite !string_of_list_ascii_of_string in H.
Qed.

Lemma to_uint_not_Nil n : Nat.to_uint n <> Decimal.Nil.
Proof.
  intros H. pose proof (DecimalNat.Unsigned.of_to n) as Hn.
  rewrite H in Hn. simpl in Hn. subst n. discriminate H.
Qed.

Lemma str_of_nat_inj n1 n2 : Py.str_of_nat n1 = Py.str_of_nat n2 -> n1 = n2.
Proof.
  unfold Py.str_of_nat. intros H%lit_inj.
  apply (f_equal NilZero.uint_of_string) in H.
  rewrite !NilZero.usu in H by apply to_uint_not_Nil.
  apply DecimalNat.Unsigned.to_uint_inj. congruence.
Qed.

Lemma string_of_uint_digits (u : Decimal.uint) :
  Forall (fun c => Url.is_digit c = true)
         (lit (NilEmpty.string_of_uint u)).
Proof. induction u; simpl; by constructor. Qed.

Lemma str_of_nat_digits n :
  Forall (fun c => Url.is_digit c = true) (Py.str_of_nat n).
Proof.
  unfold Py.str_of_nat, NilZero.string_of_uint.
  destruct (Nat.to_uint n) eqn:E; try (rewrite <- E; apply string_of_uint_digits).
  by apply to_uint_not_Nil in E.
Qed.

(** Two texts made of digits and followed by something that does not
    start with a digit are equal only when the digits are. *)
Lemma digits_app_inj d1 d2 e1 e2 :
  Forall (fun c => Url.is_digit c = true) d1 ->
  Forall (fun c => Url.is_digit c = true) d2 ->
  from_option Url.is_digit false (head e1) = false ->
  from_option Url.is_digit false (head e2) = false ->
  d1 ++ e1 = d2 ++ e2 -> d1 = d2 /\ e1 = e2.
Proof.
  intros H1. revert d2. induction H1 as [|c d1 Hc H1 IH]; intros d2 H2 He1 He2.
  - destruct H2 as [|c' d2 Hc' H2]; simpl; [done|].
    intros ->. simpl in He1. congruence.
  - destruct H2 as [|c' d2 Hc' H2]; simpl.
    + intros <-. simpl in He2. congruence.
    + intros Heq. inversion Heq; subst.
      destruct (IH d2 H2 He1 He2) as [-> ->]; done.
Qed.

Lemma allowed_extension_head e :
  e ∈ allowed_extensions -> head e = Some "."%char.
Proof.
  intros H. unfold allowed_extensions in H. simpl in H.
  repeat (apply elem_of_cons in H as [->|H]; [done|]).
  by apply elem_of_nil in H.
Qed.

Lemma file_name_inj food i1 i2 e1 e2 :
  e1 ∈ allowed_extensions -> e2 ∈ allowed_extensions ->
  file_name food i1 e1 = file_name food i2 e2 -> i1 = i2 /\ e1 = e2.
Proof.
  intros He1 He2. unfold file_name. intros H.
  apply app_inv_head in H. apply app_inv_head in H.
  apply digits_app_inj in H as [H ->].
  - apply str_of_nat_inj in H. split; [lia|done].
  - apply str_of_nat_digits.
  - apply str_of_nat_digits.
  - by rewrite (allowed_extension_head _ He1).
  - by rewrite (allowed_extension_head _ He2).
Qed.

(** [os.path.join] keeps apart two names that start alike. *)
Lemma join_inj folder a b :
  Py.startswith a (lit "/") = Py.startswith b (lit "/") ->
  OsPath.join folder a = OsPath.join folder b -> a = b.
Proof.
  unfold OsPath.join. intros ->.
  destruct (Py.startswith b (lit "/")); [done|].
  destruct (_ || _).
  - by intros ?%app_inv_head.
  - intros H%app_inv_head. by apply app_inv_head in H.
Qed.

Lemma startswith_nil s : Py.startswith s [] = true.
Proof. by destruct s. Qed.

Lemma file_name_startswith food i1 i2 e1 e2 :
  Py.startswith (file_name food i1 e1) (lit "/")
  = Py.startswith (file_name food i2 e2) (lit "/").
Proof.
  unfold file_name. destruct food; simpl; [done|].
  by rewrite !startswith_nil.
Qed.

End FileNames.

Section DistinctPaths.

Variable W : World.

Lemma file_path_for_inj food folder i1 i2 u1 u2 p :
  file_path_for W food folder i1 u1 = Some p ->
  file_path_for W food folder i2 u2 = Some p ->
  i1 = i2.
Proof.
  unfold file_path_for, file_extension.
  destruct (Url.urlparse (netloc_ok W) u1) as [r1|]; simpl; [|done].
  destruct (Url.urlparse (netloc_ok W) u2) as [r2|]; simpl; [|done].
  intros H1 H2. rewrite <- H2 in H1. clear H2.
  injection H1 as H1.
  apply join_inj in H1; [|apply file_name_startswith].
  apply file_name_inj in H1 as [? _]; [done|apply extension_of_path_allowed..].
Qed.

Lemma candidate_paths_NoDup food folder l : forall start,
  NoDup (candidate_paths W food folder start l).
Proof.
  induction l as [|u l IH]; intros start; [constructor|].
  rewrite candidate_paths_cons. apply NoDup_app. split; [|split; [|apply IH]].
  - unfold candidate_paths. simpl.
    destruct (file_path_for W food folder start u); simpl;
      [apply NoDup_singleton|constructor].
  - intros p Hp Hin. unfold candidate_paths in Hp. simpl in Hp.
    destruct (file_path_for W food folder start u) as [p0|] eqn:Hp0;
      simpl in Hp; [|by apply elem_of_nil in Hp].
    apply list_elem_of_singleton in Hp. subst p0.
    destruct (candidate_paths_named W food folder l p (S start) Hin)
      as (i & u' & ext & Hi & Hext & Hpath).
    assert (Hp' : file_path_for W food folder (S start + i) u' = Some p).
    { unfold file_path_for. rewrite Hext. simpl. by rewrite Hpath. }
    pose proof (file_path_for_inj _ _ _ _ _ _ _ Hp0 Hp'). lia.
Qed.

End DistinctPaths.

(** X8.  Within one run of the download loop no file is opened twice: the
    names built from the positions of the URLs are pairwise different,
    so that a download of the run never overwrites another one of the
    same run. *)
Theorem run_opens_each_file_once
        (W : World) (self : MyanmarFoodScraper)
        (food_name folder_path : str) (image_urls : list str) (s : State) :
  NoDup (candidate_paths W food_name folder_path 0
           (slice_to image_urls (images_per_food self)))
  /\ exists evs,
       trace (download_all W self food_name folder_path image_urls s).2
       = trace s ++ evs
       /\ NoDup (opened evs).
Proof.
  split; [apply candidate_paths_NoDup|].
  unfold download_all.
  destruct (download_loop_trace W food_name folder_path
              (slice_to image_urls (images_per_food self)) O O s)
    as (evs & Htr & _ & Ho & _).
  exists evs. split; [done|].
  eapply sublist_NoDup; [apply candidate_paths_NoDup|exact Ho].
Qed.


(** ** Folders *)

Lemma startswith_slash_cons (c : ascii) (s : str) :
  Py.startswith (c :: s) (lit "/") = Ascii.eqb c "/".
Proof. simpl. by rewrite startswith_nil, andb_true_r. Qed.

(** A name that starts with a slash is not the join of a base that does
    not and of a name that does not. *)
Lemma join_relative_not_absolute (base a b : str) :
  Py.startswith base (lit "/") = false ->
  Py.startswith a (lit "/") = true ->
  Py.startswith b (lit "/") = false ->
  a <> (if negb (Py.truthy base) || Py.startswith (reverse base) (lit "/")
        then base ++ b else base ++ lit "/" ++ b).
Proof.
  intros Hbase Ha Hb Heq. destruct base as [|c base].
  - simpl in Heq. congruence.
  - rewrite startswith_slash_cons in Hbase.
    destruct (_ || _); subst a;
      change ((c :: base) ++ ?x) with (c :: (base ++ x)) in Ha;
      rewrite startswith_slash_cons in Ha; congruence.
Qed.

Lemma join_relative_inj (base a b : str) :
  Py.startswith base (lit "/") = false ->
  OsPath.join base a = OsPath.join base b -> a = b.
Proof.
  intros Hbase.
  destruct (Py.startswith a (lit "/")) eqn:Ha,
           (Py.startswith b (lit "/")) eqn:Hb.
  - apply join_inj. by rewrite Ha, Hb.
  - unfold OsPath.join. rewrite Ha, Hb. intros H.
    by apply join_relative_not_absolute in H.
  - unfold OsPath.join. rewrite Ha, Hb. intros H. symmetry in H.
    by apply join_relative_not_absolute in H.
  - apply join_inj. by rewrite Ha, Hb.
Qed.

(** X9.  Each food is saved in a folder of its own: [create_folder] gives
    different names different paths, and the folders of the twenty foods
    of the scraper are pairwise different. *)
Theorem each_food_its_own_folder
        (W : World) (headless : bool) (images_per_food : Z) :
  let self := init headless images_per_food in
  (forall a b s s' p,
      (create_folder W self a s).1 = Val p ->
      (create_folder W self b s').1 = Val p ->
      a = b)
  /\ NoDup (map (OsPath.join (base_folder self)) (myanmar_foods self)).
Proof.
  intros self. split.
  - intros a b s s' p. unfold create_folder, bind, call, modify, ret.
    destruct (makedirs W _ _); simpl; [|done].
    destruct (makedirs W _ _); simpl; [|done].
    intros H1 H2. rewrite <- H2 in H1. injection H1 as H1.
    by apply (join_relative_inj (base_folder self)).
  - apply NoDup_fmap_2.
    + intros a b. by apply join_relative_inj.
    + apply (bool_decide_unpack _). vm_compute. reflexivity.
Qed.

(** ** The path of a URL and its suffix *)

Section PathFacts.

Implicit Types (c x : ascii) (a b s p : str).

Lemma has_take c n s : Py.has c s = false -> Py.has c (take n s) = false.
Proof.
  intros H. rewrite <- (take_drop n s), has_app in H.
  by apply orb_false_iff in H as [H _].
Qed.

Lemma split_at_first c s : Py.has c (Url.split_at c s).1 = false.
Proof.
  unfold Url.split_at. destruct (Py.has c s) eqn:Hs; simpl; [|done].
  unfold Py.find. destruct (Py.index_of c s) as [i|] eqn:Hi.
  - destruct (index_of_Some _ _ _ Hi) as (a & b & -> & <- & Ha).
    by rewrite upto_app_length.
  - apply index_of_None in Hi. congruence.
Qed.

Lemma split_at_first_keeps c d s :
  Py.has d s = false -> Py.has d (Url.split_at c s).1 = false.
Proof.
  intros H. unfold Url.split_at. destruct (Py.has c s); simpl; [|done].
  by apply has_take.
Qed.

Lemma splitparams_first_keeps d s :
  Py.has d s = false -> Py.has d (Url.splitparams s).1 = false.
Proof.
  intros H. unfold Url.splitparams. destruct (_ <? 0); simpl; [done|].
  by apply has_take.
Qed.

Lemma last_index_of_Some c s i :
  Py.last_index_of c s = Some i ->
  exists a b, s = a ++ c :: b /\ length a = i /\ Py.has c b = false.
Proof.
  revert i. induction s as [|x s IH]; intros i; simpl; [done|].
  destruct (Py.last_index_of c s) as [j|] eqn:Hj.
  - intros [= <-]. destruct (IH j eq_refl) as (a & b & -> & <- & Hb).
    by exists (x :: a), b.
  - destruct (Ascii.eqb_spec x c) as [->|]; [|done].
    intros [= <-]. exists [], s. split; [done|]. split; [done|].
    clear IH. induction s as [|y s IH]; simpl in *; [done|].
    destruct (Py.last_index_of c s); [done|].
    rewrite (Ascii.eqb_sym c y). destruct (Ascii.eqb y c); [done|]. by apply IH.
Qed.

Lemma last_index_of_None c s :
  Py.last_index_of c s = None -> Py.has c s = false.
Proof.
  induction s as [|y s IH]; simpl; [done|].
  destruct (Py.last_index_of c s); [done|].
  rewrite (Ascii.eqb_sym c y). destruct (Ascii.eqb y c); [done|].
  intros _. by apply IH.
Qed.

(** Nothing after the last occurrence. *)
Lemma last_index_of_after c a d b i :
  Py.last_index_of c (a ++ d :: b) = Some i -> (i < length a)%nat ->
  Py.has c b = false.
Proof.
  revert i. induction a as [|x a IH]; intros i; simpl.
  - lia.
  - destruct (Py.last_index_of c (a ++ d :: b)) as [j|] eqn:Hj.
    + intros [= <-] Hlt. apply (IH j); [done|lia].
    + intros _ _. apply last_index_of_None in Hj.
      rewrite has_app in Hj. simpl in Hj.
      apply orb_false_iff in Hj as [_ Hj]. by apply orb_false_iff in Hj as [_ Hj].
Qed.

End PathFacts.

(** X10.  [os.path.splitext] cuts the path in two: the parts put together give
    the path back, and the extension is empty or is a dot followed by
    text that holds neither a dot nor a slash. *)
Theorem splitext_parts (p : str) :
  (OsPath.splitext p).1 ++ (OsPath.splitext p).2 = p
  /\ ((OsPath.splitext p).2 = []
      \/ exists e, (OsPath.splitext p).2 = "."%char :: e
                   /\ Py.has "." e = false /\ Py.has "/" e = false).
Proof.
  unfold OsPath.splitext.
  destruct (_ && _) eqn:Hcond; simpl; [|by rewrite app_nil_r; auto].
  apply andb_true_iff in Hcond as [Hlt _].
  apply Z.ltb_lt in Hlt. unfold Py.rfind in *.
  destruct (Py.last_index_of "." p) as [i|] eqn:Hdot.
  2:{ destruct (Py.last_index_of "/" p); lia. }
  destruct (last_index_of_Some _ _ _ Hdot) as (a & b & -> & <- & Hb).
  rewrite upto_app_length, from_app_length. split; [done|].
  right. exists b. split; [done|]. split; [done|].
  destruct (Py.last_index_of "/" (a ++ "."%char :: b)) as [j|] eqn:Hsep.
  - apply (last_index_of_after _ _ _ _ _ Hsep). lia.
  - apply last_index_of_None in Hsep. rewrite has_app in Hsep. simpl in Hsep.
    by apply orb_false_iff in Hsep as [_ Hsep].
Qed.

(** X11.  The path that [urlparse] gives holds neither the query nor the
    fragment of the URL: there is no question mark and no hash sign in
    it, whatever the URL. *)
Theorem parsed_path_without_query
        (netloc_ok : str -> bool) (img_url : str)
        (parsed : Url.ParseResult) :
  Url.urlparse netloc_ok img_url = Some parsed ->
  Py.has "?" (Url.path parsed) = false
  /\ Py.has "#" (Url.path parsed) = false.
Proof.
  unfold Url.urlparse, Url.urlsplit.
  destruct (Url.split_scheme _) as [sch r1].
  destruct (Url.split_authority r1) as [net r2].
  destruct (netloc_ok net); simpl; [|done].
  pose proof (split_at_first "#" r2) as Hf.
  destruct (Url.split_at "#" r2) as [r3 frag]. simpl in Hf.
  pose proof (split_at_first "?" r3) as Hq.
  pose proof (split_at_first_keeps "?" "#" r3 Hf) as Hf'.
  destruct (Url.split_at "?" r3) as [r4 query]. simpl in *.
  destruct (_ && _).
  - pose proof (splitparams_first_keeps "?" r4 Hq).
    pose proof (splitparams_first_keeps "#" r4 Hf').
    destruct (Url.splitparams r4). simpl in *. by intros [= <-].
  - by intros [= <-].
Qed.

Lemma parsed_path_without_query_witness :
  exists parsed,
    Url.urlparse (fun _ => true) (lit "https://h.example/a/b.png?x=1#top")
    = Some parsed
    /\ Py.has "?" (Url.path parsed) = false.
Proof.
  eexists. split; [reflexivity|].
  eapply (parsed_path_without_query (fun _ => true)
            (lit "https://h.example/a/b.png?x=1#top")).
  reflexivity.
Defined.

(** ** Whole runs *)

Section Runs.

Variable W : World.
Variable self : MyanmarFoodScraper.

Lemma scrape_all_foods_started s :
  makedirs W (length (trace s)) (base_folder self) = Returns tt ->
  chrome_launch W (S (length (trace s))) (headless self) = Returns tt ->
  scrape_all_foods W self s
  = try_finally
      (try_ (for_each (enumerate 1 (myanmar_foods self)) (food_round W self) tt)
            all_foods_catches (fun _ => ret tt))
      (quit_driver W) (started self s).
Proof.
  intros Hmk Hlaunch.
  unfold scrape_all_foods. cbv [bind call modify setup_driver try_].
  rewrite Hmk. cbn [record trace add_dir].
  rewrite length_app, Nat.add_1_r. cbn [length]. rewrite Hlaunch. done.
Qed.

Lemma scrape_single_food_started food s :
  makedirs W (length (trace s)) (base_folder self) = Returns tt ->
  chrome_launch W (S (length (trace s))) (headless self) = Returns tt ->
  scrape_single_food W self food s
  = try_finally
      (try_ (scrape_food_images W self food) is_Exception (fun _ => ret tt))
      (quit_driver W) (started self s).
Proof.
  intros Hmk Hlaunch.
  unfold scrape_single_food. cbv [bind call modify setup_driver try_].
  rewrite Hmk. cbn [record trace add_dir].
  rewrite length_app, Nat.add_1_r. cbn [length]. rewrite Hlaunch. done.
Qed.

Lemma all_foods_catches_all e : all_foods_catches e = true.
Proof. by destruct e. Qed.

Lemma quit_driver_returns s :
  (forall t, driver_quit W t = Returns tt) -> (quit_driver W s).1 = Val tt.
Proof.
  intros Hq. unfold quit_driver, bind, get_state, call.
  destruct (driver s); [|done]. by rewrite Hq.
Qed.

End Runs.

(** X12.  Once the base folder is made and the browser launched,
    [scrape_all_foods] returns normally whatever is raised while the
    foods are processed, a [KeyboardInterrupt] included, as long as
    [driver.quit] returns. *)
Theorem all_foods_run_returns
        (W : World) (self : MyanmarFoodScraper) (s : State) :
  makedirs W (length (trace s)) (base_folder self) = Returns tt ->
  chrome_launch W (S (length (trace s))) (headless self) = Returns tt ->
  (forall t, driver_quit W t = Returns tt) ->
  (scrape_all_foods W self s).1 = Val tt.
Proof.
  intros Hmk Hlaunch Hquit.
  rewrite scrape_all_foods_started by done.
  unfold try_finally, try_.
  destruct (for_each _ _ tt (started self s)) as [[[]|e] s1].
  - pose proof (quit_driver_returns W s1 Hquit) as Hq.
    destruct (quit_driver W s1) as [[[]|] s2]; simpl in *; done.
  - rewrite all_foods_catches_all. simpl.
    pose proof (quit_driver_returns W s1 Hquit) as Hq.
    destruct (quit_driver W s1) as [[[]|] s2]; simpl in *; done.
Qed.

Lemma all_foods_run_returns_witness :
  (scrape_all_foods interrupted_world (init false 30) fresh).1 = Val tt.
Proof.
  apply (all_foods_run_returns interrupted_world (init false 30) fresh);
    reflexivity.
Defined.

(** X13.  [scrape_single_food] has no clause for [KeyboardInterrupt]: once the
    base folder is made and the browser launched, and as long as
    [driver.quit] returns, the run raises exactly when
    [scrape_food_images] raises something that is not an [Exception],
    and then raises the same; every [Exception] is swallowed. *)
Theorem single_food_run_outcome
        (W : World) (self : MyanmarFoodScraper) (food_name : str)
        (s : State) :
  makedirs W (length (trace s)) (base_folder self) = Returns tt ->
  chrome_launch W (S (length (trace s))) (headless self) = Returns tt ->
  (forall t, driver_quit W t = Returns tt) ->
  (scrape_single_food W self food_name s).1
  = match (scrape_food_images W self food_name (started self s)).1 with
    | Val _ => Val tt
    | Exc e => if is_Exception e then Val tt else Exc e
    end.
Proof.
  intros Hmk Hlaunch Hquit.
  rewrite scrape_single_food_started by done.
  unfold try_finally, try_.
  destruct (scrape_food_images W self food_name (started self s))
    as [[[]|e] s1]; simpl.
  - pose proof (quit_driver_returns W s1 Hquit) as Hq.
    destruct (quit_driver W s1) as [[[]|] s2]; simpl in *; done.
  - destruct (is_Exception e); simpl.
    + pose proof (quit_driver_returns W s1 Hquit) as Hq.
      destruct (quit_driver W s1) as [[[]|] s2]; simpl in *; done.
    + pose proof (quit_driver_returns W s1 Hquit) as Hq.
      destruct (quit_driver W s1) as [[[]|] s2]; simpl in *; done.
Qed.

Lemma single_food_run_outcome_witness :
  (scrape_single_food interrupted_world (init false 30) (lit "mohinga")
     fresh).1
  = Exc KeyboardInterrupt.
Proof.
  etransitivity.
  - apply (single_food_run_outcome interrupted_world (init false 30)
             (lit "mohinga") fresh); reflexivity.
  - vm_compute. reflexivity.
Defined.

(** *** The folders of a run *)

Ltac extends_side :=
  first [ by apply extends_with_record
        | by apply extends_with_same_trace ].

Section Folders.

Variable W : World.
Variable self : MyanmarFoodScraper.

Lemma made_dirs_app a b : made_dirs (a ++ b) = made_dirs a ++ made_dirs b.
Proof. apply omap_app. Qed.

Lemma made_dirs_cons p evs :
  made_dirs (EMakedirs p :: evs) = p :: made_dirs evs.
Proof. reflexivity. Qed.

Lemma made_dirs_none evs :
  Forall (fun e => negb (is_makedirs e) = true) evs -> made_dirs evs = [].
Proof.
  induction 1 as [|e evs He _ IH]; [done|].
  destruct e; simpl in He; try discriminate He; exact IH.
Qed.

Lemma pauses_app a b : pauses (a ++ b) = (pauses a + pauses b)%nat.
Proof. unfold pauses. by rewrite List.filter_app, length_app. Qed.

Lemma pauses_none evs :
  Forall (fun e => negb (is_pause e) = true) evs -> pauses evs = O.
Proof.
  induction 1 as [|e evs He _ IH]; [done|].
  unfold pauses in *. simpl. by destruct (is_pause e).
Qed.

Lemma bind_run {A B} (m : M A) (k : A -> M B) s :
  bind m k s = match m s with
               | (Val a, s') => k a s'
               | (Exc e, s') => (Exc e, s')
               end.
Proof. reflexivity. Qed.

Lemma create_folder_run food s :
  let folder := OsPath.join (base_folder self) food in
  create_folder W self food s
  = match makedirs W (length (trace s)) folder with
    | Returns _ => (Val folder, add_dir folder (record (EMakedirs folder) s))
    | Raises e => (Exc e, record (EMakedirs folder) s)
    end.
Proof.
  intros folder. unfold create_folder, bind, call, modify, ret. fold folder.
  by destruct (makedirs W _ folder).
Qed.

Lemma after_folder_no_makedirs food folder :
  respects (extends_with (fun e => negb (is_makedirs e)))
    (image_urls <- get_image_urls W food ;;
     if negb (bool_decide (image_urls = []))
     then download_all W self food folder image_urls ;; ret tt
     else ret tt).
Proof.
  unfold get_image_urls, get_image_urls_try, scroll_once, collect_img,
    time_sleep, download_all, download_one, download_image,
    download_image_try.
  respects_auto; extends_side.
Qed.

Lemma scrape_food_images_no_pause food :
  respects (extends_with (fun e => negb (is_pause e)))
    (scrape_food_images W self food).
Proof.
  unfold scrape_food_images, create_folder, get_image_urls,
    get_image_urls_try, scroll_once, collect_img,
    time_sleep, download_all, download_one, download_image,
    download_image_try.
  respects_auto; extends_side.
Qed.

(** [scrape_food_images] asks for one folder, before anything else. *)
Lemma scrape_food_images_dirs food s :
  exists evs,
    trace (scrape_food_images W self food s).2
    = trace s ++ EMakedirs (OsPath.join (base_folder self) food) :: evs
    /\ made_dirs evs = [].
Proof.
  unfold scrape_food_images. rewrite bind_run, create_folder_run.
  destruct (makedirs W _ _) as [[]|e].
  - destruct (after_folder_no_makedirs food
                (OsPath.join (base_folder self) food)
                (add_dir (OsPath.join (base_folder self) food)
                   (record (EMakedirs (OsPath.join (base_folder self) food)) s)))
      as (evs & Htr & Hevs).
    exists evs. split; [|by apply made_dirs_none].
    rewrite Htr. simpl. by rewrite <- app_assoc.
  - by exists [].
Qed.

Lemma enumerate_snd {A} (l : list A) : forall start,
  map snd (enumerate start l) = l.
Proof. induction l as [|x l IH]; intros start; simpl; [done|]. by rewrite IH. Qed.

Lemma enumerate_length {A} (l : list A) : forall start,
  length (enumerate start l) = length l.
Proof. induction l as [|x l IH]; intros start; simpl; [done|]. by rewrite IH. Qed.

(** The loop over the foods asks for the folders of the foods it reaches,
    in the order of the list. *)
Lemma foods_loop_dirs (l : list (nat * str)) : forall s,
  exists evs k,
    trace (for_each l (food_round W self) tt s).2 = trace s ++ evs
    /\ made_dirs evs
       = map (fun entry => OsPath.join (base_folder self) entry.2) (take k l).
Proof.
  induction l as [|[i food] l IH]; intros s.
  - exists [], O. simpl. by rewrite app_nil_r.
  - rewrite for_each_cons_run. unfold food_round at 1. rewrite bind_run.
    destruct (scrape_food_images_dirs food s) as (evs1 & Htr1 & Hd1).
    destruct (scrape_food_images W self food s) as [[[]|e] s1];
      cbn [fst snd] in *.
    2:{ exists (EMakedirs (OsPath.join (base_folder self) food) :: evs1), 1%nat.
        split; [done|]. by rewrite made_dirs_cons, Hd1. }
    assert (Hpause : exists evs2 r,
               (if bool_decide (i < length (myanmar_foods self))%nat
                then time_sleep W 5 else ret tt) s1 = (r, (* state *)
                  {| driver := driver s1; dirs := dirs s1; files := files s1;
                     trace := trace s1 ++ evs2 |})
               /\ made_dirs evs2 = []).
    { destruct (bool_decide _).
      - exists [ESleep 5]. unfold time_sleep, call.
        destruct (sleep W _ 5); eexists; split; done.
      - exists [], (Val tt). unfold ret. rewrite app_nil_r.
        split; [by destruct s1|done]. }
    destruct Hpause as (evs2 & r & -> & Hd2).
    destruct r as [[]|e].
    + destruct (IH {| driver := driver s1; dirs := dirs s1; files := files s1;
                      trace := trace s1 ++ evs2 |})
        as (evs3 & k & Htr3 & Hd3).
      exists (EMakedirs (OsPath.join (base_folder self) food)
                :: evs1 ++ evs2 ++ evs3), (S k).
      split.
      * rewrite Htr3. simpl. rewrite Htr1. by rewrite <- !app_assoc.
      * rewrite made_dirs_cons, !made_dirs_app, Hd1, Hd2, Hd3. done.
    + exists (EMakedirs (OsPath.join (base_folder self) food)
                :: evs1 ++ evs2), 1%nat.
      split.
      * simpl. rewrite Htr1. by rewrite <- !app_assoc.
      * rewrite made_dirs_cons, !made_dirs_app, Hd1, Hd2. done.
Qed.

End Folders.

(** X14.  In every run of [scrape_all_foods] the foods are taken in the order
    of the list, each at most once: the folders the run asks
    [os.makedirs] for are the base folder followed by the folders of the
    first [k] foods, for some [k]. *)
Theorem foods_processed_in_order
        (W : World) (self : MyanmarFoodScraper) (s : State) :
  exists evs k,
    trace (scrape_all_foods W self s).2 = trace s ++ evs
    /\ made_dirs evs
       = base_folder self
         :: map (OsPath.join (base_folder self))
                (take k (myanmar_foods self)).
Proof.
  destruct (makedirs W (length (trace s)) (base_folder self))
    as [[]|e] eqn:Hmk.
  2:{ exists [EMakedirs (base_folder self)], O.
      unfold scrape_all_foods, bind, call. rewrite Hmk. done. }
  destruct (chrome_launch W (S (length (trace s))) (headless self))
    as [[]|e] eqn:Hlaunch.
  2:{ exists [EMakedirs (base_folder self); ELaunch (headless self)], O.
      unfold scrape_all_foods. cbv [bind call modify setup_driver try_].
      rewrite Hmk. cbn [record trace add_dir].
      rewrite length_app, Nat.add_1_r. cbn [length]. rewrite Hlaunch.
      destruct (is_Exception e); simpl; by rewrite <- app_assoc. }
  rewrite scrape_all_foods_started by done.
  destruct (foods_loop_dirs W self (enumerate 1 (myanmar_foods self))
              (started self s)) as (evs & k & Htr & Hd).
  unfold try_finally, try_.
  destruct (for_each _ _ tt (started self s)) as [r s1]. cbn [fst snd] in *.
  assert (Hs2 : exists s2, trace s2 = trace s1 /\
            (match r with
             | Val a => (Val a, s1)
             | Exc e => if all_foods_catches e then ret tt s1 else (Exc e, s1)
             end).2 = s2).
  { exists s1. split; [done|]. destruct r as [[]|e]; [done|].
    by rewrite all_foods_catches_all. }
  destruct Hs2 as (s2 & Htr2 & Hs2).
  destruct (match r with Val a => _ | Exc e => _ end) as [r2 s2'].
  simpl in Hs2. subst s2'.
  assert (Hq : exists evq, trace (quit_driver W s2).2 = trace s2 ++ evq
                           /\ made_dirs evq = []).
  { unfold quit_driver, bind, get_state, call, ret.
    destruct (driver s2).
    - exists [EQuit]. by destruct (driver_quit W _).
    - exists []. by rewrite app_nil_r. }
  destruct Hq as (evq & Hq & Hdq).
  exists (EMakedirs (base_folder self) :: ELaunch (headless self)
            :: evs ++ evq), k.
  split.
  - destruct (quit_driver W s2) as [[[]|e] s3]; simpl in *;
      rewrite Hq, Htr2, Htr; simpl; by rewrite <- !app_assoc.
  - rewrite made_dirs_cons.
    change (made_dirs (ELaunch ?h :: ?r)) with (made_dirs r).
    rewrite !made_dirs_app, Hd, Hdq, app_nil_r.
    f_equal. rewrite <- (enumerate_snd (myanmar_foods self) 1) at 2.
    rewrite <- fmap_take, <- list_fmap_compose. done.
Qed.

(** *** A run that nothing stops *)

Section CompleteRun.

Variable W : World.
Variable self : MyanmarFoodScraper.
Hypothesis HW : exceptions_only W.
Hypothesis Hmakedirs : forall t p, makedirs W t p = Returns tt.
Hypothesis Hsleep : forall t, sleep W t 5 = Returns tt.

Lemma get_image_urls_returns query s :
  exists urls, (get_image_urls W query s).1 = Val urls.
Proof.
  destruct (try_guarded_returns (get_image_urls_try W (search_url query))
              (fun _ => ret []) [] s) as (urls & Hurls & _); [|done|eauto].
  by apply get_image_urls_try_guarded.
Qed.

Lemma scrape_food_images_completes food s :
  (scrape_food_images W self food s).1 = Val tt.
Proof.
  unfold scrape_food_images. rewrite bind_run, create_folder_run, Hmakedirs.
  rewrite bind_run.
  destruct (get_image_urls_returns food
              (add_dir (OsPath.join (base_folder self) food)
                 (record (EMakedirs (OsPath.join (base_folder self) food)) s)))
    as [urls Hurls].
  destruct (get_image_urls W food _) as [r s1]. simpl in Hurls. subst r.
  destruct (negb _); [|done].
  rewrite bind_run. unfold download_all.
  destruct (download_loop_completes W food
              (OsPath.join (base_folder self) food)
              (slice_to urls (images_per_food self)) HW O O s1)
    as (c & evs & Hc & _).
  destruct (for_each _ _ O s1) as [r s2]. simpl in Hc. by subst r.
Qed.

(** The loop over the last foods of the list: every one of them is
    processed, with a pause after each but the last. *)
Lemma foods_loop_completes (l : list str) : forall start s,
  (start + length l = S (length (myanmar_foods self)))%nat ->
  exists evs,
    (for_each (enumerate start l) (food_round W self) tt s).1 = Val tt
    /\ trace (for_each (enumerate start l) (food_round W self) tt s).2
       = trace s ++ evs
    /\ made_dirs evs = map (OsPath.join (base_folder self)) l
    /\ pauses evs = Nat.pred (length l).
Proof.
  induction l as [|food l IH]; intros start s Hlen.
  - exists []. simpl. by rewrite app_nil_r.
  - change (enumerate start (food :: l))
      with ((start, food) :: enumerate (S start) l).
    rewrite for_each_cons_run. unfold food_round at 1 3. rewrite bind_run.
    destruct (scrape_food_images_dirs W self food s) as (evs1 & Htr1 & Hd1).
    destruct (scrape_food_images_no_pause W self food s) as (evs1' & Htr1' & Hp1).
    pose proof (scrape_food_images_completes food s) as Hret.
    destruct (scrape_food_images W self food s) as [r s1].
    cbn [fst snd] in *. subst r.
    rewrite Htr1 in Htr1'. apply app_inv_head in Htr1'. subst evs1'.
    apply pauses_none in Hp1.
    simpl in Hlen.
    case_bool_decide as Hlast.
    + unfold time_sleep at 1 2, call at 1 2. rewrite Hsleep.
      destruct (IH (S start) (record (ESleep 5) s1)) as (evs2 & Hr2 & Htr2 & Hd2 & Hp2);
        [lia|].
      exists ((EMakedirs (OsPath.join (base_folder self) food) :: evs1)
                ++ [ESleep 5] ++ evs2).
      split; [done|]. split.
      * rewrite Htr2. simpl. rewrite Htr1. by rewrite <- !app_assoc.
      * split.
        -- by rewrite made_dirs_app, made_dirs_cons, Hd1, made_dirs_app, Hd2.
        -- rewrite !pauses_app, Hp1, Hp2. simpl.
           destruct l; simpl in *; [lia|]. unfold pauses. simpl. lia.
    + assert (l = []) as -> by (destruct l; [done|simpl in *; lia]).
      exists (EMakedirs (OsPath.join (base_folder self) food) :: evs1).
      split; [done|]. split; [done|]. split.
      * by rewrite made_dirs_cons, Hd1.
      * exact Hp1.
Qed.

End CompleteRun.

(** X15.  When nothing is interrupted and [os.makedirs], the launch, the pause
    between foods and [driver.quit] succeed, [scrape_all_foods] processes
    every food of the list, in order, pauses five seconds after each food
    but the last, and returns normally. *)
Theorem all_foods_complete_run
        (W : World) (self : MyanmarFoodScraper) (s : State) :
  exceptions_only W ->
  (forall t p, makedirs W t p = Returns tt) ->
  (forall t h, chrome_launch W t h = Returns tt) ->
  (forall t, sleep W t 5 = Returns tt) ->
  (forall t, driver_quit W t = Returns tt) ->
  exists evs,
    (scrape_all_foods W self s).1 = Val tt
    /\ trace (scrape_all_foods W self s).2 = trace s ++ evs
    /\ made_dirs evs
       = base_folder self
         :: map (OsPath.join (base_folder self)) (myanmar_foods self)
    /\ pauses evs = Nat.pred (length (myanmar_foods self)).
Proof.
  intros HW Hmk Hlaunch Hsleep Hquit.
  rewrite scrape_all_foods_started by done.
  destruct (foods_loop_completes W self HW Hmk Hsleep (myanmar_foods self)
              1 (started self s)) as (evs & Hr & Htr & Hd & Hp); [done|].
  unfold try_finally, try_.
  destruct (for_each _ _ tt (started self s)) as [r s1]. cbn [fst snd] in *.
  subst r.
  assert (Hq : exists evq,
               (quit_driver W s1).1 = Val tt
               /\ trace (quit_driver W s1).2 = trace s1 ++ evq
               /\ made_dirs evq = [] /\ pauses evq = O).
  { unfold quit_driver, bind, get_state, call, ret.
    destruct (driver s1).
    - exists [EQuit]. by rewrite Hquit.
    - exists []. by rewrite app_nil_r. }
  destruct Hq as (evq & Hrq & Htrq & Hdq & Hpq).
  destruct (quit_driver W s1) as [rq s2]. cbn [fst snd] in *. subst rq.
  exists (EMakedirs (base_folder self) :: ELaunch (headless self)
            :: evs ++ evq).
  split; [done|]. split.
  - cbn [snd]. rewrite Htrq, Htr. simpl. by rewrite <- !app_assoc.
  - split.
    + rewrite made_dirs_cons.
      change (made_dirs (ELaunch ?h :: ?r)) with (made_dirs r).
      by rewrite made_dirs_app, Hd, Hdq, app_nil_r.
    + change (pauses (EMakedirs ?p :: ELaunch ?h :: ?r)) with (pauses r).
      rewrite pauses_app, Hp, Hpq. lia.
Qed.

Lemma all_foods_complete_run_witness :
  exists evs,
    trace (scrape_all_foods (calm_world [] (fun _ => Raises RequestException))
             (init false 30) fresh).2 = evs
    /\ pauses evs = 19%nat.
Proof.
  destruct (all_foods_complete_run
              (calm_world [] (fun _ => Raises RequestException))
              (init false 30) fresh)
    as (evs & _ & Htr & _ & Hp); try done.
  - split; intros; simpl; done.
  - exists evs. split; [exact Htr|exact Hp].
Defined.

(** ** The count of downloads *)

Section Count.

Variable W : World.

(** One round of the download loop adds one to the count exactly when
    [download_image] returned [True], and then a file was opened. *)
Lemma download_one_count food folder i u c s :
  exists evs,
    trace (download_one W food folder (i, u) c s).2 = trace s ++ evs
    /\ (length (opened evs) <= length (fetched evs))%nat
    /\ forall c1, (download_one W food folder (i, u) c s).1 = Val c1 ->
         (c <= c1 <= c + length (opened evs))%nat
         /\ ((forall t p, open_wb W t p = Returns tt) ->
             (forall t p, write_bytes W t p = Returns tt) ->
             c1 = (c + length (opened evs))%nat).
Proof.
  unfold download_one.
  destruct (file_path_for W food folder i u) as [p|].
  2:{ exists []. rewrite app_nil_r. split; [done|]. split; [done|].
      intros c1 [= <-]. simpl. split; [lia|]. intros _ _. lia. }
  cbv [download_image download_image_try try_ bind call lift modify ret raise].
  destruct (requests_get W _ u) as [response|e]; cbn [record trace].
  2:{ exists [EFetch u].
      destruct (is_Exception e) eqn:He; cbn; rewrite ?He; cbn.
      all: split; [done|]; split; [lia|]; intros c1 Hc1;
        try discriminate Hc1; injection Hc1 as <-.
      split; [lia|]. intros _ _. lia. }
  destruct (raise_for_status response) as [[]|e]; cbn [record trace].
  2:{ exists [EFetch u].
      destruct (is_Exception e) eqn:He; cbn; rewrite ?He; cbn.
      all: split; [done|]; split; [lia|]; intros c1 Hc1;
        try discriminate Hc1; injection Hc1 as <-.
      split; [lia|]. intros _ _. lia. }
  destruct (is_image response); cbn [negb record trace].
  2:{ exists [EFetch u]. cbn.
      split; [done|]. split; [lia|]. intros c1 [= <-].
      split; [lia|]; intros _ _; lia. }
  destruct (open_wb W _ p) as [[]|e] eqn:Hopen; cbn [record trace put_file].
  2:{ exists [EFetch u; EOpen p].
      destruct (is_Exception e) eqn:He; cbn; rewrite ?He; cbn.
      all: rewrite <- app_assoc; split; [done|]; split; [lia|];
        intros c1 Hc1; try discriminate Hc1; injection Hc1 as <-.
      split; [lia|]. intros Ho _. rewrite Ho in Hopen. discriminate Hopen. }
  destruct (write_bytes W _ p) as [[]|e] eqn:Hwrite; cbn [record trace put_file].
  - exists [EFetch u; EOpen p; EWrite p]. cbn. rewrite <- !app_assoc.
    split; [done|]. split; [lia|]. intros c1 [= <-].
    split; [lia|]. intros _ _. lia.
  - exists [EFetch u; EOpen p; EWrite p].
    destruct (is_Exception e) eqn:He; cbn; rewrite ?He; cbn.
    all: rewrite <- !app_assoc; split; [done|]; split; [lia|];
      intros c1 Hc1; try discriminate Hc1; injection Hc1 as <-.
    split; [lia|]. intros _ Hw. rewrite Hw in Hwrite. discriminate Hwrite.
Qed.

Lemma download_loop_count food folder l : forall start c s,
  exists evs,
    trace (for_each (enumerate start l) (download_one W food folder) c s).2
    = trace s ++ evs
    /\ (length (opened evs) <= length (fetched evs))%nat
    /\ forall c',
         (for_each (enumerate start l) (download_one W food folder) c s).1
         = Val c' ->
         (c <= c' <= c + length (opened evs))%nat
         /\ ((forall t p, open_wb W t p = Returns tt) ->
             (forall t p, write_bytes W t p = Returns tt) ->
             c' = (c + length (opened evs))%nat).
Proof.
  induction l as [|u l IH]; intros start c s.
  - exists []. rewrite app_nil_r. split; [done|]. split; [done|].
    intros c' [= <-]. simpl. split; [lia|]. intros _ _. lia.
  - change (enumerate start (u :: l))
      with ((start, u) :: enumerate (S start) l).
    rewrite for_each_cons_run.
    destruct (download_one_count food folder start u c s)
      as (evs1 & Htr1 & Hf1 & Hc1).
    destruct (download_one W food folder (start, u) c s) as [[c1|e] s1];
      cbn [fst snd] in *.
    + destruct (IH (S start) c1 s1) as (evs2 & Htr2 & Hf2 & Hc2).
      exists (evs1 ++ evs2). rewrite Htr2, Htr1, app_assoc. split; [done|].
      rewrite opened_app, fetched_app, !length_app. split; [lia|].
      intros c' Hc'. destruct (Hc1 c1 eq_refl) as [Hb1 He1].
      destruct (Hc2 c' Hc') as [Hb2 He2].
      split; [lia|].
      intros Ho Hw. rewrite (He2 Ho Hw), (He1 Ho Hw). lia.
    + exists evs1. split; [done|]. split; [done|].
      intros c' Hc'. discriminate Hc'.
Qed.

End Count.

(** X16.  The count that [scrape_food_images] logs at the end is the number of
    downloads that returned [True]: it never exceeds the number of files
    the loop opened, and equals it when no file fails to open or to be
    written. *)
Theorem downloaded_count_bounded
        (W : World) (self : MyanmarFoodScraper)
        (food_name folder_path : str) (image_urls : list str)
        (s : State) (downloaded_count : nat) :
  (download_all W self food_name folder_path image_urls s).1
  = Val downloaded_count ->
  exists evs,
    trace (download_all W self food_name folder_path image_urls s).2
    = trace s ++ evs
    /\ (downloaded_count <= length (opened evs))%nat
    /\ (length (opened evs) <= length (fetched evs))%nat
    /\ ((forall t p, open_wb W t p = Returns tt) ->
        (forall t p, write_bytes W t p = Returns tt) ->
        downloaded_count = length (opened evs)).
Proof.
  unfold download_all. intros Hcount.
  destruct (download_loop_count W food_name folder_path
              (slice_to image_urls (images_per_food self)) O O s)
    as (evs & Htr & Hf & Hc).
  destruct (Hc downloaded_count Hcount) as [Hb He].
  exists evs. split; [done|]. split; [lia|]. split; done.
Qed.

Lemma downloaded_count_bounded_witness :
  exists evs,
    trace (download_all three_of_five (init false 30) (lit "mohinga")
             (lit "Myanmar_Food_Images/mohinga") five_urls fresh).2
    = trace fresh ++ evs
    /\ 3%nat = length (opened evs).
Proof.
  destruct (downloaded_count_bounded three_of_five (init false 30)
              (lit "mohinga") (lit "Myanmar_Food_Images/mohinga")
              five_urls fresh 3)
    as (evs & Htr & _ & _ & Heq).
  - vm_compute. reflexivity.
  - exists evs. split; [exact Htr|]. apply Heq; reflexivity.
Defined.

Example int_examples :
  Builtins.int (lit "12") = Some 12
  /\ Builtins.int (lit " +1_000 ") = Some 1000
  /\ Builtins.int (lit "-07") = Some (-7)
  /\ Builtins.int (lit "") = None
  /\ Builtins.int (lit "1__0") = None
  /\ Builtins.int (lit "_1") = None
  /\ Builtins.int (lit "1_") = None
  /\ Builtins.int (lit "- 1") = None
  /\ Builtins.int (lit "mohinga") = None
  /\ Builtins.int (lit "1 2") = None
  /\ Builtins.strip (lit "  2 ") = lit "2"
  /\ Builtins.format_2d 3 = lit " 3"
  /\ Builtins.format_2d 12 = lit "12"
  /\ Builtins.format_2d 123 = lit "123".
Proof. repeat split; vm_compute; reflexivity. Qed.

(** ** The command line *)

Section BuiltinFacts.

Implicit Types (c : ascii) (s d : str) (n k : nat).

Lemma lstrip_keep (f : ascii -> bool) c s :
  f c = false -> Py.lstrip f (c :: s) = c :: s.
Proof. intros H. simpl. by rewrite H. Qed.

Lemma lstrip_replicate (f : ascii -> bool) c m s :
  f c = true -> Py.lstrip f (replicate m c ++ s) = Py.lstrip f s.
Proof. intros H. induction m as [|m IH]; simpl; [done|]. by rewrite H. Qed.

Lemma digit_not_space c :
  Url.is_digit c = true ->
  Builtins.isspace c = false /\ Builtins.int_isspace c = false
  /\ Ascii.eqb c "+" = false /\ Ascii.eqb c "-" = false
  /\ Ascii.eqb c "_" = false.
Proof.
  destruct c as [[] [] [] [] [] [] [] []]; intros H;
    try discriminate H; by vm_compute.
Qed.

Lemma str_of_nat_head n :
  exists c d, Py.str_of_nat n = c :: d /\ Url.is_digit c = true.
Proof.
  pose proof (str_of_nat_digits n) as H.
  destruct (Py.str_of_nat n) as [|c d] eqn:E.
  - unfold Py.str_of_nat, NilZero.string_of_uint in E.
    pose proof (to_uint_not_Nil n). by destruct (Nat.to_uint n).
  - exists c, d. split; [done|]. by inversion H.
Qed.

Lemma str_of_nat_last n :
  exists d c, Py.str_of_nat n = d ++ [c] /\ Url.is_digit c = true.
Proof.
  pose proof (str_of_nat_digits n) as H.
  destruct (str_of_nat_head n) as (c0 & d0 & E & _).
  destruct (Py.str_of_nat n) as [|x l] using rev_ind; [done|].
  exists l, x. split; [done|].
  apply Forall_app in H as [_ H]. by inversion H.
Qed.

(** Stripping the menu label gives the number back. *)
Lemma strip_format_2d n :
  Builtins.strip (Builtins.format_2d n) = Py.str_of_nat n.
Proof.
  unfold Builtins.strip, Builtins.format_2d, Builtins.rstrip.
  rewrite lstrip_replicate by reflexivity.
  destruct (str_of_nat_head n) as (c & d & E & Hc).
  destruct (str_of_nat_last n) as (d' & c' & E' & Hc').
  rewrite E, lstrip_keep by apply (digit_not_space c Hc).
  rewrite <- E, E', reverse_app, reverse_singleton. cbn [app].
  rewrite lstrip_keep by apply (digit_not_space c' Hc').
  by rewrite reverse_cons, reverse_involutive.
Qed.

Lemma scan_digits_all d : forall acc,
  Forall (fun c => Url.is_digit c = true) d ->
  Builtins.scan_digits d false acc = Some (acc ++ d, []).
Proof.
  induction d as [|c d IH]; intros acc Hd; simpl.
  - by rewrite app_nil_r.
  - inversion Hd as [|? ? Hc Hd']; subst. rewrite Hc, IH by done.
    by rewrite <- app_assoc.
Qed.

Lemma value_of_uint (u : Decimal.uint) : forall acc : nat,
  fold_left (fun v c => 10 * v + Builtins.digit_value c)
            (lit (NilEmpty.string_of_uint u)) (Z.of_nat acc)
  = Z.of_nat (Nat.of_uint_acc u acc).
Proof.
  induction u; intros acc;
    cbn [NilEmpty.string_of_uint lit list_ascii_of_string fold_left
         Nat.of_uint_acc]; [done|..];
    rewrite <- IHu; f_equal; rewrite Nat.tail_mul_spec;
    match goal with
    | |- context [Builtins.digit_value ?c] =>
        let v := eval vm_compute in (Builtins.digit_value c) in
        change (Builtins.digit_value c) with v
    end; lia.
Qed.

Lemma value_of_str_of_nat n :
  Builtins.value_of (Py.str_of_nat n) = Z.of_nat n.
Proof.
  unfold Builtins.value_of, Py.str_of_nat, NilZero.string_of_uint.
  pose proof (to_uint_not_Nil n) as Hnil.
  rewrite <- (DecimalNat.Unsigned.of_to n) at 2. unfold Nat.of_uint.
  rewrite <- value_of_uint. by destruct (Nat.to_uint n).
Qed.

Lemma succ_nb_digits (u : Decimal.uint) :
  (Decimal.nb_digits (Decimal.Little.succ u) <= S (Decimal.nb_digits u))%nat.
Proof. induction u; simpl; lia. Qed.

Lemma string_of_uint_length (u : Decimal.uint) :
  length (lit (NilEmpty.string_of_uint u)) = Decimal.nb_digits u.
Proof. induction u; simpl; congruence. Qed.

Lemma str_of_nat_length n : (length (Py.str_of_nat n) <= S n)%nat.
Proof.
  unfold Py.str_of_nat, NilZero.string_of_uint.
  assert (H : (Decimal.nb_digits (Nat.to_uint n) <= S n)%nat).
  { rewrite DecimalNat.Unsigned.to_uint_alt, DecimalFacts.nb_digits_rev.
    induction n as [|n IH]; [simpl; lia|].
    rewrite DecimalNat.Unsigned.to_lu_succ.
    pose proof (succ_nb_digits (DecimalNat.Unsigned.to_lu n)). lia. }
  pose proof (to_uint_not_Nil n) as Hnil.
  rewrite <- string_of_uint_length in H.
  by destruct (Nat.to_uint n).
Qed.

(** [int(str(n)) == n], as long as [str(n)] is not too long for [int]. *)
Lemma int_str_of_nat n :
  (n < Builtins.int_max_str_digits)%nat ->
  Builtins.int (Py.str_of_nat n) = Some (Z.of_nat n).
Proof.
  intros Hn. unfold Builtins.int.
  destruct (str_of_nat_head n) as (c & d & E & Hc).
  destruct (digit_not_space c Hc) as (_ & Hsp & Hplus & Hminus & Hunder).
  rewrite E, lstrip_keep by done. rewrite Hplus, Hminus.
  change (Py.startswith (c :: d) (lit "_"))
    with (Ascii.eqb c "_" && Py.startswith d []).
  rewrite Hunder. cbn [andb].
  rewrite <- E, scan_digits_all by apply str_of_nat_digits.
  cbn [app]. rewrite bool_decide_eq_false_2 by by rewrite E.
  pose proof (str_of_nat_length n).
  destruct (Nat.ltb_spec Builtins.int_max_str_digits
              (length (Py.str_of_nat n))); [lia|].
  cbn [forallb]. rewrite value_of_str_of_nat. f_equal. lia.
Qed.

End BuiltinFacts.

Section IntFacts.

Implicit Types (c : ascii) (s d : str) (n k : nat).

Lemma lstrip_split (f : ascii -> bool) s :
  exists pre, s = pre ++ Py.lstrip f s /\ Forall (fun c => f c = true) pre.
Proof.
  induction s as [|c s (pre & IH & Hpre)]; [by exists []|]. simpl.
  destruct (f c) eqn:Hc; [|by exists []].
  exists (c :: pre). split; [simpl; by f_equal|by constructor].
Qed.

Lemma forallb_Forall (f : ascii -> bool) s :
  forallb f s = true -> Forall (fun c => f c = true) s.
Proof.
  induction s as [|c s IH]; simpl; [by constructor|].
  intros [Hc Hs]%andb_true_iff. constructor; [done|by apply IH].
Qed.

Lemma scan_digits_consumed s : forall p acc d rest,
  Builtins.scan_digits s p acc = Some (d, rest) ->
  exists consumed,
    s = consumed ++ rest
    /\ Forall (fun c => Url.is_digit c || Ascii.eqb c "_" = true) consumed.
Proof.
  induction s as [|c s IH]; intros p acc d rest; simpl.
  - destruct p; [done|]. intros [= <- <-]. by exists [].
  - destruct (Url.is_digit c) eqn:Hd.
    + intros (consumed & -> & Hc)%IH. exists (c :: consumed).
      split; [done|]. constructor; [by rewrite Hd|done].
    + destruct (Ascii.eqb c "_") eqn:Hu.
      * destruct p; [done|].
        intros (consumed & -> & Hc)%IH. exists (c :: consumed).
        split; [done|]. constructor; [by rewrite Hu, orb_true_r|done].
      * destruct p; [done|]. intros [= <- <-]. by exists [].
Qed.

(** A string that [int()] accepts holds nothing but white space, a
    sign, digits and underscores. *)
Lemma int_unsigned_chars (sign : Z) s z :
  (if Py.startswith s (lit "_") then None
   else match Builtins.scan_digits s false [] with
        | Some (digits, rest) =>
            if bool_decide (digits = []) then None
            else if (Builtins.int_max_str_digits <? length digits)%nat
                 then None
                 else if forallb Builtins.int_isspace rest
                      then Some (sign * Builtins.value_of digits) else None
        | None => None
        end) = Some z ->
  Forall (fun c => Builtins.int_char c = true) s.
Proof.
  destruct (Py.startswith s (lit "_")); [done|].
  destruct (Builtins.scan_digits s false []) as [[digits rest]|] eqn:Hscan;
    [|done].
  destruct (bool_decide _); [done|].
  destruct (_ <? _)%nat; [done|].
  destruct (forallb _ rest) eqn:Hsp; [|done]. intros _.
  apply scan_digits_consumed in Hscan as (consumed & -> & Hc).
  apply Forall_app. split.
  - eapply Forall_impl; [exact Hc|]. intros c Hcc. unfold Builtins.int_char.
    apply orb_true_iff in Hcc as [->| ->]; by rewrite ?orb_true_r.
  - apply forallb_Forall in Hsp.
    eapply Forall_impl; [exact Hsp|]. intros c Hcc.
    unfold Builtins.int_char. by rewrite Hcc.
Qed.

(** A string that [int()] accepts holds nothing but white space, a
    sign, digits and underscores. *)
Lemma int_Some_chars s z :
  Builtins.int s = Some z -> Forall (fun c => Builtins.int_char c = true) s.
Proof.
  unfold Builtins.int.
  destruct (lstrip_split Builtins.int_isspace s) as (pre & Hs & Hpre).
  rewrite Hs at 2. clear Hs.
  set (s1 := Py.lstrip Builtins.int_isspace s). clearbody s1.
  assert (Hpre' : Forall (fun c => Builtins.int_char c = true) pre).
  { eapply Forall_impl; [exact Hpre|]. intros c Hc. unfold Builtins.int_char.
    by rewrite Hc. }
  destruct s1 as [|c s1].
  { intros _. by rewrite app_nil_r. }
  destruct (Ascii.eqb c "+") eqn:Hplus.
  { intros H. apply Forall_app. split; [done|]. constructor.
    - unfold Builtins.int_char. by rewrite Hplus, ?orb_true_r.
    - exact (int_unsigned_chars 1 s1 z H). }
  destruct (Ascii.eqb c "-") eqn:Hminus.
  { intros H. apply Forall_app. split; [done|]. constructor.
    - unfold Builtins.int_char. by rewrite Hminus, ?orb_true_r.
    - exact (int_unsigned_chars (-1) s1 z H). }
  intros H. apply Forall_app. split; [done|].
  exact (int_unsigned_chars 1 (c :: s1) z H).
Qed.

Lemma letter_not_int_char c :
  Url.is_ascii_alpha c = true -> Builtins.int_char c = false.
Proof.
  destruct c as [[] [] [] [] [] [] [] []]; intros H;
    try discriminate H; by vm_compute.
Qed.

Lemma int_letter c s :
  c ∈ s -> Url.is_ascii_alpha c = true -> Builtins.int s = None.
Proof.
  intros Hin Hc. destruct (Builtins.int s) as [z|] eqn:Hint; [|done].
  apply int_Some_chars in Hint.
  pose proof (proj1 (Forall_forall _ _) Hint c Hin) as H. simpl in H.
  by rewrite (letter_not_int_char c Hc) in H.
Qed.

End IntFacts.

(** X17.  The number shown next to a food in the menu selects that food: when
    the first answer is [2] and the second one is the label printed
    before the food at position [k] of the list (or any text that strips
    to the same number), [main] runs [scrape_single_food] on that food.
    For any list of fewer than 4300 foods, [select_food] takes the
    stripped label of a position to the food at that position. *)
Theorem menu_number_selects_food
        (W : World) (stdin : nat -> str) (k : nat) (food : str) (s : State) :
  Builtins.strip (stdin O) = lit "2" ->
  Builtins.strip (stdin 1%nat) = Builtins.strip (menu_label k) ->
  myanmar_foods (init false 30) !! k = Some food ->
  main W stdin s = scrape_single_food W (init false 30) food s
  /\ forall foods k' food',
       (length foods < Builtins.int_max_str_digits)%nat ->
       foods !! k' = Some food' ->
       select_food foods (Builtins.strip (menu_label k')) = Some food'.
Proof.
  intros Hchoice Hanswer Hfood.
  assert (Hselect : forall foods k' food',
             (length foods < Builtins.int_max_str_digits)%nat ->
             foods !! k' = Some food' ->
             select_food foods (Builtins.strip (menu_label k')) = Some food').
  { intros foods k' food' Hlen Hk'.
    pose proof (lookup_lt_Some _ _ _ Hk') as Hlt.
    unfold select_food, menu_label.
    rewrite strip_format_2d, int_str_of_nat by lia.
    replace (Z.of_nat (k' + 1) - 1) with (Z.of_nat k') by lia.
    destruct (Z.leb_spec 0 (Z.of_nat k')); [|lia].
    destruct (Z.ltb_spec (Z.of_nat k') (Z.of_nat (length foods))); [|lia].
    by rewrite Nat2Z.id. }
  split; [|exact Hselect].
  unfold main. rewrite Hchoice.
  rewrite (bool_decide_eq_false_2 (lit "2" = lit "1")) by (intros H; discriminate H).
  rewrite (bool_decide_eq_true_2 (lit "2" = lit "2")) by done.
  rewrite Hanswer, (Hselect _ k food); [done| |done].
  vm_compute. lia.
Qed.

Lemma menu_number_selects_food_witness :
  main (calm_world [] (fun _ => Raises RequestException))
       (fun n => match n with O => lit "2" | _ => lit " 3 " end) fresh
  = scrape_single_food (calm_world [] (fun _ => Raises RequestException))
      (init false 30) (lit "shan noodles") fresh.
Proof.
  apply (menu_number_selects_food
           (calm_world [] (fun _ => Raises RequestException))
           (fun n => match n with O => lit "2" | _ => lit " 3 " end)
           2 (lit "shan noodles") fresh); reflexivity.
Defined.

(** X18.  [main] does nothing at all (no folder, no browser, no download) when
    the first answer is neither [1] nor [2], and when it is [2] and the
    second answer is a number outside the menu, zero and the negative
    numbers included. *)
Theorem main_idle_on_bad_answer
        (W : World) (stdin : nat -> str) (s : State) :
  Builtins.strip (stdin O) <> lit "1" ->
  (Builtins.strip (stdin O) = lit "2" ->
   exists n, Builtins.int (Builtins.strip (stdin 1%nat)) = Some n
             /\ (n < 1 \/ 20 < n)) ->
  main W stdin s = (Val tt, s).
Proof.
  intros Hnot1 H2. unfold main.
  rewrite bool_decide_eq_false_2 by done.
  case_bool_decide as Hc; [|done].
  destruct (H2 Hc) as (n & Hn & Hrange).
  unfold select_food. rewrite Hn.
  change (Z.of_nat (length (myanmar_foods (init false 30)))) with 20.
  destruct (Z.leb_spec 0 (n - 1)); [|done].
  destruct (Z.ltb_spec (n - 1) 20); [lia|done].
Qed.

Lemma main_idle_on_bad_answer_witness :
  main (calm_world [] (fun _ => Raises RequestException))
       (fun n => match n with O => lit "2" | _ => lit "0" end) fresh
  = (Val tt, fresh).
Proof.
  apply (main_idle_on_bad_answer
           (calm_world [] (fun _ => Raises RequestException))
           (fun n => match n with O => lit "2" | _ => lit "0" end) fresh).
  - intros H. discriminate H.
  - intros _. exists 0. split; [reflexivity|lia].
Defined.

(** X19.  An answer that holds a letter is never read as a number: [main]
    takes it, lower-cased, as the name of a food and runs
    [scrape_single_food] on it, whether or not the name is in the list. *)
Theorem answer_with_letter_is_a_name
        (W : World) (stdin : nat -> str) (c : ascii) (s : State) :
  Builtins.strip (stdin O) = lit "2" ->
  c ∈ Builtins.strip (stdin 1%nat) ->
  Url.is_ascii_alpha c = true ->
  main W stdin s
  = scrape_single_food W (init false 30)
      (Py.lower (Builtins.strip (stdin 1%nat))) s.
Proof.
  intros Hchoice Hin Hc. unfold main. rewrite Hchoice.
  rewrite (bool_decide_eq_false_2 (lit "2" = lit "1")) by (intros H; discriminate H).
  rewrite (bool_decide_eq_true_2 (lit "2" = lit "2")) by done.
  unfold select_food. by rewrite (int_letter c _ Hin Hc).
Qed.

Lemma answer_with_letter_is_a_name_witness :
  main (calm_world [] (fun _ => Raises RequestException))
       (fun n => match n with O => lit "2" | _ => lit " Mohinga" end) fresh
  = scrape_single_food (calm_world [] (fun _ => Raises RequestException))
      (init false 30) (lit "mohinga") fresh.
Proof.
  apply (answer_with_letter_is_a_name
           (calm_world [] (fun _ => Raises RequestException))
           (fun n => match n with O => lit "2" | _ => lit " Mohinga" end)
           "M" fresh).
  - reflexivity.
  - vm_compute. constructor.
  - reflexivity.
Defined.

(** ** The result of a search *)

Section Search.

Variable W : World.
Variable imgs : list WebElement.
Hypothesis HW : page_shows W imgs.

Lemma scroll_once_run i s :
  driver s = true ->
  exists s', scroll_once W i tt s = (Val tt, s') /\ driver s' = true.
Proof.
  intros Hdrv.
  cbv [scroll_once time_sleep bind on_driver call try_].
  rewrite Hdrv, (ps_script W imgs HW). cbn [record trace driver].
  rewrite (ps_sleep W imgs HW). cbn [record trace driver]. rewrite Hdrv.
  destruct (find_show_more W _); [|by eexists].
  destruct (is_displayed W _) as [[]|]; [|by eexists..].
  destruct (click W _) as [[]|]; [|by eexists].
  rewrite (ps_sleep W imgs HW). by eexists.
Qed.

Lemma scroll_loop_run (l : list nat) : forall s,
  driver s = true ->
  exists s', for_each l (scroll_once W) tt s = (Val tt, s')
             /\ driver s' = true.
Proof.
  induction l as [|i l IH]; intros s Hdrv; [by exists s|].
  rewrite for_each_cons_run.
  destruct (scroll_once_run i s Hdrv) as (s1 & -> & Hdrv1).
  by apply IH.
Qed.

Lemma collect_loop_run (l : list WebElement) : forall acc s,
  Forall readable l ->
  exists s', for_each l collect_img acc s
             = (Val (acc ++ flat_map img_urls l), s').
Proof.
  induction l as [|img l IH]; intros acc s Hl.
  - exists s. simpl. by rewrite app_nil_r.
  - inversion Hl as [|? ? (src & data_src & Hsrc & Hdata) Hl']; subst.
    rewrite for_each_cons_run.
    unfold collect_img at 1. unfold bind, call, ret. rewrite Hsrc, Hdata.
    destruct (IH (acc ++ keep_url (url_to_use src data_src))
                 (record EGetAttribute (record EGetAttribute s)) Hl')
      as (s' & ->).
    exists s'. f_equal. f_equal. simpl. unfold img_urls at 2.
    by rewrite Hsrc, Hdata, <- app_assoc.
Qed.

End Search.

(** X20.  When the browser answers every call of the search, [get_image_urls]
    returns the URLs of the page's [<img>] elements in the order of the
    page, each element giving its [src] (or else its [data-src]) when
    that starts with [http], with every URL kept at its first place
    only. *)
Theorem search_returns_page_urls
        (W : World) (imgs : list WebElement) (query : str) (s : State) :
  page_shows W imgs ->
  driver s = true ->
  (get_image_urls W query s).1
  = Val (dict_fromkeys (flat_map img_urls imgs)).
Proof.
  intros HW Hdrv.
  unfold get_image_urls, try_, get_image_urls_try.
  rewrite bind_run. unfold on_driver at 1, call at 1.
  rewrite Hdrv, (ps_get W imgs HW).
  rewrite bind_run. unfold time_sleep at 1, call at 1.
  rewrite (ps_sleep W imgs HW).
  rewrite bind_run.
  destruct (scroll_loop_run W imgs HW (seq 0 15)
              (record (ESleep 3) (record (ENavigate (search_url query)) s)))
    as (s1 & -> & Hdrv1); [done|].
  rewrite bind_run. unfold call at 1. rewrite (ps_wait W imgs HW).
  rewrite bind_run. unfold on_driver at 1, call at 1.
  cbn [record driver]. rewrite Hdrv1, (ps_find W imgs HW).
  rewrite bind_run.
  destruct (collect_loop_run imgs [] (record EFindImgs (record EWaitImgs s1))
              (ps_readable W imgs HW)) as (s2 & ->).
  done.
Qed.

Lemma search_returns_page_urls_witness :
  (get_image_urls
     (calm_world [img "http://h.example/a.png"; img "data:image/png;base64,AA";
                  img "http://h.example/b.png"; img "http://h.example/a.png"]
                 (fun _ => Raises RequestException))
     (lit "mohinga") (set_driver true fresh)).1
  = Val [lit "http://h.example/a.png"; lit "http://h.example/b.png"].
Proof.
  etransitivity.
  - apply (search_returns_page_urls
             (calm_world
                [img "http://h.example/a.png"; img "data:image/png;base64,AA";
                 img "http://h.example/b.png"; img "http://h.example/a.png"]
                (fun _ => Raises RequestException))
             [img "http://h.example/a.png"; img "data:image/png;base64,AA";
              img "http://h.example/b.png"; img "http://h.example/a.png"]
             (lit "mohinga") (set_driver true fresh)).
    + split; try done.
      repeat constructor; by eexists _, _.
    + reflexivity.
  - vm_compute. reflexivity.
Defined.

(** ** Where the files go *)

Section Places.

Variable W : World.
Variable self : MyanmarFoodScraper.



End Places.


Lemma startswith_app_l (p a r : str) :
  Py.startswith a p = true -> Py.startswith (a ++ r) p = true.
Proof.
  revert a. induction p as [|c p IH]; intros a; simpl.
  - intros _. by destruct (a ++ r).
  - destruct a as [|x a]; simpl; [done|].
    intros [-> Ha]%andb_true_iff. simpl. by apply IH.
Qed.



(** ** A folder that cannot be made *)

(** X22.  [scrape_food_images] does not catch the error of [os.makedirs]: in
    [scrape_all_foods] it reaches the [except] clause around the loop,
    so that a first food whose folder cannot be made ends the run at
    once.  The browser is closed, the run returns normally and none of
    the other foods is processed. *)
Theorem folder_failure_ends_run
        (W : World) (self : MyanmarFoodScraper) (s : State)
        (food : str) (rest : list str) (e : exn) :
  myanmar_foods self = food :: rest ->
  makedirs W (length (trace s)) (base_folder self) = Returns tt ->
  chrome_launch W (S (length (trace s))) (headless self) = Returns tt ->
  makedirs W (S (S (length (trace s))))
           (OsPath.join (base_folder self) food) = Raises e ->
  driver_quit W (S (S (S (length (trace s))))) = Returns tt ->
  (scrape_all_foods W self s).1 = Val tt
  /\ trace (scrape_all_foods W self s).2
     = trace s ++ [EMakedirs (base_folder self); ELaunch (headless self);
                   EMakedirs (OsPath.join (base_folder self) food); EQuit].
Proof.
  intros Hfoods Hmk Hlaunch Hfail Hquit.
  set (folder := OsPath.join (base_folder self) food) in *.
  assert (Hlen : length (trace (started self s)) = S (S (length (trace s)))).
  { unfold started. simpl. rewrite !length_app. simpl. lia. }
  assert (Hlen' : length (trace (record (EMakedirs folder) (started self s)))
                  = S (S (S (length (trace s))))).
  { cbn [record trace]. rewrite length_app, Hlen. simpl. lia. }
  assert (Hrun : scrape_all_foods W self s
                 = (Val tt, record EQuit
                              (record (EMakedirs folder) (started self s)))).
  { rewrite scrape_all_foods_started by done.
    rewrite Hfoods.
    change (enumerate 1 (food :: rest))
      with ((1%nat, food) :: enumerate 2 rest).
    unfold try_finally, try_. rewrite for_each_cons_run.
    unfold food_round at 1. rewrite bind_run.
    unfold scrape_food_images. rewrite bind_run, create_folder_run.
    fold folder. rewrite Hlen, Hfail, all_foods_catches_all.
    unfold quit_driver, bind, get_state, call, ret.
    change (driver (record (EMakedirs folder) (started self s))) with true.
    cbv beta iota. rewrite Hlen', Hquit. done. }
  rewrite Hrun. split; [done|].
  unfold started. simpl. by rewrite <- !app_assoc.
Qed.

Lemma folder_failure_ends_run_witness :
  let W :=
    {| makedirs := fun t _ => if (t =? 2)%nat then Raises OSError
                              else Returns tt;
       chrome_launch := fun _ _ => Returns tt;
       driver_get := fun _ _ => Returns tt;
       execute_script := fun _ _ => Returns tt;
       find_show_more := fun _ => Raises WebDriverException;
       is_displayed := fun _ => Returns false;
       click := fun _ => Returns tt;
       wait_for_imgs := fun _ => Returns tt;
       find_imgs := fun _ => Returns [];
       driver_quit := fun _ => Returns tt;
       requests_get := fun _ _ => Raises RequestException;
       open_wb := fun _ _ => Returns tt;
       write_bytes := fun _ _ => Returns tt;
       sleep := fun _ _ => Returns tt;
       netloc_ok := fun _ => true |} in
  length (trace (scrape_all_foods W (init false 30) fresh).2) = 4%nat.
Proof.
  intros W.
  destruct (folder_failure_ends_run W (init false 30) fresh (lit "mohinga")
              (tail (myanmar_foods (init false 30))) OSError
              eq_refl eq_refl eq_refl eq_refl eq_refl)
    as [_ Htr].
  rewrite Htr. reflexivity.
Defined.

(** ** A name that is a path *)



(** ** The course of a search *)

Section Protocol.

Variable W : World.

Lemma navigated_app a b : navigated (a ++ b) = navigated a ++ navigated b.
Proof. apply omap_app. Qed.

Lemma scrolls_app a b : scrolls (a ++ b) = (scrolls a + scrolls b)%nat.
Proof. unfold scrolls. by rewrite omap_app, length_app. Qed.

Lemma slept_app a b : slept (a ++ b) = slept a + slept b.
Proof.
  unfold slept. induction a as [|e a IH]; simpl; [done|].
  rewrite IH. destruct e; lia.
Qed.

(** One round of the scroll loop: at most one script, and when the round
    returns, one script and a pause of two seconds, or of five when the
    button was clicked. *)
Ltac course_done :=
  repeat split; try done;
  try (unfold scrolls; cbn; lia);
  try (intros ? H; try discriminate H; repeat split;
       try done; try (unfold scrolls; cbn; lia)).

Lemma scroll_once_course i s :
  exists evs,
    trace (scroll_once W i tt s).2 = trace s ++ evs
    /\ navigated evs = []
    /\ (scrolls evs <= 1)%nat
    /\ (forall u, (scroll_once W i tt s).1 = Val u ->
          scrolls evs = 1%nat /\ 2 <= slept evs <= 5).
Proof.
  cbv [scroll_once time_sleep bind on_driver call try_ ret].
  destruct (driver s) eqn:Hdrv.
  2:{ exists []. rewrite app_nil_r. course_done. }
  destruct (execute_script W _ _) as [[]|e]; cbn [fst snd record trace driver].
  2:{ exists [EScript (lit "window.scrollBy(0,1000)")].
      course_done. }
  destruct (sleep W _ 2) as [[]|e]; cbn [fst snd record trace driver].
  2:{ exists [EScript (lit "window.scrollBy(0,1000)"); ESleep 2].
      rewrite <- app_assoc. course_done. }
  rewrite Hdrv.
  destruct (find_show_more W _) as [[]|e]; cbn [fst snd record trace driver].
  2:{ exists [EScript (lit "window.scrollBy(0,1000)"); ESleep 2;
              EFindShowMore].
      rewrite <- !app_assoc. course_done. }
  destruct (is_displayed W _) as [[]|e]; cbn [fst snd record trace driver].
  3:{ exists [EScript (lit "window.scrollBy(0,1000)"); ESleep 2;
              EFindShowMore; EIsDisplayed].
      rewrite <- !app_assoc. course_done. }
  2:{ exists [EScript (lit "window.scrollBy(0,1000)"); ESleep 2;
              EFindShowMore; EIsDisplayed].
      rewrite <- !app_assoc. course_done. }
  destruct (click W _) as [[]|e]; cbn [fst snd record trace driver].
  2:{ exists [EScript (lit "window.scrollBy(0,1000)"); ESleep 2;
              EFindShowMore; EIsDisplayed; EClick].
      rewrite <- !app_assoc. course_done. }
  exists [EScript (lit "window.scrollBy(0,1000)"); ESleep 2;
          EFindShowMore; EIsDisplayed; EClick; ESleep 3].
  destruct (sleep W _ 3) as [[]|e]; cbn [fst snd record trace driver];
    rewrite <- !app_assoc; course_done.
Qed.

Lemma scroll_loop_course (l : list nat) : forall s,
  exists evs,
    trace (for_each l (scroll_once W) tt s).2 = trace s ++ evs
    /\ navigated evs = []
    /\ (scrolls evs <= length l)%nat
    /\ (forall u, (for_each l (scroll_once W) tt s).1 = Val u ->
          scrolls evs = length l
          /\ 2 * Z.of_nat (length l) <= slept evs <= 5 * Z.of_nat (length l)).
Proof.
  induction l as [|i l IH]; intros s.
  - exists []. simpl. rewrite app_nil_r. repeat split; try done.
  - rewrite for_each_cons_run.
    destruct (scroll_once_course i s) as (evs1 & Htr1 & Hn1 & Hs1 & Hv1).
    destruct (scroll_once W i tt s) as [[[]|e] s1]; cbn [fst snd] in *.
    + destruct (IH s1) as (evs2 & Htr2 & Hn2 & Hs2 & Hv2).
      destruct (Hv1 tt eq_refl) as (Hs1' & Hz1).
      exists (evs1 ++ evs2). rewrite Htr2, Htr1, app_assoc.
      rewrite navigated_app, scrolls_app, slept_app, Hn1, Hn2.
      split; [done|]. split; [done|]. split; [simpl; lia|].
      intros u Hu. destruct (Hv2 u Hu) as (Hs2' & Hz2).
      split; [simpl; lia|]. cbn [length]. rewrite Nat2Z.inj_succ. lia.
    + exists evs1. split; [done|]. split; [done|]. split; [simpl; lia|].
      intros u Hu. discriminate Hu.
Qed.

Lemma collect_loop_course (l : list WebElement) : forall acc s,
  exists evs,
    trace (for_each l collect_img acc s).2 = trace s ++ evs
    /\ navigated evs = [] /\ scrolls evs = O /\ slept evs = 0.
Proof.
  induction l as [|img l IH]; intros acc s.
  - exists []. simpl. by rewrite app_nil_r.
  - rewrite for_each_cons_run. unfold collect_img at 1.
    unfold bind, call, ret.
    destruct (attr_src img) as [src|e]; cbn [fst snd record trace].
    2:{ exists [EGetAttribute]. done. }
    destruct (attr_data_src img) as [data_src|e]; cbn [fst snd record trace].
    2:{ exists [EGetAttribute; EGetAttribute]. by rewrite <- app_assoc. }
    destruct (IH (acc ++ keep_url (url_to_use src data_src))
                 (record EGetAttribute (record EGetAttribute s)))
      as (evs & Htr & Hn & Hs & Hz).
    exists (EGetAttribute :: EGetAttribute :: evs).
    split; [rewrite Htr; cbn [record trace]; by rewrite <- !app_assoc|].
    split; [exact Hn|]. split; [exact Hs|exact Hz].
Qed.

Lemma get_image_urls_try_course url s r s' :
  get_image_urls_try W url s = (r, s') ->
  exists evs,
    trace s' = trace s ++ evs
    /\ (navigated evs = [] \/ navigated evs = [url])
    /\ (scrolls evs <= 15)%nat
    /\ (forall urls, r = Val urls ->
          navigated evs = [url] /\ scrolls evs = 15%nat
          /\ 33 <= slept evs <= 78).
Proof.
  unfold get_image_urls_try.
  rewrite bind_run. unfold on_driver at 1, call at 1.
  destruct (driver s) eqn:Hdrv.
  2:{ intros [= <- <-]. exists []. rewrite app_nil_r. split; [done|].
      split; [by left|]. split; [unfold scrolls; simpl; lia|].
      intros urls H. discriminate H. }
  destruct (driver_get W _ url) as [[]|e].
  2:{ intros [= <- <-]. exists [ENavigate url]. split; [done|].
      split; [by right|]. split; [unfold scrolls; simpl; lia|].
      intros urls H. discriminate H. }
  rewrite bind_run. unfold time_sleep at 1, call at 1.
  destruct (sleep W _ 3) as [[]|e].
  2:{ intros [= <- <-]. exists [ENavigate url; ESleep 3].
      cbn [record trace]. rewrite <- app_assoc. split; [done|].
      split; [by right|]. split; [unfold scrolls; simpl; lia|].
      intros urls H. discriminate H. }
  rewrite bind_run.
  destruct (scroll_loop_course (seq 0 15)
              (record (ESleep 3) (record (ENavigate url) s)))
    as (evs1 & Htr1 & Hn1 & Hs1 & Hv1).
  rewrite length_seq in Hs1, Hv1.
  destruct (for_each (seq 0 15) _ tt _) as [[[]|e] s1]; cbn [fst snd] in *.
  2:{ intros [= <- <-]. exists ([ENavigate url; ESleep 3] ++ evs1).
      rewrite Htr1. cbn [record trace]. rewrite <- !app_assoc.
      split; [done|]. rewrite navigated_app, scrolls_app, Hn1.
      split; [by right|]. split; [unfold scrolls in *; simpl; lia|].
      intros urls H. discriminate H. }
  destruct (Hv1 tt eq_refl) as (Hs1' & Hz1).
  rewrite bind_run. unfold call at 1.
  assert (Hhead : navigated ([ENavigate url; ESleep 3] ++ evs1) = [url]
                  /\ scrolls ([ENavigate url; ESleep 3] ++ evs1) = 15%nat
                  /\ 33 <= slept ([ENavigate url; ESleep 3] ++ evs1) <= 78).
  { rewrite navigated_app, scrolls_app, slept_app, Hn1, Hs1'.
    split; [done|]. split; [done|].
    change (slept [ENavigate url; ESleep 3]) with 3. lia. }
  destruct Hhead as (Hn & Hs & Hz).
  assert (Htr1' : trace s1 = trace s ++ [ENavigate url; ESleep 3] ++ evs1).
  { rewrite Htr1. cbn [record trace]. by rewrite <- !app_assoc. }
  clear Htr1.
  destruct (wait_for_imgs W _) as [[]|e].
  2:{ intros [= <- <-].
      exists (([ENavigate url; ESleep 3] ++ evs1) ++ [EWaitImgs]).
      cbn [record trace]. rewrite Htr1'.
      split; [by rewrite <- !app_assoc|].
      rewrite navigated_app, scrolls_app, Hn, Hs.
      split; [by right|]. split; [unfold scrolls; simpl; lia|].
      intros urls H. discriminate H. }
  rewrite bind_run. unfold on_driver at 1, call at 1.
  destruct (driver (record EWaitImgs s1)).
  2:{ intros [= <- <-].
      exists (([ENavigate url; ESleep 3] ++ evs1) ++ [EWaitImgs]).
      cbn [record trace]. rewrite Htr1'.
      split; [by rewrite <- !app_assoc|].
      rewrite navigated_app, scrolls_app, Hn, Hs.
      split; [by right|]. split; [unfold scrolls; simpl; lia|].
      intros urls H. discriminate H. }
  destruct (find_imgs W _) as [imgs|e].
  2:{ intros [= <- <-].
      exists (([ENavigate url; ESleep 3] ++ evs1) ++ [EWaitImgs; EFindImgs]).
      cbn [record trace]. rewrite Htr1'.
      split; [by rewrite <- !app_assoc|].
      rewrite navigated_app, scrolls_app, Hn, Hs.
      split; [by right|]. split; [unfold scrolls; simpl; lia|].
      intros urls H. discriminate H. }
  rewrite bind_run.
  destruct (collect_loop_course imgs []
              (record EFindImgs (record EWaitImgs s1)))
    as (evs2 & Htr2 & Hn2 & Hs2 & Hz2).
  intros Hrun.
  set (head := [ENavigate url; ESleep 3] ++ evs1) in *.
  exists ((head ++ [EWaitImgs; EFindImgs]) ++ evs2).
  split.
  - destruct (for_each imgs collect_img [] _) as [[found|e] s2];
      unfold ret in Hrun; injection Hrun as <- <-;
      cbn [fst snd] in *; rewrite Htr2; cbn [record trace]; rewrite Htr1';
      by rewrite <- !app_assoc.
  - rewrite !navigated_app, !scrolls_app, !slept_app, Hn, Hs, Hn2, Hs2, Hz2.
    split; [by right|]. split; [unfold scrolls; simpl; lia|].
    intros urls _. split; [done|]. split; [unfold scrolls; simpl; lia|].
    change (slept [EWaitImgs; EFindImgs]) with 0. lia.
Qed.

End Protocol.

(** X24.  A search navigates at most once, to the search page of the query, and
    runs the scroll script at most 15 times; a search that reaches the
    end of its [try] block has navigated there once, has scrolled 15
    times and has asked for 33 to 78 seconds of pauses (3 after the
    navigation, 2 after each scroll and 3 more after each click on
    "Show more results"). *)
Theorem search_course (W : World) (query : str) (s : State) :
  exists evs,
    trace (get_image_urls W query s).2 = trace s ++ evs
    /\ (navigated evs = [] \/ navigated evs = [search_url query])
    /\ (scrolls evs <= 15)%nat
    /\ (forall urls,
          (get_image_urls_try W (search_url query) s).1 = Val urls ->
          navigated evs = [search_url query]
          /\ scrolls evs = 15%nat
          /\ 33 <= slept evs <= 78).
Proof.
  destruct (get_image_urls_try W (search_url query) s) as [r s1] eqn:Hrun.
  destruct (get_image_urls_try_course W (search_url query) s r s1 Hrun)
    as (evs & Htr & Hn & Hs & Hv).
  exists evs. split; [|done].
  unfold get_image_urls, try_, ret. rewrite Hrun.
  destruct r as [urls|e]; [done|]. by destruct (is_Exception e).
Qed.

(** ** What is on the disk after the downloads *)

Section OnDisk.

Variable W : World.
Variable fetch : str -> outcome Response.
Hypothesis Hfetch : forall t u, requests_get W t u = fetch u.
Hypothesis Hcalm : forall u, raises_Exception (fetch u).
Hypothesis Hopen : forall t p, open_wb W t p = Returns tt.
Hypothesis Hwrite : forall t p, write_bytes W t p = Returns tt.

Lemma download_image_returns u p s :
  exists ok, (download_image W u p s).1 = Val ok.
Proof.
  cbv [download_image download_image_try try_ bind call lift modify ret].
  rewrite Hfetch. pose proof (Hcalm u) as Hu.
  destruct (fetch u) as [r|e]; simpl in Hu.
  2:{ rewrite Hu. by eexists. }
  destruct (raise_for_status r) as [[]|e] eqn:Hst.
  2:{ unfold raise_for_status in Hst. destruct (_ && _); [|done].
      injection Hst as <-. by eexists. }
  destruct (is_image r); cbn [negb]; [|by eexists].
  rewrite Hopen, Hwrite. by eexists.
Qed.

Lemma download_one_returns food folder i u c s :
  exists c', (download_one W food folder (i, u) c s).1 = Val c'.
Proof.
  unfold download_one, try_, bind, ret, raise.
  destruct (file_path_for W food folder i u) as [p|]; [|by eexists].
  destruct (download_image_returns u p s) as [ok Hok].
  destruct (download_image W u p s) as [r s1]. simpl in Hok. subst r.
  by eexists.
Qed.

Lemma download_one_saves food folder i u c s r p :
  fetch u = Returns r ->
  raise_for_status r = Returns tt ->
  is_image r = true ->
  file_path_for W food folder i u = Some p ->
  files (download_one W food folder (i, u) c s).2 !! p = Some (content r).
Proof.
  intros Hu Hst Himg Hp. unfold download_one, try_, bind, ret. rewrite Hp.
  rewrite (download_image_saves W u p s r); try done.
  - simpl. apply lookup_insert_eq.
  - by rewrite Hfetch.
Qed.

Lemma download_one_keeps food folder i u c s q :
  file_path_for W food folder i u <> Some q ->
  files (download_one W food folder (i, u) c s).2 !! q = files s !! q.
Proof.
  intros Hq. unfold download_one.
  destruct (file_path_for W food folder i u) as [p|]; [|done].
  destruct (download_image_trace W u p s) as (_ & _ & _ & Hother & _).
  assert (Hst : (try_ (bind (download_image W u p)
                         (fun ok : bool => ret (if ok then S c else c)))
                      is_Exception (fun _ => ret c) s).2
                = (download_image W u p s).2).
  { unfold try_, bind, ret. destruct (download_image W u p s) as [[ok|e] s'];
      simpl; [done|]. by destruct (is_Exception e). }
  rewrite Hst. apply Hother. congruence.
Qed.

Lemma download_loop_keeps food folder l : forall start c s q,
  q ∉ candidate_paths W food folder start l ->
  files (for_each (enumerate start l) (download_one W food folder) c s).2 !! q
  = files s !! q.
Proof.
  induction l as [|u l IH]; intros start c s q Hq; [done|].
  change (enumerate start (u :: l))
    with ((start, u) :: enumerate (S start) l).
  rewrite for_each_cons_run.
  rewrite candidate_paths_cons in Hq.
  apply not_elem_of_app in Hq as [Hq1 Hq2].
  assert (Hne : file_path_for W food folder start u <> Some q).
  { intros Heq. apply Hq1. unfold candidate_paths. simpl. rewrite Heq.
    simpl. by apply list_elem_of_singleton. }
  pose proof (download_one_keeps food folder start u c s q Hne) as Hkeep.
  destruct (download_one W food folder (start, u) c s) as [[c1|e] s1];
    cbn [fst snd] in *; [|done].
  rewrite (IH (S start) c1 s1 q Hq2). done.
Qed.

(** The rounds after a position leave the file of that position alone. *)
Lemma later_rounds_keep_file food folder l start c s i u p :
  (i < start)%nat ->
  file_path_for W food folder i u = Some p ->
  files (for_each (enumerate start l) (download_one W food folder) c s).2 !! p
  = files s !! p.
Proof.
  intros Hlt Hp. apply download_loop_keeps. intros Hin.
  destruct (candidate_paths_named W _ _ _ _ _ Hin)
    as (j & u' & ext & _ & Hext & Hpath).
  assert (Hp' : file_path_for W food folder (start + j) u' = Some p).
  { unfold file_path_for. rewrite Hext. simpl. by rewrite Hpath. }
  pose proof (file_path_for_inj W _ _ _ _ _ _ _ Hp Hp'). lia.
Qed.

Lemma download_loop_saves food folder l : forall start c s i u r p,
  l !! i = Some u ->
  fetch u = Returns r ->
  raise_for_status r = Returns tt ->
  is_image r = true ->
  file_path_for W food folder (start + i) u = Some p ->
  files (for_each (enumerate start l) (download_one W food folder) c s).2 !! p
  = Some (content r).
Proof.
  induction l as [|u0 l IH]; intros start c s i u r p Hi Hu Hst Himg Hp;
    [done|].
  change (enumerate start (u0 :: l))
    with ((start, u0) :: enumerate (S start) l).
  rewrite for_each_cons_run.
  destruct (download_one_returns food folder start u0 c s) as [c1 Hc1].
  destruct i as [|i]; simpl in Hi.
  - injection Hi as ->. rewrite Nat.add_0_r in Hp.
    pose proof (download_one_saves food folder start u c s r p
                  Hu Hst Himg Hp) as Hsaved.
    destruct (download_one W food folder (start, u) c s) as [r1 s1].
    cbn [fst snd] in *. subst r1.
    rewrite (later_rounds_keep_file food folder l (S start) c1 s1 start u p);
      [done|lia|done].
  - destruct (download_one W food folder (start, u0) c s) as [r1 s1].
    cbn [fst snd] in *. subst r1.
    apply (IH (S start) c1 s1 i u r p); try done.
    by rewrite Nat.add_succ_comm.
Qed.

End OnDisk.

(** X25.  In a world that answers a URL the same way whenever it is asked, in
    which no request is interrupted and every file can be opened and
    written, the body of every good answer is on the disk when the
    download loop has ended: for each of the attempted URLs whose
    response has a good status and an image content type, the file named
    after the position of the URL holds the body of that response,
    whatever was downloaded before or after it. *)
Theorem downloads_end_up_on_disk
        (W : World) (self : MyanmarFoodScraper)
        (food_name folder_path : str) (image_urls : list str) (s : State)
        (fetch : str -> outcome Response)
        (i : nat) (img_url : str) (response : Response) (file_path : str) :
  (forall t u, requests_get W t u = fetch u) ->
  (forall u, raises_Exception (fetch u)) ->
  (forall t p, open_wb W t p = Returns tt) ->
  (forall t p, write_bytes W t p = Returns tt) ->
  slice_to image_urls (images_per_food self) !! i = Some img_url ->
  fetch img_url = Returns response ->
  raise_for_status response = Returns tt ->
  is_image response = true ->
  file_path_for W food_name folder_path i img_url = Some file_path ->
  files (download_all W self food_name folder_path image_urls s).2
  !! file_path = Some (content response).
Proof.
  intros Hfetch Hcalm Hopen Hwrite Hi Hu Hst Himg Hp.
  unfold download_all.
  by apply (download_loop_saves W fetch Hfetch Hcalm Hopen Hwrite
              food_name folder_path _ O O s i img_url response file_path).
Qed.

Lemma downloads_end_up_on_disk_witness :
  files (download_all three_of_five (init false 30) (lit "mohinga")
           (lit "Myanmar_Food_Images/mohinga") five_urls fresh).2
  !! lit "Myanmar_Food_Images/mohinga/mohinga_3.jpeg"
  = Some (content image_response).
Proof.
  apply (downloads_end_up_on_disk three_of_five (init false 30)
           (lit "mohinga") (lit "Myanmar_Food_Images/mohinga") five_urls
           fresh
           (fun u => if bool_decide (u = lit "http://h.example/b.png")
                     then Returns html_response
                     else if bool_decide (u = lit "http://h.example/d.webp")
                          then Raises RequestException
                          else Returns image_response)
           2 (lit "http://h.example/c.jpeg") image_response); try done.
  intros u. by repeat case_bool_decide.
Defined.

(** ** One food, two ways *)

(** X26.  For a scraper whose list holds a single food, [scrape_all_foods] and
    [scrape_single_food] on that food make the same calls and leave the
    same state: there is no pause after the last food.  Their results
    differ in one case only, when [scrape_food_images] is interrupted:
    [scrape_single_food] passes the interrupt on. *)
Theorem single_food_list_same_run
        (W : World) (self : MyanmarFoodScraper) (food : str) (s : State) :
  myanmar_foods self = [food] ->
  (scrape_all_foods W self s).2 = (scrape_single_food W self food s).2
  /\ ((forall st e, (scrape_food_images W self food st).1 = Exc e ->
                    is_Exception e = true) ->
      scrape_all_foods W self s = scrape_single_food W self food s).
Proof.
  intros Hfoods.
  unfold scrape_all_foods, scrape_single_food. rewrite Hfoods.
  change (enumerate 1 [food]) with [(1%nat, food)].
  rewrite !bind_run.
  destruct (call (EMakedirs (base_folder self)) _ s) as [[[]|e] s1];
    [|done].
  rewrite !bind_run.
  destruct (modify (add_dir (base_folder self)) s1) as [[[]|e] s2]; [|done].
  rewrite !bind_run.
  destruct (setup_driver W self s2) as [[[]|e] s3]; [|done].
  unfold try_finally, try_.
  rewrite for_each_cons_run. rewrite bind_run.
  rewrite bool_decide_eq_false_2 by (simpl; lia).
  destruct (scrape_food_images W self food s3) as [[[]|e] s4] eqn:Hrun.
  - cbn [for_each ret]. split; [done|]. done.
  - split.
    + unfold ret.
      destruct e; cbn [is_Exception fst snd];
        by destruct (quit_driver W s4) as [[[]|] ?].
    + intros Hguard. specialize (Hguard s3 e). rewrite Hrun in Hguard.
      specialize (Hguard eq_refl). by destruct e.
Qed.

Lemma single_food_list_same_run_witness :
  let self := {| headless := true; images_per_food := 5;
                 base_folder := lit "out";
                 myanmar_foods := [lit "mohinga"] |} in
  (scrape_all_foods interrupted_world self fresh).2
  = (scrape_single_food interrupted_world self (lit "mohinga") fresh).2.
Proof.
  intros self.
  apply (single_food_list_same_run interrupted_world self (lit "mohinga")
           fresh).
  reflexivity.
Defined.
